(** * Lazy evaluation proxies of [django/utils/functional.py]

    A shallow embedding of [lazy], the [__proxy__] class it creates, and
    [allow_lazy].  Python objects with identity (the proxy classes created
    by each call of [lazy], the proxy instances, dictionaries passed as
    deep-copy memo) live in an explicit store; the code runs in a state and
    exception monad over that store.  Every invocation of a wrapped
    computation is recorded in a trace, which plays the role of a
    call-counting stand-in. *)

From Stdlib Require Import ZArith String.
From stdpp Require Import base option list gmap strings.

Open Scope string_scope.

(** ** Values, exceptions and outcomes *)

(** The Python values the model distinguishes.  [VPromise l] is a reference
    to the [__proxy__] instance stored at [l]; [VDict d] is a reference to a
    dictionary object. *)
Inductive value : Type :=
| VNone
| VBool (b : bool)
| VInt (z : Z)
| VText (s : string)
| VBytes (bs : list Byte.byte)
| VInst (c : string) (payload : Z)
| VDict (d : nat)
| VPromise (l : nat).

Inductive exn : Type :=
| TypeError (msg : string)
| AssertionError (msg : string)
| KeyError (key : string)
| AttributeError (name : string)
| RecursionError
| SystemError (msg : string)
| OtherError (kind msg : string).

Inductive outcome (A : Type) : Type :=
| Ok (a : A)
| Raise (e : exn).
Arguments Ok {A} a.
Arguments Raise {A} e.

(** Keyword arguments. *)
Abbreviation kwargs := (list (string * value)).

(** What calling an attribute found in a class [__dict__] does: it receives
    the receiver, the positional and the keyword arguments. *)
Abbreviation method := (value → list value → kwargs → outcome value).

(** A class usable as a result class: its ancestors in method resolution
    order (the class itself excluded) and its own [__dict__]. *)
Record pyclass : Type := PyClass {
  c_ancestors : list string;
  c_dict : gmap string method;
}.

(** One invocation of a wrapped computation. *)
Inductive event : Type :=
| Invoke (fid : nat) (args : list value) (kw : kwargs).

(** A wrapped computation.  Its body may depend on the invocations made so
    far, so that it can stand for a non-deterministic callable such as an
    incrementing counter. *)
Record pyfunc : Type := PyFunc {
  fn_id : nat;
  fn_body : list value → kwargs → list event → outcome value;
}.

Inductive cmpop : Type := Eq_ | Ne_ | Lt_.

(** The Python interpreter around the module: the version switch of [six],
    the classes that exist, and the built-in operations applied to values
    that are not promises. *)
Class Python : Type := {
  PY3 : bool;
  class_of : string → pyclass;
  (** names that [hasattr] finds on a new [__proxy__] class besides those of
      its body: the attributes of [Promise], of [object] and of the metaclass *)
  inherited_attrs : list string;
  (** [a == b], [a != b], [a < b] for [a] that is not a promise *)
  py_cmp : cmpop → value → value → outcome value;
  (** [hash(a)] for [a] that is not a promise *)
  py_hash : value → outcome value;
  (** [bytes(a)] *)
  py_bytes : value → outcome value;
  (** [a % b] for [a] and [b] that are not promises *)
  py_mod : value → value → outcome value;
  (** what the built-in conversion that calls the method [name] of an object
      ([str] calls [__str__], [unicode] calls [__unicode__]) returns when
      that method returned [v]: [v] if it is of the type asked for, a
      converted value or [TypeError] otherwise *)
  py_converted : string → value → outcome value;
  (** what the comparison method of the class of [a], which is not a
      promise, answers when the other operand is the promise at [r];
      [None] stands for [NotImplemented] and for a class without such a
      method, as with the built-in types *)
  py_cmp_method : cmpop → value → nat → option (outcome value);
}.

Section Model.
Context `{Python}.

(** [bytes] and [six.text_type]. *)
Definition bytes_cls : string := if PY3 then "bytes" else "str".
Definition text_type : string := if PY3 then "str" else "unicode".

(** [type(v)], as a class name. *)
Definition type_of (v : value) : string :=
  match v with
  | VNone => "NoneType"
  | VBool _ => "bool"
  | VInt _ => "int"
  | VText _ => text_type
  | VBytes _ => bytes_cls
  | VInst c _ => c
  | VDict _ => "dict"
  | VPromise _ => "__proxy__"
  end.

(** [klass.mro()]: the class itself, then its ancestors. *)
Definition mro (klass : string) : list string :=
  klass :: c_ancestors (class_of klass).

(** [isinstance(v, Promise)] *)
Definition is_promise (v : value) : bool :=
  match v with VPromise _ => true | _ => false end.

(** ** The [__proxy__] class and its instances *)

(** An attribute of a [__proxy__] class. *)
Inductive attr : Type :=
| AOwn (name : string)         (* from the class body, [total_ordering], [Promise] or [object] *)
| AWrapper (funcname : string) (* the [__wrapper__] closure returned by [__promise__] *)
| AFlag (b : bool).            (* [_delegate_bytes], [_delegate_text] *)

(** The [__proxy__] class created by one call of [lazy]. *)
Record proxy_class : Type := ProxyClass {
  pc_func : pyfunc;
  pc_resultclasses : list string;
  pc_dispatch : option (gmap string (gmap string method));
  pc_attrs : gmap string attr;
}.

(** A [__proxy__] instance. *)
Record proxy_obj : Type := ProxyObj {
  po_class : nat;
  po_args : list value;
  po_kw : kwargs;
}.

Record state : Type := State {
  classes : list proxy_class;
  heap : list proxy_obj;
  dicts : list (gmap nat value);
  trace : list event;
}.

Definition init_state : state := State [] [] [] [].

(** ** The state and exception monad *)

Definition M (A : Type) : Type := state → outcome A * state.

#[global] Instance M_ret : MRet M := λ A a s, (Ok a, s).
#[global] Instance M_bind : MBind M := λ A B k m s,
  match m s with
  | (Ok a, s') => k a s'
  | (Raise e, s') => (Raise e, s')
  end.

Definition ret {A} (a : A) : M A := mret a.
Definition raise {A} (e : exn) : M A := λ s, (Raise e, s).
Definition lift {A} (o : outcome A) : M A := λ s, (o, s).

(** What the interpreter runs for a proxy that is not code of this module:
    the attributes the class [__proxy__] has from [Promise], [object] and
    the metaclass, the three orderings that [functools.total_ordering]
    derives from [__lt__] (their code differs between versions of the
    library), and [a % p] for a proxy [p] on the right of a value [a] that
    is not one (formatting, or the reflected operation of [p]).  Such code
    may call back into the proxy and may rebind attributes, so it is a
    function of the store and nothing more is assumed of it.  [__init__]
    and [__promise__] called with values are handed to it as well: their
    parameters are a tuple, a dictionary of keywords, a class and a
    function, which are no values of this model; [reinit] and
    [promise_call] below are those two methods on arguments of these
    types. *)
Class External : Type := {
  py_external : string → nat → list value → kwargs → M value;
  py_mod_promise : value → nat → M value;
}.
Context `{External}.

Definition get_obj (l : nat) : M proxy_obj := λ s,
  match heap s !! l with
  | Some o => (Ok o, s)
  | None => (Raise (SystemError "no such object"), s)
  end.

Definition get_class (cid : nat) : M proxy_class := λ s,
  match classes s !! cid with
  | Some pc => (Ok pc, s)
  | None => (Raise (SystemError "no such class"), s)
  end.

Definition class_of_obj (self : nat) : M proxy_class :=
  o ← get_obj self; get_class (po_class o).

(** The call of [func] on the captured arguments: the invocation is recorded. *)
Definition call_func (f : pyfunc) (args : list value) (kw : kwargs) : M value := λ s,
  (fn_body f args kw (trace s),
   State (classes s) (heap s) (dicts s) (Invoke (fn_id f) args kw :: trace s)).

(** ** [__prepare_class__] and [__promise__] *)

(** Names bound in the body of [class __proxy__] (private names mangled). *)
Definition body_attrs : list string :=
  [ "_proxy____dispatch"; "__init__"; "__prepare_class__"; "__promise__";
    "_proxy____text_cast"; "_proxy____bytes_cast"; "_proxy____cast";
    "__ne__"; "__eq__"; "__lt__"; "__hash__"; "__mod__"; "__deepcopy__";
    "__doc__"; "__module__" ].

(** Names supplied by [@total_ordering] from [__lt__]. *)
Definition total_ordering_attrs : list string := [ "__le__"; "__gt__"; "__ge__" ].

Definition own_attrs : list string :=
  body_attrs ++ total_ordering_attrs ++ inherited_attrs.

Definition initial_attrs : gmap string attr :=
  list_to_map ((λ k, (k, AOwn k)) <$> own_attrs).

(** [hasattr(cls, k)] *)
Definition hasattr (a : gmap string attr) (k : string) : bool :=
  bool_decide (is_Some (a !! k)).

(** The registration done by [__promise__(klass, funcname, method)]. *)
Definition __promise__ (klass funcname : string) (meth : method)
    (d : gmap string (gmap string method)) : gmap string (gmap string method) :=
  let d1 := if bool_decide (is_Some (d !! klass)) then d else <[klass := ∅]> d in
  <[klass := <[funcname := meth]> (default ∅ (d1 !! klass))]> d1.

(** Body of the innermost loop, for one item [(k, v)] of [type_.__dict__]. *)
Definition prepare_item (resultclass : string)
    (st : gmap string (gmap string method) * gmap string attr)
    (kv : string * method) : gmap string (gmap string method) * gmap string attr :=
  let d := __promise__ resultclass kv.1 kv.2 st.1 in
  let meth := AWrapper kv.1 in
  if hasattr st.2 kv.1 then (d, st.2) else (d, <[kv.1 := meth]> st.2).

Definition prepare_type (resultclass : string)
    (st : gmap string (gmap string method) * gmap string attr)
    (type_ : string) : gmap string (gmap string method) * gmap string attr :=
  foldl (prepare_item resultclass) st (map_to_list (c_dict (class_of type_))).

Definition prepare_resultclass
    (st : gmap string (gmap string method) * gmap string attr)
    (resultclass : string) : gmap string (gmap string method) * gmap string attr :=
  foldl (prepare_type resultclass) (<[resultclass := ∅]> st.1, st.2)
        (reverse (mro resultclass)).

Definition prepare_loops (resultclasses : list string)
    (st : gmap string (gmap string method) * gmap string attr)
    : gmap string (gmap string method) * gmap string attr :=
  foldl prepare_resultclass st resultclasses.

Definition both_types_msg : string :=
  "Cannot call lazy() with both bytes and text return types.".

(** [__prepare_class__], as a function from the class as it is to the
    outcome and the class as it is left.  The [assert] statement is taken as
    executed: the interpreter does not run with assertions switched off. *)
Definition __prepare_class__ (pc : proxy_class) : outcome unit * proxy_class :=
  let resultclasses := pc_resultclasses pc in
  let st := prepare_loops resultclasses (∅, pc_attrs pc) in
  let delegate_bytes := bool_decide (bytes_cls ∈ resultclasses) in
  let delegate_text := bool_decide (text_type ∈ resultclasses) in
  let a := <["_delegate_text" := AFlag delegate_text]>
             (<["_delegate_bytes" := AFlag delegate_bytes]> st.2) in
  if delegate_bytes && delegate_text then
    (Raise (AssertionError both_types_msg),
     ProxyClass (pc_func pc) resultclasses (Some st.1) a)
  else
    let a' :=
      if delegate_text then
        if PY3 then <["__str__" := AOwn "_proxy____text_cast"]> a
        else <["__unicode__" := AOwn "_proxy____text_cast"]> a
      else if delegate_bytes then
        if PY3 then <["__bytes__" := AOwn "_proxy____bytes_cast"]> a
        else <["__str__" := AOwn "_proxy____bytes_cast"]> a
      else a in
    (Ok (), ProxyClass (pc_func pc) resultclasses (Some st.1) a').

(** ** Dispatch: the [__wrapper__] closure built by [__promise__] *)

(** The entry of the first class of [ts] that is a key of the table. *)
Fixpoint first_declared (d : gmap string (gmap string method)) (ts : list string)
    : option (gmap string method) :=
  match ts with
  | [] => None
  | t :: ts' =>
    match d !! t with
    | Some ops => Some ops
    | None => first_declared d ts'
    end
  end.

Definition unexpected_type_msg : string := "Lazy object returned unexpected type.".

(** The type-contract violation. *)
Definition type_contract_violation : exn := TypeError unexpected_type_msg.

(** The computation of the proxy, called on the captured arguments. *)
Definition force (self : nat) : M value :=
  o ← get_obj self;
  pc ← get_class (po_class o);
  call_func (pc_func pc) (po_args o) (po_kw o).

(** The [__wrapper__] closure for a given [funcname], called on [self] with
    further positional and keyword arguments. *)
Definition __wrapper__ (funcname : string) (self : nat) (args : list value) (kw : kwargs)
    : M value :=
  res ← force self;
  pc ← class_of_obj self;
  match pc_dispatch pc with
  | None => raise (TypeError "argument of type 'NoneType' is not iterable")
  | Some d =>
    match first_declared d (mro (type_of res)) with
    | Some ops =>
      match ops !! funcname with
      | Some meth => lift (meth res args kw)
      | None => raise (KeyError funcname)
      end
    | None => raise type_contract_violation
    end
  end.

(** ** The casts *)

Definition __text_cast (self : nat) : M value := force self.

Definition __bytes_cast (self : nat) : M value :=
  r ← force self; lift (py_bytes r).

(** Truth value of the class attribute [name] read through [self]. *)
Definition get_flag (name : string) (self : nat) : M bool :=
  pc ← class_of_obj self;
  match pc_attrs pc !! name with
  | Some (AFlag b) => ret b
  | Some _ => ret true
  | None => raise (AttributeError name)
  end.

(** [__cast] *)
Definition __cast (self : nat) : M value :=
  delegate_bytes ← get_flag "_delegate_bytes" self;
  if (delegate_bytes : bool) then __bytes_cast self
  else
    delegate_text ← get_flag "_delegate_text" self;
    if (delegate_text : bool) then __text_cast self else force self.

(** ** Methods defined on the proxy class itself *)

Definition cmp_name (op : cmpop) : string :=
  match op with Eq_ => "__eq__" | Ne_ => "__ne__" | Lt_ => "__lt__" end.

(** The method Python calls on the right operand when the left one
    declines. *)
Definition reflected (op : cmpop) : string :=
  match op with Eq_ => "__eq__" | Ne_ => "__ne__" | Lt_ => "__gt__" end.

Definition dict_set (d k : nat) (v : value) : M unit := λ s,
  match dicts s !! d with
  | Some m => (Ok (), State (classes s) (heap s) (<[d := <[k := v]> m]> (dicts s)) (trace s))
  | None => (Raise (SystemError "no such dict"), s)
  end.

Definition bad_call {A} : M A := raise (TypeError "wrong number of arguments").

Section Methods.
(** Attribute call on a promise, one interpreter frame deeper. *)
Variable invoke_rec : nat → string → list value → kwargs → M value.

(** The operators [==], [!=], [<] applied to two values.  With a promise
    on the right of a value that is not one, the class of the left operand
    is asked first, and when it declines Python calls the reflected method
    of the promise.  (A left operand that is an instance of [object] or
    [Promise] themselves, for which the reflected method comes first, is
    not distinguished.) *)
Definition compare (op : cmpop) (a b : value) : M value :=
  match a with
  | VPromise l => invoke_rec l (cmp_name op) [b] []
  | _ =>
    match b with
    | VPromise r =>
      match py_cmp_method op a r with
      | Some o => lift o
      | None => invoke_rec r (reflected op) [a] []
      end
    | _ => lift (py_cmp op a b)
    end
  end.

(** The operator [%] applied to two values. *)
Definition modulo (a b : value) : M value :=
  match a with
  | VPromise l => invoke_rec l "__mod__" [b] []
  | _ =>
    match b with
    | VPromise r => py_mod_promise a r
    | _ => lift (py_mod a b)
    end
  end.

(** [six.text_type(self)] and, in Python 2, [bytes(self)]: the built-in
    conversion calls the method [name] of the class of [self] and checks
    what it returned. *)
Definition convert (name : string) (self : nat) : M value :=
  r ← invoke_rec self name [] [];
  lift (py_converted name r).

(** [hash(a)] *)
Definition hash_of (a : value) : M value :=
  match a with
  | VPromise l => invoke_rec l "__hash__" [] []
  | _ => lift (py_hash a)
  end.

(** The body that [__ne__], [__eq__] and [__lt__] share: they differ in the
    operator only. *)
Definition proxy_cmp (op : cmpop) (self : nat) (other : value) : M value :=
  other' ← match other with
            | VPromise o => __cast o
            | _ => ret other
            end;
  r ← __cast self;
  compare op r other'.

Definition __ne__ (self : nat) (other : value) : M value := proxy_cmp Ne_ self other.
Definition __eq__ (self : nat) (other : value) : M value := proxy_cmp Eq_ self other.
Definition __lt__ (self : nat) (other : value) : M value := proxy_cmp Lt_ self other.

(** [__hash__] *)
Definition __hash__ (self : nat) : M value :=
  r ← __cast self; hash_of r.

(** [__deepcopy__] *)
Definition __deepcopy__ (self : nat) (memo : value) : M value :=
  match memo with
  | VDict d => dict_set d self (VPromise self);; ret (VPromise self)
  | _ => raise (TypeError "object does not support item assignment")
  end.

(** [__mod__] *)
Definition __mod__ (self : nat) (rhs : value) : M value :=
  delegate_bytes ← get_flag "_delegate_bytes" self;
  if (delegate_bytes : bool) && negb PY3 then
    b ← convert "__str__" self; modulo b rhs
  else
    delegate_text ← get_flag "_delegate_text" self;
    if (delegate_text : bool) then
      t ← convert (if PY3 then "__str__" else "__unicode__") self; modulo t rhs
    else
      c ← __cast self; modulo c rhs.

(** [self.__prepare_class__()]: the class method runs on the class of
    [self]. *)
Definition prepare (cid : nat) : M unit := λ s,
  match classes s !! cid with
  | Some pc =>
    let '(r, pc') := __prepare_class__ pc in
    (r, State (<[cid := pc']> (classes s)) (heap s) (dicts s) (trace s))
  | None => (Raise (SystemError "no such class"), s)
  end.

Definition prepare_again (self : nat) : M value :=
  o ← get_obj self; prepare (po_class o);; ret VNone.

(** What the class attribute [_proxy____dispatch] is when called. *)
Definition call_dispatch (self : nat) : M value :=
  pc ← class_of_obj self;
  match pc_dispatch pc with
  | None => raise (TypeError "'NoneType' object is not callable")
  | Some _ => raise (TypeError "'dict' object is not callable")
  end.

(** Call of the attribute [name] that the class has on its own: the methods
    of the class body, the class attributes of the body that are no
    functions, and what comes from outside the module. *)
Definition own_method (name : string) (self : nat) (args : list value) (kw : kwargs)
    : M value :=
  if decide (name = "__eq__") then
    match args, kw with [other], [] => __eq__ self other | _, _ => bad_call end
  else if decide (name = "__ne__") then
    match args, kw with [other], [] => __ne__ self other | _, _ => bad_call end
  else if decide (name = "__lt__") then
    match args, kw with [other], [] => __lt__ self other | _, _ => bad_call end
  else if decide (name = "__hash__") then
    match args, kw with [], [] => __hash__ self | _, _ => bad_call end
  else if decide (name = "__mod__") then
    match args, kw with [rhs], [] => __mod__ self rhs | _, _ => bad_call end
  else if decide (name = "__deepcopy__") then
    match args, kw with [memo], [] => __deepcopy__ self memo | _, _ => bad_call end
  else if decide (name = "_proxy____cast") then
    match args, kw with [], [] => __cast self | _, _ => bad_call end
  else if decide (name = "_proxy____text_cast") then
    match args, kw with [], [] => __text_cast self | _, _ => bad_call end
  else if decide (name = "_proxy____bytes_cast") then
    match args, kw with [], [] => __bytes_cast self | _, _ => bad_call end
  else if decide (name = "__prepare_class__") then
    match args, kw with [], [] => prepare_again self | _, _ => bad_call end
  else if decide (name = "_proxy____dispatch") then call_dispatch self
  else if decide (name = "__doc__" ∨ name = "__module__") then
    raise (TypeError "'str' object is not callable")
  else py_external name self args kw.

(** Call of the attribute [name] of [self], resolved on the class of [self]. *)
Definition invoke_body (self : nat) (name : string) (args : list value) (kw : kwargs)
    : M value :=
  pc ← class_of_obj self;
  match pc_attrs pc !! name with
  | None => raise (AttributeError name)
  | Some (AWrapper funcname) => __wrapper__ funcname self args kw
  | Some (AOwn own) => own_method own self args kw
  | Some (AFlag _) => raise (TypeError "'bool' object is not callable")
  end.

End Methods.

(** Attribute call with at most [depth] nested interpreter frames: beyond
    that Python raises its recursion error. *)
Fixpoint invoke (depth : nat) : nat → string → list value → kwargs → M value :=
  match depth with
  | 0 => λ _ _ _ _, raise RecursionError
  | S n => invoke_body (invoke n)
  end.

(** ** [lazy] and the factory it returns *)

(** [lazy] applied to [func] and [resultclasses]: a new [__proxy__] class; the factory
    [__wrapper__] that is returned is identified with the class it closes over. *)
Definition lazy (func : pyfunc) (resultclasses : list string) : M nat := λ s,
  (Ok (length (classes s)),
   State (classes s ++ [ProxyClass func resultclasses None initial_attrs])
         (heap s) (dicts s) (trace s)).

Definition alloc_obj (o : proxy_obj) : M nat := λ s,
  (Ok (length (heap s)), State (classes s) (heap s ++ [o]) (dicts s) (trace s)).

(** [__init__], once [__args] and [__kw] are stored. *)
Definition __init__ (cid : nat) : M unit :=
  pc ← get_class cid;
  match pc_dispatch pc with
  | None => prepare cid
  | Some _ => ret ()
  end.

(** A call of the factory [__wrapper__], that is [__proxy__(args, kw)]. *)
Definition factory_call (factory : nat) (args : list value) (kw : kwargs) : M value :=
  get_class factory;;
  self ← alloc_obj (ProxyObj factory args kw);
  __init__ factory;;
  ret (VPromise self).

(** ** [__init__] and [__promise__] called on a proxy that exists *)

(** [self.__init__(args, kw)] for a tuple [args] and a dictionary of
    keywords [kw]: the proxy is bound to the new arguments. *)
Definition set_obj (l : nat) (o : proxy_obj) : M unit := λ s,
  (Ok (), State (classes s) (<[l := o]> (heap s)) (dicts s) (trace s)).

Definition reinit (self : nat) (args : list value) (kw : kwargs) : M unit :=
  o ← get_obj self;
  set_obj self (ProxyObj (po_class o) args kw);;
  __init__ (po_class o).

(** [self.__promise__(klass, funcname, method)] for a class, a name and a
    function: the class method registers [method] in the table of the class
    of [self].  The [__wrapper__] closure it returns is not represented. *)
Definition set_class (cid : nat) (pc : proxy_class) : M unit := λ s,
  (Ok (), State (<[cid := pc]> (classes s)) (heap s) (dicts s) (trace s)).

Definition promise_call (self : nat) (klass funcname : string) (meth : method) : M unit :=
  o ← get_obj self;
  pc ← get_class (po_class o);
  match pc_dispatch pc with
  | None => raise (TypeError "argument of type 'NoneType' is not iterable")
  | Some d =>
    set_class (po_class o)
      (ProxyClass (pc_func pc) (pc_resultclasses pc)
                  (Some (__promise__ klass funcname meth d)) (pc_attrs pc))
  end.

(** ** [allow_lazy] *)

(** The [wrapper] that [allow_lazy] defines, called on [args] and [kwargs]. *)
Definition wrapper (func : pyfunc) (resultclasses : list string)
    (args : list value) (kwargs : kwargs) : M value :=
  if existsb is_promise (args ++ kwargs.*2) then
    factory ← lazy func resultclasses;
    factory_call factory args kwargs
  else call_func func args kwargs.

(** [allow_lazy] returns that [wrapper]. *)
Definition allow_lazy (func : pyfunc) (resultclasses : list string)
    : list value → kwargs → M value :=
  wrapper func resultclasses.

(** ** Everything a client can do *)

Definition new_dict : M nat := λ s,
  (Ok (length (dicts s)), State (classes s) (heap s) (dicts s ++ [∅]) (trace s)).

Inductive action : Type :=
| ALazy (func : pyfunc) (resultclasses : list string)
| ACall (factory : nat) (args : list value) (kw : kwargs)
| AInvoke (self : nat) (name : string) (args : list value) (kw : kwargs)
| ACompare (op : cmpop) (a b : value)
| AHash (a : value)
| AAllowLazy (func : pyfunc) (resultclasses : list string) (args : list value) (kw : kwargs)
| ANewDict
| AInit (self : nat) (args : list value) (kw : kwargs)
| APromise (self : nat) (klass funcname : string) (meth : method).

(** The state an action leaves behind. *)
Definition run (depth : nat) (a : action) (s : state) : state :=
  match a with
  | ALazy func rcs => (lazy func rcs s).2
  | ACall factory args kw => (factory_call factory args kw s).2
  | AInvoke self name args kw => (invoke depth self name args kw s).2
  | ACompare op a b => (compare (invoke depth) op a b s).2
  | AHash a => (hash_of (invoke depth) a s).2
  | AAllowLazy func rcs args kw => (allow_lazy func rcs args kw s).2
  | ANewDict => (new_dict s).2
  | AInit self args kw => (reinit self args kw s).2
  | APromise self klass funcname meth => (promise_call self klass funcname meth s).2
  end.

End Model.

(** ** What the prepared class looks like *)

Section Prepared.
Context `{Python} `{External}.

(** The class as [lazy] creates it. *)
Definition fresh_class (func : pyfunc) (resultclasses : list string) : proxy_class :=
  ProxyClass func resultclasses None initial_attrs.

(** The class as [__prepare_class__] leaves it. *)
Definition prepared_class (func : pyfunc) (resultclasses : list string) : proxy_class :=
  (__prepare_class__ (fresh_class func resultclasses)).2.

(** The dispatch table built for [resultclasses]. *)
Definition table (resultclasses : list string) : gmap string (gmap string method) :=
  (prepare_loops resultclasses (∅, initial_attrs)).1.

(** [self] is a proxy of a factory [lazy(func, *resultclasses)] capturing
    [args] and [kw]. *)
Definition is_proxy (s : state) (self : nat) (func : pyfunc)
    (resultclasses : list string) (args : list value) (kw : kwargs) : Prop :=
  ∃ cid, heap s !! self = Some (ProxyObj cid args kw) ∧
         classes s !! cid = Some (prepared_class func resultclasses).

(** [name] is an operation that the class of the factory dispatches through
    the table. *)
Definition dispatched (func : pyfunc) (resultclasses : list string) (name : string) : Prop :=
  pc_attrs (prepared_class func resultclasses) !! name = Some (AWrapper name).

(** Ordinary attribute resolution along an ancestor chain: the definition of
    the first class that has one. *)
Fixpoint mro_lookup (ts : list string) (op : string) : option method :=
  match ts with
  | [] => None
  | t :: ts' =>
    match c_dict (class_of t) !! op with
    | Some m => Some m
    | None => mro_lookup ts' op
    end
  end.

(** The operations of [klass] with inheritance resolved. *)
Definition resolved (klass : string) : gmap string method :=
  foldl (λ ops t, c_dict (class_of t) ∪ ops) ∅ (reverse (mro klass)).

(** The state with one more recorded invocation. *)
Definition record_call (f : pyfunc) (args : list value) (kw : kwargs) (s : state) : state :=
  State (classes s) (heap s) (dicts s) (Invoke (fn_id f) args kw :: trace s).

(** What [__cast] makes of the outcome of the computation. *)
Definition cast_outcome (resultclasses : list string) (r : outcome value) : outcome value :=
  if bool_decide (bytes_cls ∈ resultclasses) then
    match r with Ok v => py_bytes v | Raise e => Raise e end
  else r.

(** What [__wrapper__] makes of the outcome of the computation. *)
Definition dispatch_outcome (resultclasses : list string) (funcname : string)
    (r : outcome value) (args : list value) (kw : kwargs) : outcome value :=
  match r with
  | Raise e => Raise e
  | Ok res =>
    match first_declared (table resultclasses) (mro (type_of res)) with
    | Some ops =>
      match ops !! funcname with
      | Some meth => meth res args kw
      | None => Raise (KeyError funcname)
      end
    | None => Raise type_contract_violation
    end
  end.

(** Every class of the state is as [lazy] or [__prepare_class__] left it, and
    every proxy instance belongs to a prepared class. *)
Definition class_ok (pc : proxy_class) : Prop :=
  pc = fresh_class (pc_func pc) (pc_resultclasses pc) ∨
  pc = prepared_class (pc_func pc) (pc_resultclasses pc).

Definition state_ok (s : state) : Prop :=
  (∀ cid pc, classes s !! cid = Some pc → class_ok pc) ∧
  (∀ l o, heap s !! l = Some o →
     ∃ pc, classes s !! po_class o = Some pc ∧
           pc = prepared_class (pc_func pc) (pc_resultclasses pc)).

(** Both the byte-sequence and the text class are among [resultclasses]. *)
Definition conflicting (resultclasses : list string) : bool :=
  bool_decide (bytes_cls ∈ resultclasses) && bool_decide (text_type ∈ resultclasses).

(** A computation that leaves the classes and the instances as they are. *)
Definition keeps_store {A} (m : M A) : Prop :=
  ∀ s, classes (m s).2 = classes s ∧ heap (m s).2 = heap s.

(** From [s] to [s'] no prepared class and no instance has changed. *)
Definition extends (s s' : state) : Prop :=
  (∀ cid pc, classes s !! cid = Some pc → is_Some (pc_dispatch pc) →
     classes s' !! cid = Some pc) ∧
  (∀ l o, heap s !! l = Some o → heap s' !! l = Some o).

(** Equality, inequality, ordering and hashing. *)
Definition comparison_names : list string := ["__eq__"; "__ne__"; "__lt__"; "__hash__"].

(** No wrapped computation and no built-in operation raises the
    type-contract violation on its own. *)
Definition quiet (s : state) : Prop :=
  (∀ cid pc, classes s !! cid = Some pc →
     ∀ a k t, fn_body (pc_func pc) a k t ≠ Raise type_contract_violation) ∧
  (∀ op a b, py_cmp op a b ≠ Raise type_contract_violation) ∧
  (∀ a, py_hash a ≠ Raise type_contract_violation) ∧
  (∀ a, py_bytes a ≠ Raise type_contract_violation) ∧
  (∀ op a r, py_cmp_method op a r ≠ Some (Raise type_contract_violation)) ∧
  (∀ name self a k s', (py_external name self a k s').1 ≠ Raise type_contract_violation).

(** What runs outside the module leaves the classes and the instances as
    they are. *)
Definition external_keeps_store : Prop :=
  (∀ name self a k, keeps_store (py_external name self a k)) ∧
  (∀ a r, keeps_store (py_mod_promise a r)).

(** A computation that, in a store that satisfies the invariant, leaves the
    classes and the instances as they are. *)
Definition keeps_ok {A} (m : M A) : Prop :=
  ∀ s, state_ok s → classes (m s).2 = classes s ∧ heap (m s).2 = heap s.

(** The action is no direct call of [__promise__]. *)
Definition registers_nothing (act : action) : Prop :=
  match act with APromise _ _ _ _ => False | _ => True end.

(** The left operand of [%] that [__mod__] computes from the outcome of the
    computation. *)
Definition mod_operand (resultclasses : list string) (r : outcome value) : outcome value :=
  if bool_decide (bytes_cls ∈ resultclasses) && negb PY3 then
    match r with
    | Ok v => match py_bytes v with Ok b => py_converted "__str__" b | Raise e => Raise e end
    | Raise e => Raise e
    end
  else if bool_decide (text_type ∈ resultclasses) then
    match r with
    | Ok v => py_converted (if PY3 then "__str__" else "__unicode__") v
    | Raise e => Raise e
    end
  else cast_outcome resultclasses r.

End Prepared.

(** ** A small concrete interpreter, for examples *)

Module Example.

Definition obj_repr : method := λ _ _ _, Ok (VText "<object>").
Definition int_repr : method := λ _ _ _, Ok (VText "<int>").
Definition int_add : method := λ self args _,
  match self, args with
  | VInt a, [VInt b] => Ok (VInt (a + b))
  | _, _ => Raise (TypeError "unsupported operand type(s) for +")
  end.
Definition int_eq : method := λ self args _,
  match self, args with
  | VInt a, [VInt b] => Ok (VBool (a =? b)%Z)
  | _, _ => Ok (VInst "NotImplementedType" 0)
  end.
Definition str_upper : method := λ self _ _, Ok (VText "UPPER").
Definition bytes_decode : method := λ self _ _, Ok (VText "decoded").
Definition base_describe : method := λ _ _ _, Ok (VText "base").
Definition derived_describe : method := λ _ _ _, Ok (VText "derived").

Definition example_class (c : string) : pyclass :=
  if String.eqb c "object" then
    PyClass [] (list_to_map [("__repr__", obj_repr)])
  else if String.eqb c "int" then
    PyClass ["object"]
      (list_to_map [("__add__", int_add); ("__repr__", int_repr); ("__eq__", int_eq)])
  else if String.eqb c "str" then
    PyClass ["object"] (list_to_map [("upper", str_upper)])
  else if String.eqb c "bytes" then
    PyClass ["object"] (list_to_map [("decode", bytes_decode)])
  else if String.eqb c "Base" then
    PyClass ["object"] (list_to_map [("describe", base_describe)])
  else if String.eqb c "Derived" then
    PyClass ["Base"; "object"] (list_to_map [("describe", derived_describe)])
  else PyClass ["object"] ∅.

Definition object_attrs : list string :=
  [ "__class__"; "__delattr__"; "__dict__"; "__dir__"; "__format__";
    "__getattribute__"; "__new__"; "__reduce__"; "__reduce_ex__"; "__repr__";
    "__setattr__"; "__sizeof__"; "__str__"; "__subclasshook__"; "__weakref__" ].

Definition value_eqb (a b : value) : bool :=
  match a, b with
  | VNone, VNone => true
  | VBool x, VBool y => Bool.eqb x y
  | VInt x, VInt y => (x =? y)%Z
  | VBool x, VInt y | VInt y, VBool x => ((if x then 1 else 0) =? y)%Z
  | VText x, VText y => String.eqb x y
  | VBytes x, VBytes y => bool_decide (Byte.to_N <$> x = Byte.to_N <$> y)
  | VInst c x, VInst d y => String.eqb c d && (x =? y)%Z
  | VDict x, VDict y => Nat.eqb x y
  | _, _ => false
  end.

Definition example_cmp (op : cmpop) (a b : value) : outcome value :=
  match op with
  | Eq_ => Ok (VBool (value_eqb a b))
  | Ne_ => Ok (VBool (negb (value_eqb a b)))
  | Lt_ =>
    match a, b with
    | VInt x, VInt y => Ok (VBool (x <? y)%Z)
    | _, _ => Raise (TypeError "'<' not supported between these instances")
    end
  end.

Definition example_hash (a : value) : outcome value :=
  match a with
  | VInt z => Ok (VInt (if (z =? -1)%Z then -2 else z))
  | VNone | VBool _ | VText _ | VBytes _ | VInst _ _ => Ok (VInt 0)
  | VDict _ => Raise (TypeError "unhashable type: 'dict'")
  | VPromise _ => Ok (VInt 0)
  end.

(** [bytes(a)] of Python 3: a byte string as it is, [n] zero bytes for an
    integer [n]. *)
Definition example_bytes (a : value) : outcome value :=
  match a with
  | VBytes bs => Ok (VBytes bs)
  | VInt z =>
    if (z <? 0)%Z then Raise (OtherError "ValueError" "negative count")
    else Ok (VBytes (replicate (Z.to_nat z) Byte.x00))
  | VText _ => Raise (TypeError "string argument without an encoding")
  | _ => Raise (TypeError "cannot convert object to bytes")
  end.

(** [a % b] on integers; formatting is not part of the example. *)
Definition example_mod (a b : value) : outcome value :=
  match a, b with
  | VInt x, VInt y =>
    if (y =? 0)%Z then Raise (OtherError "ZeroDivisionError" "integer division or modulo by zero")
    else Ok (VInt (x mod y))
  | VText _, _ => Raise (OtherError "NotImplementedError" "formatting is not part of the example")
  | _, _ => Raise (TypeError "unsupported operand type(s) for %")
  end.

(** [str(obj)] of Python 3 insists on a text. *)
Definition example_converted (name : string) (v : value) : outcome value :=
  match v with
  | VText _ => Ok v
  | _ => Raise (TypeError (name ++ " returned non-string"))
  end.

#[export] Instance py3 : Python := {|
  PY3 := true;
  class_of := example_class;
  inherited_attrs := object_attrs;
  py_cmp := example_cmp;
  py_hash := example_hash;
  py_bytes := example_bytes;
  py_mod := example_mod;
  py_converted := example_converted;
  py_cmp_method := λ _ _ _, None;
|}.

(** What the proxy class has from [object] is the definition of [object],
    applied to the proxy itself; nothing else from outside the module is
    part of the example. *)
Definition example_external (name : string) (self : nat) (args : list value) (kw : kwargs)
    : M value := λ s,
  match c_dict (example_class "object") !! name with
  | Some m => (m (VPromise self) args kw, s)
  | None => (Raise (OtherError "NotImplementedError" name), s)
  end.

#[export] Instance outside : External := {|
  py_external := example_external;
  py_mod_promise := λ _ _ s,
    (Raise (OtherError "NotImplementedError" "formatting is not part of the example"), s);
|}.

(** A computation that always returns [v]. *)
Definition const_fn (id : nat) (v : value) : pyfunc := PyFunc id (λ _ _ _, Ok v).

(** A computation that returns how often any computation ran before. *)
Definition counter_fn (id : nat) : pyfunc :=
  PyFunc id (λ _ _ t, Ok (VInt (Z.of_nat (length t)))).

(** The product of two integers, as a computation. *)
Definition f_mul : pyfunc :=
  PyFunc 9 (λ args _ _,
    match args with
    | [VInt m; VInt n] => Ok (VInt (m * n))
    | _ => Raise (TypeError "unsupported operand type(s) for *")
    end).

(** One factory for integers and one proxy of it, at location 0. *)
Definition f_three : pyfunc := const_fn 7 (VInt 3).
Definition s_int : state :=
  (factory_call 0 [] [] (lazy f_three ["int"] init_state).2).2.

(** The same with an empty dictionary, at location 0, to serve as memo. *)
Definition s_int_memo : state := (new_dict s_int).2.

(** A factory declaring [Derived] whose computation yields an instance of it. *)
Definition f_derived : pyfunc := const_fn 1 (VInst "Derived" 0).
Definition s_derived : state :=
  (factory_call 0 [] [] (lazy f_derived ["Derived"] init_state).2).2.

(** A factory declaring integers whose computation yields a text. *)
Definition f_text : pyfunc := const_fn 2 (VText "x").
Definition s_text : state :=
  (factory_call 0 [] [] (lazy f_text ["int"] init_state).2).2.

(** A factory declaring both the byte-sequence and the text class. *)
Definition s_conflict : state := (lazy f_three ["bytes"; "str"] init_state).2.

(** Two integer factories with one proxy each, at 0 and 1. *)
Definition f_three' : pyfunc := const_fn 8 (VInt 3).
Definition s_two_ints : state :=
  (factory_call 1 [] [] (lazy f_three' ["int"]
     (factory_call 0 [] [] (lazy f_three ["int"] init_state).2).2).2).2.

(** The same, the first factory declaring byte sequences besides integers. *)
Definition s_bytes_and_int : state :=
  (factory_call 1 [] [] (lazy f_three' ["int"]
     (factory_call 0 [] [] (lazy f_three ["bytes"; "int"] init_state).2).2).2).2.

End Example.

(** Further concrete runs of the proxy machinery. *)
Module MoreExamples.
Import Example.

(** A factory declaring [Base] only, whose computation yields a [Derived]. *)
Definition s_base_only : state :=
  (factory_call 0 [] [] (lazy f_derived ["Base"] init_state).2).2.

(** A factory declaring texts, whose computation yields a text. *)
Definition s_str : state :=
  (factory_call 0 [] [] (lazy f_text ["str"] init_state).2).2.

(** A computation that fails. *)
Definition f_fails : pyfunc :=
  PyFunc 4 (λ _ _ _, Raise (OtherError "ValueError" "no value")).
Definition s_fails : state :=
  (factory_call 0 [] [] (lazy f_fails ["int"] init_state).2).2.

End MoreExamples.

(** * The other helpers of the module *)

(** ** [curry] *)

(** [curry(_curried_func, *args, **kwargs)]: the function [_curried] that is
    returned, as a function of [moreargs] and [morekwargs].  Keyword
    arguments are dictionaries; [dict(kwargs, **morekwargs)] is [kwargs]
    updated with [morekwargs]. *)
Definition curry {A V R : Type} (_curried_func : list A → gmap string V → R)
    (args : list A) (kwargs : gmap string V) : list A → gmap string V → R :=
  λ moreargs morekwargs, _curried_func (args ++ moreargs)%list (morekwargs ∪ kwargs).

(** ** [partition] *)

(** What a tuple does with an index that is neither a [bool] nor an [int]
    to obtain an integer: the result of the index conversion of the value,
    the exception that conversion raises, or the [TypeError] of the tuple
    for a value that has no such conversion. *)
Class Indexing : Type := {
  py_index : value → outcome Z;
}.

Section Partition.
Context `{Indexing}.

(** The integer a tuple takes for the index [i]; [bool] is a subclass of
    [int]. *)
Definition index_of (i : value) : outcome Z :=
  match i with
  | VBool b => Ok (if b then 1 else 0)%Z
  | VInt z => Ok z
  | _ => py_index i
  end.

(** Which list of the pair [results] the index [i] selects: the first for
    [0] and [-2], the second for [1] and [-1]. *)
Definition tuple2_index (i : value) : outcome bool :=
  match index_of i with
  | Raise e => Raise e
  | Ok z =>
    if decide (z = 0 ∨ z = -2)%Z then Ok false
    else if decide (z = 1 ∨ z = -1)%Z then Ok true
    else Raise (OtherError "IndexError" "tuple index out of range")
  end.

(** The loop of [partition], from the pair [results] built so far. *)
Fixpoint partition_loop {A : Type} (predicate : A → outcome value)
    (results : list A * list A) (values : list A) : outcome (list A * list A) :=
  match values with
  | [] => Ok results
  | item :: rest =>
    match predicate item with
    | Raise e => Raise e
    | Ok i =>
      match tuple2_index i with
      | Raise e => Raise e
      | Ok true => partition_loop predicate (results.1, (results.2 ++ [item])%list) rest
      | Ok false => partition_loop predicate ((results.1 ++ [item])%list, results.2) rest
      end
    end
  end.

Definition partition {A : Type} (predicate : A → outcome value) (values : list A)
    : outcome (list A * list A) :=
  partition_loop predicate ([], []) values.

(** The list an item goes to, or the exception it ends the loop with. *)
Definition side_of {A : Type} (predicate : A → outcome value) (item : A) : outcome bool :=
  match predicate item with
  | Ok i => tuple2_index i
  | Raise e => Raise e
  end.

(** The item goes to the list [b]. *)
Definition goes_to {A : Type} (predicate : A → outcome value) (b : bool) (item : A) : bool :=
  match side_of predicate item with
  | Ok b' => Bool.eqb b b'
  | Raise _ => false
  end.

End Partition.

(** ** [cached_property] *)

Module CachedProperty.

(** A function as [cached_property] sees it: its [__name__], and what
    calling it on an instance does, given the [__dict__] of the instance
    and the calls made so far: what it returns or raises, and the
    [__dict__] of the instance as it leaves it. *)
Record function : Type := Function {
  __name__ : string;
  call : nat → gmap string value → list (string * nat)
         → outcome value * gmap string value;
}.

Record cached_property : Type := Descr { func : function }.

(** [cached_property(func)] *)
Definition __init__ (func : function) : cached_property := Descr func.

(** The instances, each with its [__dict__], and the calls of decorated
    functions so far, as pairs of function name and instance. *)
Record store : Type := Store {
  dict_of : list (gmap string value);
  calls : list (string * nat);
}.

(** What an attribute access gives: the descriptor itself or a value. *)
Inductive got : Type :=
| Descriptor (d : cached_property)
| Value (v : value).

(** [__get__(self, instance, type=None)]; [instance] is [None] when the
    attribute is read on the class. *)
Definition __get__ (self : cached_property) (instance : option nat) (s : store)
    : outcome got * store :=
  match instance with
  | None => (Ok (Descriptor self), s)
  | Some i =>
    match dict_of s !! i with
    | None => (Raise (SystemError "no such object"), s)
    | Some d =>
      match call (func self) i d (calls s) with
      | (Ok res, d') =>
        (Ok (Value res),
         Store (<[i := <[__name__ (func self) := res]> d']> (dict_of s))
               ((__name__ (func self), i) :: calls s))
      | (Raise e, d') =>
        (Raise e, Store (<[i := d']> (dict_of s)) ((__name__ (func self), i) :: calls s))
      end
    end
  end.

(** The attribute [name] read on the instance [i] of a class whose
    [__dict__] holds the cached properties [cls]: the [__dict__] of the
    instance is looked at first, a cached property being a descriptor that
    has [__get__] only. *)
Definition getattr (cls : gmap string cached_property) (i : nat) (name : string)
    (s : store) : outcome got * store :=
  match dict_of s !! i with
  | None => (Raise (SystemError "no such object"), s)
  | Some d =>
    match d !! name with
    | Some v => (Ok (Value v), s)
    | None =>
      match cls !! name with
      | Some descr => __get__ descr (Some i) s
      | None => (Raise (AttributeError name), s)
      end
    end
  end.

(** The attribute [name] read on the class itself. *)
Definition getattr_class (cls : gmap string cached_property) (name : string)
    (s : store) : outcome got * store :=
  match cls !! name with
  | Some descr => __get__ descr None s
  | None => (Raise (AttributeError name), s)
  end.

(** A function named [cached_property], as in the demonstration class, that
    returns the number of calls made before. *)
Definition counting : function :=
  Function "cached_property" (λ _ d made, (Ok (VInt (Z.of_nat (length made))), d)).

(** The same function bound to two class attributes: under its own name and
    under another one. *)
Definition demo_class : gmap string cached_property :=
  <["cached_property" := __init__ counting]> (<["alias" := __init__ counting]> ∅).

(** A function that fails, bound under its own name. *)
Definition broken : function :=
  Function "broken" (λ _ d _, (Raise (OtherError "ValueError" "no value"), d)).
Definition broken_class : gmap string cached_property :=
  <["broken" := __init__ broken]> ∅.

(** One instance with an empty [__dict__]. *)
Definition one_instance : store := Store [∅] [].

End CachedProperty.

(** ** [new_method_proxy], [LazyObject] and [SimpleLazyObject] *)

(** A lazy object is a plain [LazyObject] or a [SimpleLazyObject] with its
    [_setupfunc]; [_wrapped] is [None] while it holds the marker [empty].
    A setup function is taken not to return that marker. *)
Inductive lazy_kind : Type :=
| Plain
| Simple (_setupfunc : pyfunc).

Record lazy_object : Type := LazyObj {
  _wrapped : option value;
  kind : lazy_kind;
}.

(** What [__deepcopy__] returns: a lazy object or a copy of a wrapped value. *)
Inductive copied : Type :=
| CopiedLazy (l : nat)
| CopiedValue (v : value).

Record lazy_state : Type := LazyState {
  objects : list lazy_object;
  memos : list (gmap nat copied);
  setups : list event;
}.

Definition L (A : Type) : Type := lazy_state → outcome A * lazy_state.

#[global] Instance L_ret : MRet L := λ A a s, (Ok a, s).
#[global] Instance L_bind : MBind L := λ A B k m s,
  match m s with
  | (Ok a, s') => k a s'
  | (Raise e, s') => (Raise e, s')
  end.

(** The built-in operations on wrapped objects that the methods hand over
    to.  Their effect on the wrapped object itself is outside the model. *)
Class Wrapped : Type := {
  (** [setattr(obj, name, value)]; the value [None] is the marker [empty] *)
  py_setattr : value → string → option value → outcome unit;
  (** [delattr(obj, name)] *)
  py_delattr : value → string → outcome unit;
  (** [copy.deepcopy(obj, memo)], with the memo as it leaves it *)
  copy_deepcopy : value → gmap nat copied → outcome value * gmap nat copied;
}.

(** The state after the setup function [f] of [self] returned [w], and the
    state after a call of [f] that changed no object. *)
Definition set_up (self : nat) (f : pyfunc) (w : value) (s : lazy_state) : lazy_state :=
  LazyState (<[self := LazyObj (Some w) (Simple f)]> (objects s)) (memos s)
            (Invoke (fn_id f) [] [] :: setups s).
Definition called (f : pyfunc) (s : lazy_state) : lazy_state :=
  LazyState (objects s) (memos s) (Invoke (fn_id f) [] [] :: setups s).

Section LazyObjects.
Context `{Wrapped}.

Definition l_raise {A} (e : exn) : L A := λ s, (Raise e, s).
Definition l_ret {A} (a : A) : L A := mret a.
Definition l_lift {A} (o : outcome A) : L A := λ s, (o, s).

Definition get_lazy (self : nat) : L lazy_object := λ s,
  match objects s !! self with
  | Some o => (Ok o, s)
  | None => (Raise (SystemError "no such object"), s)
  end.

(** [self.__dict__["_wrapped"] = value] *)
Definition set_wrapped (self : nat) (value : option value) : L unit := λ s,
  match objects s !! self with
  | Some o =>
    (Ok (), LazyState (<[self := LazyObj value (kind o)]> (objects s)) (memos s) (setups s))
  | None => (Raise (SystemError "no such object"), s)
  end.

Definition alloc_lazy (o : lazy_object) : L nat := λ s,
  (Ok (length (objects s)), LazyState (objects s ++ [o])%list (memos s) (setups s)).

(** [self._setupfunc()]: the call is recorded. *)
Definition call_setupfunc (f : pyfunc) : L value := λ s,
  (fn_body f [] [] (setups s),
   LazyState (objects s) (memos s) (Invoke (fn_id f) [] [] :: setups s)).

Definition not_implemented : exn :=
  OtherError "NotImplementedError"
             "subclasses of LazyObject must provide a _setup() method".

(** [LazyObject._setup] *)
Definition LazyObject_setup (self : nat) : L unit := l_raise not_implemented.

(** [SimpleLazyObject._setup]; the assignment to [_wrapped] takes the first
    branch of [__setattr__]. *)
Definition SimpleLazyObject_setup (_setupfunc : pyfunc) (self : nat) : L unit :=
  v ← call_setupfunc _setupfunc; set_wrapped self (Some v).

(** [self._setup()], resolved on the class of [self]. *)
Definition _setup (self : nat) : L unit :=
  o ← get_lazy self;
  match kind o with
  | Plain => LazyObject_setup self
  | Simple f => SimpleLazyObject_setup f self
  end.

(** [if self._wrapped is empty: self._setup()], then [self._wrapped]. *)
Definition wrapped_after_setup (self : nat) : L value :=
  o ← get_lazy self;
  match _wrapped o with None => _setup self | Some _ => l_ret () end;;
  o ← get_lazy self;
  match _wrapped o with
  | Some w => l_ret w
  | None => l_raise (SystemError "still empty")
  end.

(** [new_method_proxy(func)]: the function [inner], called on [self] and
    [args].  [func] is taken as a function of the wrapped value and the
    arguments. *)
Definition new_method_proxy (func : value → list value → outcome value)
    (self : nat) (args : list value) : L value :=
  w ← wrapped_after_setup self;
  l_lift (func w args).

(** [LazyObject.__init__] *)
Definition LazyObject__init__ : L nat := alloc_lazy (LazyObj None Plain).

(** [LazyObject.__setattr__] *)
Definition LazyObject__setattr__ (self : nat) (name : string) (value : option value)
    : L unit :=
  if decide (name = "_wrapped") then set_wrapped self value
  else
    w ← wrapped_after_setup self;
    l_lift (py_setattr w name value).

(** [LazyObject.__delattr__] *)
Definition LazyObject__delattr__ (self : nat) (name : string) : L unit :=
  if decide (name = "_wrapped") then l_raise (TypeError "can't delete _wrapped.")
  else
    w ← wrapped_after_setup self;
    l_lift (py_delattr w name).

(** [SimpleLazyObject.__init__] *)
Definition SimpleLazyObject__init__ (func : pyfunc) : L nat :=
  alloc_lazy (LazyObj None (Simple func)).

Definition memo_set (memo self : nat) (c : copied) : L unit := λ s,
  match memos s !! memo with
  | Some m => (Ok (), LazyState (objects s) (<[memo := <[self := c]> m]> (memos s)) (setups s))
  | None => (Raise (SystemError "no such dict"), s)
  end.

(** [copy.deepcopy(self._wrapped, memo)] *)
Definition deepcopy_wrapped (w : value) (memo : nat) : L copied := λ s,
  match memos s !! memo with
  | Some m =>
    let '(r, m') := copy_deepcopy w m in
    (match r with Ok v => Ok (CopiedValue v) | Raise e => Raise e end,
     LazyState (objects s) (<[memo := m']> (memos s)) (setups s))
  | None => (Raise (SystemError "no such dict"), s)
  end.

(** [SimpleLazyObject.__deepcopy__]; [memo] is a dictionary of the state,
    and [id(self)] is the location of [self]. *)
Definition SimpleLazyObject__deepcopy__ (self : nat) (memo : nat) : L copied :=
  o ← get_lazy self;
  match _wrapped o with
  | None =>
    match kind o with
    | Simple f =>
      result ← SimpleLazyObject__init__ f;
      memo_set memo self (CopiedLazy result);;
      l_ret (CopiedLazy result)
    | Plain =>
      (* [self._setupfunc] is not found and goes through [__getattr__] *)
      LazyObject_setup self;;
      l_raise (AttributeError "_setupfunc")
    end
  | Some w =>
    deepcopy_wrapped w memo
  end.

(** A sequence of proxied calls on [self], one after the other: the state
    they leave. *)
Definition proxied_calls
    (calls : list ((value → list value → outcome value) * list value))
    (self : nat) (s : lazy_state) : lazy_state :=
  foldl (λ s c, (new_method_proxy c.1 self c.2 s).2) s calls.

End LazyObjects.

(** ** [lazy_property] *)

Section LazyProperty.
Context `{Python}.

(** A function given to [property] or [lazy_property]: its [__name__],
    [__module__] and [__doc__], and what calling it does. *)
Record named_function : Type := NamedFunction {
  nf_name : string;
  nf_module : string;
  nf_doc : option string;
  nf_call : method;
}.

(** What a property holds as getter, setter or deleter: a function object
    with the [__name__], [__module__] and [__doc__] it shows, the function
    it wraps if it has the attribute [__wrapped__], and what the property
    gets when it calls it. *)
Record accessor (A : Type) : Type := Accessor {
  ac_name : string;
  ac_module : string;
  ac_doc : option string;
  ac_wrapped : option named_function;
  ac_call : A;
}.
#[global] Arguments Accessor {A} _ _ _ _ _.
#[global] Arguments ac_name {A} _.
#[global] Arguments ac_module {A} _.
#[global] Arguments ac_doc {A} _.
#[global] Arguments ac_wrapped {A} _.
#[global] Arguments ac_call {A} _.

(** A [property] object: its three functions, each possibly [None], and
    its [__doc__]. *)
Record property : Type := Property {
  fget : option (accessor (value → outcome value));
  fset : option (accessor (value → value → outcome value));
  fdel : option (accessor (value → outcome value));
  p_doc : option string;
}.

(** The built-in [property(fget, fset, fdel, doc)] on function objects:
    without [doc] the property takes the docstring of its getter. *)
Definition make_property
    (g : option (accessor (value → outcome value)))
    (s : option (accessor (value → value → outcome value)))
    (d : option (accessor (value → outcome value)))
    (doc : option string) : property :=
  Property g s d (match doc with Some text => Some text | None => g ≫= ac_doc end).

(** A function as it is. *)
Definition as_function {A} (f : named_function) (call : A) : accessor A :=
  Accessor (nf_name f) (nf_module f) (nf_doc f) None call.

(** The built-in [property] on the functions themselves. *)
Definition builtin_property (g s d : option named_function) (doc : option string)
    : property :=
  make_property ((λ f, as_function f (λ instance, nf_call f instance [] [])) <$> g)
                ((λ f, as_function f (λ instance value, nf_call f instance [value] [])) <$> s)
                ((λ f, as_function f (λ instance, nf_call f instance [] [])) <$> d)
                doc.

(** [getattr(instance, name)] called on [args]: the method is looked up along the
    ancestor chain of the class of the instance, attributes of instances
    themselves not being modelled. *)
Definition call_by_name (instance : value) (name : string) (args : list value)
    : outcome value :=
  match mro_lookup (mro (type_of instance)) name with
  | Some m => m instance args []
  | None => Raise (AttributeError name)
  end.

(** What [functools.wraps(f)] makes of a new function: it shows the
    [__name__], [__module__] and [__doc__] of [f], and in Python 3 it has
    [f] as [__wrapped__]. *)
Definition wraps {A} (f : named_function) (call : A) : accessor A :=
  Accessor (nf_name f) (nf_module f) (nf_doc f) (if PY3 then Some f else None) call.

(** [lazy_property.__new__]: each function given is replaced by a wrapper
    that looks its name up on the instance, and the built-in [property] is
    made of the wrappers and [doc]. *)
Definition lazy_property (g s d : option named_function) (doc : option string)
    : property :=
  make_property
    ((λ f, wraps f (λ instance, call_by_name instance (nf_name f) [])) <$> g)
    ((λ f, wraps f (λ instance value, call_by_name instance (nf_name f) [value])) <$> s)
    ((λ f, wraps f (λ instance, call_by_name instance (nf_name f) [])) <$> d)
    doc.

(** Reading, writing and deleting an attribute that is a property. *)
Definition property_get (p : property) (instance : value) : outcome value :=
  match fget p with
  | Some g => ac_call g instance
  | None => Raise (AttributeError "unreadable attribute")
  end.

Definition property_set (p : property) (instance v : value) : outcome value :=
  match fset p with
  | Some f => ac_call f instance v
  | None => Raise (AttributeError "can't set attribute")
  end.

Definition property_delete (p : property) (instance : value) : outcome value :=
  match fdel p with
  | Some f => ac_call f instance
  | None => Raise (AttributeError "can't delete attribute")
  end.

End LazyProperty.

(** ** Examples for the helpers *)

Module HelperExamples.
Import Example MoreExamples.

(** A tuple indexed by a value that has no index conversion. *)
#[export] Instance plain_index : Indexing := {|
  py_index i :=
    Raise (TypeError ("tuple indices must be integers or slices, not " ++ type_of i));
|}.

(** The predicate [lambda x: x > 3] on integers, and a predicate that
    returns its argument. *)
Definition greater_than_3 (x : Z) : outcome value := Ok (VBool (3 <? x)%Z).
Definition identity (x : Z) : outcome value := Ok (VInt x).

(** Wrapped objects that accept every attribute, have none to delete and
    are their own deep copies. *)
#[export] Instance plain_wrapped : Wrapped := {|
  py_setattr _ _ _ := Ok ();
  py_delattr _ name := Raise (AttributeError name);
  copy_deepcopy w m := (Ok w, m);
|}.

(** No lazy object yet, and one empty dictionary to serve as memo. *)
Definition no_objects : lazy_state := LazyState [] [∅] [].

(** A [SimpleLazyObject] around a function that returns 3, one around a
    function that fails, and a plain [LazyObject], each at location 0. *)
Definition unevaluated : lazy_state := (SimpleLazyObject__init__ f_three no_objects).2.
Definition unevaluated_failing : lazy_state :=
  (SimpleLazyObject__init__ f_fails no_objects).2.
Definition unevaluated_plain : lazy_state := (LazyObject__init__ no_objects).2.

(** [hash], as a function to proxy. *)
Definition hash_func (w : value) (args : list value) : outcome value := py_hash w.

(** The method [describe] of the class [Base], as the function given to
    [property], and another function of the same name. *)
Definition describe : named_function :=
  NamedFunction "describe" "functional_utils" (Some "What it is.") base_describe.
Definition describe' : named_function :=
  NamedFunction "describe" "functional_utils" None derived_describe.

(** A function under a name that no class defines. *)
Definition unbound : named_function :=
  NamedFunction "compute" "functional_utils" None base_describe.

End HelperExamples.

(** * Properties *)

(** Membership in a list that is written out. *)
Ltac in_list := repeat first [apply list_elem_of_here | apply list_elem_of_further].

Section Facts.
Context `{Python} `{External}.

Implicit Types (d : gmap string (gmap string method)).
Implicit Types (ops : gmap string method) (st : gmap string (gmap string method) * gmap string attr).

(** ** The dispatch table *)

Lemma promise_register_present k v rc d ops :
  d !! rc = Some ops → __promise__ rc k v d = <[rc := <[k := v]> ops]> d.
Proof.
  intros Hd. unfold __promise__.
  rewrite bool_decide_true by (rewrite Hd; eauto). by rewrite Hd.
Qed.

Lemma prepare_items_fst rc (l : list (string * method)) st :
  (foldl (prepare_item rc) st l).1
  = foldl (λ d kv, __promise__ rc kv.1 kv.2 d) st.1 l.
Proof.
  revert st. induction l as [|kv l IH]; intros st; simpl; [done|].
  rewrite IH. f_equal. unfold prepare_item. by destruct (hasattr _ _).
Qed.

Lemma register_items rc (l : list (string * method)) d ops :
  NoDup l.*1 → d !! rc = Some ops →
  foldl (λ d kv, __promise__ rc kv.1 kv.2 d) d l
  = <[rc := list_to_map l ∪ ops]> d.
Proof.
  revert d ops. induction l as [|[k v] l IH]; intros d ops Hnd Hd; simpl.
  - rewrite (left_id_L ∅ (∪)). by rewrite insert_id.
  - inversion_clear Hnd as [|?? Hk Hnd'].
    rewrite (promise_register_present _ _ _ _ ops) by done.
    rewrite (IH _ (<[k:=v]> ops)); [|done|by rewrite lookup_insert_eq].
    rewrite insert_insert_eq. f_equal.
    rewrite <-insert_union_r by (by apply not_elem_of_list_to_map_1).
    by rewrite insert_union_l.
Qed.

Lemma prepare_type_fst rc st t ops :
  st.1 !! rc = Some ops →
  (prepare_type rc st t).1 = <[rc := c_dict (class_of t) ∪ ops]> st.1.
Proof.
  intros Hd. unfold prepare_type. rewrite prepare_items_fst.
  rewrite (register_items _ _ _ ops); [|apply NoDup_fst_map_to_list|done].
  by rewrite list_to_map_to_list.
Qed.

Lemma prepare_types_fst rc (ts : list string) st ops :
  st.1 !! rc = Some ops →
  (foldl (prepare_type rc) st ts).1
  = <[rc := foldl (λ ops t, c_dict (class_of t) ∪ ops) ops ts]> st.1.
Proof.
  revert st ops. induction ts as [|t ts IH]; intros st ops Hd; simpl.
  - by rewrite insert_id.
  - rewrite (IH _ (c_dict (class_of t) ∪ ops)).
    + rewrite (prepare_type_fst _ _ _ ops) by done. by rewrite insert_insert_eq.
    + rewrite (prepare_type_fst _ _ _ ops) by done. by rewrite lookup_insert_eq.
Qed.

Lemma prepare_resultclass_fst st rc :
  (prepare_resultclass st rc).1 = <[rc := resolved rc]> st.1.
Proof.
  unfold prepare_resultclass.
  rewrite (prepare_types_fst _ _ _ ∅); simpl; [|by rewrite lookup_insert_eq].
  by rewrite insert_insert_eq.
Qed.

Lemma prepare_loops_lookup (rcs : list string) st klass :
  (prepare_loops rcs st).1 !! klass
  = if bool_decide (klass ∈ rcs) then Some (resolved klass) else st.1 !! klass.
Proof.
  unfold prepare_loops. induction rcs as [|rc rcs IH] using rev_ind.
  - rewrite bool_decide_false; [done|]. by intros ?%elem_of_nil.
  - rewrite foldl_snoc, prepare_resultclass_fst.
    destruct (decide (rc = klass)) as [->|Hne].
    + rewrite lookup_insert_eq, bool_decide_true; [done|].
      apply elem_of_app. right. by apply list_elem_of_singleton.
    + rewrite lookup_insert_ne, IH by done.
      rewrite (bool_decide_ext (klass ∈ (rcs ++ [rc])%list) (klass ∈ rcs)); [done|].
      rewrite elem_of_app, list_elem_of_singleton. intuition congruence.
Qed.

Lemma table_lookup (rcs : list string) klass :
  table rcs !! klass = if bool_decide (klass ∈ rcs) then Some (resolved klass) else None.
Proof. unfold table. by rewrite prepare_loops_lookup. Qed.

Lemma resolve_fold (ts : list string) ops op :
  foldl (λ ops t, c_dict (class_of t) ∪ ops) ops (reverse ts) !! op
  = match mro_lookup ts op with Some m => Some m | None => ops !! op end.
Proof.
  induction ts as [|t ts IH]; simpl; [done|].
  rewrite reverse_cons, foldl_snoc.
  destruct (c_dict (class_of t) !! op) as [m|] eqn:Ht.
  - by apply lookup_union_Some_l.
  - by rewrite lookup_union_r.
Qed.

Lemma resolved_lookup klass op :
  resolved klass !! op = mro_lookup (mro klass) op.
Proof.
  unfold resolved. rewrite resolve_fold.
  by destruct (mro_lookup _ _).
Qed.

Lemma first_declared_none (rcs ts : list string) :
  first_declared (table rcs) ts = None ↔ ∀ t, t ∈ ts → t ∉ rcs.
Proof.
  induction ts as [|t ts IH]; simpl.
  - split; [|done]. by intros _ t ?%elem_of_nil.
  - rewrite table_lookup. case_bool_decide as Ht.
    + split; [done|]. intros Hall. destruct (Hall t); [left|done].
    + rewrite IH. split.
      * intros Hall t' [->|?]%elem_of_cons; auto.
      * intros Hall t' ?. apply Hall. by right.
Qed.

Lemma first_declared_head (rcs ts : list string) klass :
  klass ∈ rcs → first_declared (table rcs) (klass :: ts) = Some (resolved klass).
Proof. intros Hin. simpl. by rewrite table_lookup, bool_decide_true. Qed.

(** ** The attributes of the class *)

Lemma foldl_keeps {A B} (P : A → Prop) (f : A → B → A) (l : list B) (x : A) :
  (∀ y b, P y → P (f y b)) → P x → P (foldl f x l).
Proof. intros Hf. revert x. induction l; simpl; auto. Qed.

Lemma prepare_item_keeps rc st kv k x :
  st.2 !! k = Some x → (prepare_item rc st kv).2 !! k = Some x.
Proof.
  intros Hk. unfold prepare_item, hasattr. case_bool_decide as Hh; simpl; [done|].
  rewrite lookup_insert_ne; [done|]. intros Heq. apply Hh. rewrite Heq, Hk. eauto.
Qed.

Lemma prepare_loops_keeps (rcs : list string) st k x :
  st.2 !! k = Some x → (prepare_loops rcs st).2 !! k = Some x.
Proof.
  intros Hk. unfold prepare_loops.
  apply (foldl_keeps (λ st, st.2 !! k = Some x)); [|done].
  intros st1 rc H1. unfold prepare_resultclass.
  apply (foldl_keeps (λ st, st.2 !! k = Some x)); [|done].
  intros st2 t H2. unfold prepare_type.
  apply (foldl_keeps (λ st, st.2 !! k = Some x)); [|done].
  intros st3 kv H3. by apply prepare_item_keeps.
Qed.

Lemma list_to_map_own (l : list string) k :
  k ∈ l → (list_to_map ((λ k, (k, AOwn k)) <$> l) : gmap string attr) !! k = Some (AOwn k).
Proof.
  induction l as [|k' l IH]; [by intros ?%elem_of_nil|].
  intros Hk. simpl. destruct (decide (k' = k)) as [->|Hne].
  - by rewrite lookup_insert_eq.
  - rewrite lookup_insert_ne by done. apply IH.
    apply elem_of_cons in Hk as [->|?]; done.
Qed.

Lemma initial_attrs_own k : k ∈ own_attrs → initial_attrs !! k = Some (AOwn k).
Proof. apply list_to_map_own. Qed.

Lemma prepared_func f (rcs : list string) : pc_func (prepared_class f rcs) = f.
Proof. unfold prepared_class, __prepare_class__. by destruct (_ && _). Qed.

Lemma prepared_resultclasses f (rcs : list string) :
  pc_resultclasses (prepared_class f rcs) = rcs.
Proof. unfold prepared_class, __prepare_class__. by destruct (_ && _). Qed.

Lemma prepared_dispatch f (rcs : list string) :
  pc_dispatch (prepared_class f rcs) = Some (table rcs).
Proof. unfold prepared_class, __prepare_class__. by destruct (_ && _). Qed.

(** The names whose attribute [__prepare_class__] assigns after the loops. *)
Lemma prepared_attrs_own f (rcs : list string) k :
  k ∈ own_attrs →
  k ∉ ["_delegate_bytes"; "_delegate_text"; "__str__"; "__unicode__"; "__bytes__"] →
  pc_attrs (prepared_class f rcs) !! k = Some (AOwn k).
Proof.
  intros Hown Hk.
  assert ("_delegate_bytes" ≠ k ∧ "_delegate_text" ≠ k ∧ "__str__" ≠ k
          ∧ "__unicode__" ≠ k ∧ "__bytes__" ≠ k) as (?&?&?&?&?).
  { repeat split; intros <-; apply Hk; repeat constructor. }
  unfold prepared_class, __prepare_class__. simpl.
  pose proof (prepare_loops_keeps rcs (∅, initial_attrs) k (AOwn k)
                (initial_attrs_own k Hown)) as Hloops.
  destruct (bool_decide (bytes_cls ∈ rcs)), (bool_decide (text_type ∈ rcs)), PY3;
    simpl; by rewrite !lookup_insert_ne.
Qed.

Lemma prepared_delegate_bytes f (rcs : list string) :
  pc_attrs (prepared_class f rcs) !! "_delegate_bytes"
  = Some (AFlag (bool_decide (bytes_cls ∈ rcs))).
Proof.
  unfold prepared_class, __prepare_class__. simpl.
  destruct (bool_decide (bytes_cls ∈ rcs)), (bool_decide (text_type ∈ rcs)), PY3;
    simpl; rewrite ?lookup_insert_ne by done; by rewrite lookup_insert_eq.
Qed.

Lemma prepared_delegate_text f (rcs : list string) :
  pc_attrs (prepared_class f rcs) !! "_delegate_text"
  = Some (AFlag (bool_decide (text_type ∈ rcs))).
Proof.
  unfold prepared_class, __prepare_class__. simpl.
  destruct (bool_decide (bytes_cls ∈ rcs)), (bool_decide (text_type ∈ rcs)), PY3;
    simpl; rewrite ?lookup_insert_ne by done; by rewrite lookup_insert_eq.
Qed.

Lemma body_attrs_own k : k ∈ body_attrs → k ∈ own_attrs.
Proof. intros Hk. unfold own_attrs. apply elem_of_app. by left. Qed.

Lemma body_attrs_kept k :
  k ∈ body_attrs →
  k ∉ ["_delegate_bytes"; "_delegate_text"; "__str__"; "__unicode__"; "__bytes__"].
Proof.
  intros Hk Hk'. apply list_elem_of_In in Hk, Hk'. simpl in Hk, Hk'.
  intuition (subst; discriminate).
Qed.

Lemma prepared_body_attr f (rcs : list string) k :
  k ∈ body_attrs → pc_attrs (prepared_class f rcs) !! k = Some (AOwn k).
Proof.
  intros Hk. apply prepared_attrs_own; [by apply body_attrs_own|by apply body_attrs_kept].
Qed.

Lemma class_ok_body_attr pc k :
  class_ok pc → k ∈ body_attrs → pc_attrs pc !! k = Some (AOwn k).
Proof.
  intros [Hpc|Hpc] Hk; rewrite Hpc.
  - simpl. by apply initial_attrs_own, body_attrs_own.
  - by apply prepared_body_attr.
Qed.

(** Which operations get a wrapper: those some class in the ancestor chain
    of some result class defines, unless the proxy class has the name
    already. *)
Lemma foldl_reach {A B} (Q : A → Prop) (f : A → B → A) (l : list B) (x : A) (b : B) :
  b ∈ l → (∀ y, Q (f y b)) → (∀ y b', Q y → Q (f y b')) → Q (foldl f x l).
Proof.
  intros Hb Hhit Hmono. revert x. induction l as [|b' l IH]; intros x.
  - by apply elem_of_nil in Hb.
  - simpl. apply elem_of_cons in Hb as [<-|Hb]; [|by apply IH].
    apply foldl_keeps; [done|apply Hhit].
Qed.

Lemma prepare_item_wrapper rc st kv k :
  st.2 !! k = None ∨ st.2 !! k = Some (AWrapper k) →
  (prepare_item rc st kv).2 !! k = None ∨ (prepare_item rc st kv).2 !! k = Some (AWrapper k).
Proof.
  intros Hk. unfold prepare_item, hasattr. case_bool_decide; simpl; [done|].
  destruct (decide (kv.1 = k)) as [<-|Hne].
  - right. by rewrite lookup_insert_eq.
  - by rewrite lookup_insert_ne.
Qed.

Lemma prepare_item_defined rc st k v : is_Some ((prepare_item rc st (k, v)).2 !! k).
Proof.
  unfold prepare_item, hasattr. simpl. case_bool_decide; simpl; [done|].
  rewrite lookup_insert_eq. eauto.
Qed.

Lemma prepare_loops_wrapper (rcs : list string) rc t op :
  rc ∈ rcs → t ∈ mro rc → is_Some (c_dict (class_of t) !! op) →
  op ∉ own_attrs →
  (prepare_loops rcs (∅, initial_attrs)).2 !! op = Some (AWrapper op).
Proof.
  intros Hrc Ht [v Hv] Hown.
  assert (∀ st rc' kv, is_Some (st.2 !! op) → is_Some ((prepare_item rc' st kv).2 !! op))
    as Hitem.
  { intros st rc' kv [x Hx]. exists x. by apply prepare_item_keeps. }
  assert (∀ st rc' t', is_Some (st.2 !! op) → is_Some ((prepare_type rc' st t').2 !! op))
    as Htype.
  { intros st rc' t' Hs. unfold prepare_type. apply foldl_keeps; auto. }
  assert (∀ st rc', is_Some (st.2 !! op) → is_Some ((prepare_resultclass st rc').2 !! op))
    as Hclass.
  { intros st rc' Hs. unfold prepare_resultclass. apply foldl_keeps; auto. }
  assert (is_Some ((prepare_loops rcs (∅, initial_attrs)).2 !! op)) as [x Hx].
  { unfold prepare_loops.
    apply (foldl_reach (λ st, is_Some (st.2 !! op)) _ _ _ rc); [done| |auto].
    intros st. unfold prepare_resultclass.
    apply (foldl_reach (λ st, is_Some (st.2 !! op)) _ _ _ t);
      [by apply elem_of_reverse| |auto].
    intros st'. unfold prepare_type.
    apply (foldl_reach (λ st, is_Some (st.2 !! op)) _ _ _ (op, v));
      [by apply elem_of_map_to_list| |auto].
    intros st''. apply prepare_item_defined. }
  assert ((prepare_loops rcs (∅, initial_attrs)).2 !! op = None ∨
          (prepare_loops rcs (∅, initial_attrs)).2 !! op = Some (AWrapper op)) as [Hn|Hw].
  { unfold prepare_loops.
    apply (foldl_keeps (λ st, st.2 !! op = None ∨ st.2 !! op = Some (AWrapper op))).
    - intros st1 rc1 H1. unfold prepare_resultclass.
      apply (foldl_keeps (λ st, st.2 !! op = None ∨ st.2 !! op = Some (AWrapper op)));
        [|done].
      intros st2 t2 H2. unfold prepare_type.
      apply (foldl_keeps (λ st, st.2 !! op = None ∨ st.2 !! op = Some (AWrapper op)));
        [|done].
      intros st3 kv H3. by apply prepare_item_wrapper.
    - left. simpl. unfold initial_attrs. apply not_elem_of_list_to_map_1.
      rewrite <-list_fmap_compose. by rewrite list_fmap_id. }
  - rewrite Hn in Hx. done.
  - done.
Qed.

Lemma dispatched_intro f (rcs : list string) rc t op :
  rc ∈ rcs → t ∈ mro rc → is_Some (c_dict (class_of t) !! op) →
  op ∉ own_attrs →
  op ∉ ["_delegate_bytes"; "_delegate_text"; "__str__"; "__unicode__"; "__bytes__"] →
  dispatched f rcs op.
Proof.
  intros Hrc Ht Hop Hown Hk.
  assert ("_delegate_bytes" ≠ op ∧ "_delegate_text" ≠ op ∧ "__str__" ≠ op
          ∧ "__unicode__" ≠ op ∧ "__bytes__" ≠ op) as (?&?&?&?&?).
  { repeat split; intros <-; apply Hk; in_list. }
  pose proof (prepare_loops_wrapper rcs rc t op Hrc Ht Hop Hown) as Hloops.
  unfold dispatched, prepared_class, __prepare_class__. simpl.
  destruct (bool_decide (bytes_cls ∈ rcs)), (bool_decide (text_type ∈ rcs)), PY3;
    simpl; by rewrite !lookup_insert_ne.
Qed.

Lemma foldl_keeps_in {A B} (P : A → Prop) (f : A → B → A) (l : list B) (x : A) :
  (∀ y b, b ∈ l → P y → P (f y b)) → P x → P (foldl f x l).
Proof.
  revert x. induction l as [|b l IH]; intros x Hf Hx; simpl; [done|].
  apply IH.
  - intros y b' Hb' Hy. apply Hf; [by right|done].
  - apply Hf; [left|done].
Qed.

Lemma prepared_text_attr f (rcs : list string) :
  text_type ∈ rcs → bytes_cls ∉ rcs →
  pc_attrs (prepared_class f rcs) !! (if PY3 then "__str__" else "__unicode__")
  = Some (AOwn "_proxy____text_cast").
Proof.
  intros Ht Hb. unfold prepared_class, __prepare_class__. simpl.
  rewrite (bool_decide_true _ Ht), (bool_decide_false _ Hb). simpl.
  destruct PY3; by rewrite lookup_insert_eq.
Qed.

Lemma prepared_bytes_attr f (rcs : list string) :
  bytes_cls ∈ rcs → text_type ∉ rcs →
  pc_attrs (prepared_class f rcs) !! (if PY3 then "__bytes__" else "__str__")
  = Some (AOwn "_proxy____bytes_cast").
Proof.
  intros Hb Ht. unfold prepared_class, __prepare_class__. simpl.
  rewrite (bool_decide_true _ Hb), (bool_decide_false _ Ht). simpl.
  destruct PY3; by rewrite lookup_insert_eq.
Qed.

(** ** Preparing a class that is prepared already *)

Lemma prepare_loops_defined (rcs : list string) st rc t op :
  rc ∈ rcs → t ∈ mro rc → is_Some (c_dict (class_of t) !! op) →
  is_Some ((prepare_loops rcs st).2 !! op).
Proof.
  intros Hrc Ht [v Hv].
  assert (∀ st rc' kv, is_Some (st.2 !! op) → is_Some ((prepare_item rc' st kv).2 !! op))
    as Hitem.
  { intros st0 rc' kv [x Hx]. exists x. by apply prepare_item_keeps. }
  assert (∀ st rc' t', is_Some (st.2 !! op) → is_Some ((prepare_type rc' st t').2 !! op))
    as Htype.
  { intros st0 rc' t' Hs. unfold prepare_type. apply foldl_keeps; auto. }
  assert (∀ st rc', is_Some (st.2 !! op) → is_Some ((prepare_resultclass st rc').2 !! op))
    as Hclass.
  { intros st0 rc' Hs. unfold prepare_resultclass. apply foldl_keeps; auto. }
  unfold prepare_loops.
  apply (foldl_reach (λ st, is_Some (st.2 !! op)) _ _ _ rc); [done| |auto].
  intros st0. unfold prepare_resultclass.
  apply (foldl_reach (λ st, is_Some (st.2 !! op)) _ _ _ t);
    [by apply elem_of_reverse| |auto].
  intros st'. unfold prepare_type.
  apply (foldl_reach (λ st, is_Some (st.2 !! op)) _ _ _ (op, v));
    [by apply elem_of_map_to_list| |auto].
  intros st''. apply prepare_item_defined.
Qed.

Lemma prepare_loops_fixed (rcs : list string) d (a : gmap string attr) :
  (∀ rc t k, rc ∈ rcs → t ∈ mro rc → is_Some (c_dict (class_of t) !! k) → is_Some (a !! k)) →
  (prepare_loops rcs (d, a)).2 = a.
Proof.
  intros Hdef. unfold prepare_loops.
  apply (foldl_keeps_in (λ st, st.2 = a)); [|done].
  intros st1 rc Hrc H1. unfold prepare_resultclass.
  apply (foldl_keeps_in (λ st, st.2 = a)); [|done].
  intros st2 t Ht H2. rewrite elem_of_reverse in Ht. unfold prepare_type.
  apply (foldl_keeps_in (λ st, st.2 = a)); [|done].
  intros st3 [k v] Hkv%elem_of_map_to_list H3. unfold prepare_item, hasattr. simpl.
  rewrite H3. rewrite bool_decide_true; [done|].
  apply (Hdef rc t k); [done..|]. rewrite Hkv. eauto.
Qed.

Lemma prepare_loops_table (rcs : list string) (a : gmap string attr) :
  (prepare_loops rcs (∅, a)).1 = table rcs.
Proof. apply map_eq. intros k. unfold table. by rewrite !prepare_loops_lookup. Qed.

Lemma prepared_defined f (rcs : list string) rc t k :
  rc ∈ rcs → t ∈ mro rc → is_Some (c_dict (class_of t) !! k) →
  is_Some (pc_attrs (prepared_class f rcs) !! k).
Proof.
  intros Hrc Ht Hk.
  pose proof (prepare_loops_defined rcs (∅, initial_attrs) rc t k Hrc Ht Hk) as Hloops.
  unfold prepared_class, __prepare_class__. simpl.
  destruct (bool_decide (bytes_cls ∈ rcs)), (bool_decide (text_type ∈ rcs)), PY3;
    simpl; rewrite ?lookup_insert_is_Some'; auto 10.
Qed.

Lemma class_eta pc :
  pc = ProxyClass (pc_func pc) (pc_resultclasses pc) (pc_dispatch pc) (pc_attrs pc).
Proof. by destruct pc. Qed.

(** Running [__prepare_class__] once more gives the same class again. *)
Lemma prepare_class_again f (rcs : list string) :
  (__prepare_class__ (prepared_class f rcs)).2 = prepared_class f rcs.
Proof.
  set (pcp := prepared_class f rcs).
  assert ((prepare_loops rcs (∅, pc_attrs pcp)).2 = pc_attrs pcp) as Hattrs.
  { apply prepare_loops_fixed. intros rc t k. apply prepared_defined. }
  rewrite (class_eta pcp) at 2.
  unfold __prepare_class__. fold pcp.
  replace (pc_resultclasses pcp) with rcs by (symmetry; apply prepared_resultclasses).
  rewrite Hattrs, prepare_loops_table.
  replace (pc_dispatch pcp) with (Some (table rcs)) by (symmetry; apply prepared_dispatch).
  rewrite (insert_id (pc_attrs pcp) "_delegate_bytes") by apply prepared_delegate_bytes.
  rewrite (insert_id (pc_attrs pcp) "_delegate_text") by apply prepared_delegate_text.
  destruct (decide (bytes_cls ∈ rcs)) as [Hb|Hb], (decide (text_type ∈ rcs)) as [Ht|Ht];
    rewrite ?(bool_decide_true _ Hb), ?(bool_decide_false _ Hb),
            ?(bool_decide_true _ Ht), ?(bool_decide_false _ Ht); simpl; [done| | |done].
  - pose proof (prepared_bytes_attr f rcs Hb Ht) as Hx. fold pcp in Hx.
    destruct PY3; by rewrite insert_id.
  - pose proof (prepared_text_attr f rcs Ht Hb) as Hx. fold pcp in Hx.
    destruct PY3; by rewrite insert_id.
Qed.

(** ** Forcing, casting and dispatching on a proxy *)

Lemma is_proxy_frame s s' self f (rcs : list string) args kw :
  heap s' = heap s → classes s' = classes s →
  is_proxy s self f rcs args kw → is_proxy s' self f rcs args kw.
Proof. intros Hh Hc (cid & ? & ?). exists cid. by rewrite Hh, Hc. Qed.

Lemma is_proxy_record s self f (rcs : list string) args kw g a k :
  is_proxy s self f rcs args kw → is_proxy (record_call g a k s) self f rcs args kw.
Proof. by apply is_proxy_frame. Qed.

Lemma class_of_obj_spec s self f (rcs : list string) args kw :
  is_proxy s self f rcs args kw →
  class_of_obj self s = (Ok (prepared_class f rcs), s).
Proof.
  intros (cid & Ho & Hc). unfold class_of_obj, mbind, M_bind, get_obj, get_class.
  rewrite Ho. simpl. by rewrite Hc.
Qed.

Lemma force_spec s self f (rcs : list string) args kw :
  is_proxy s self f rcs args kw →
  force self s = (fn_body f args kw (trace s), record_call f args kw s).
Proof.
  intros (cid & Ho & Hc). unfold force, mbind, M_bind, get_obj, get_class.
  rewrite Ho. simpl. rewrite Hc. unfold call_func. by rewrite prepared_func.
Qed.

Lemma get_flag_bytes s self f (rcs : list string) args kw :
  is_proxy s self f rcs args kw →
  get_flag "_delegate_bytes" self s = (Ok (bool_decide (bytes_cls ∈ rcs)), s).
Proof.
  intros Hp. unfold get_flag, mbind, M_bind.
  rewrite (class_of_obj_spec _ _ _ _ _ _ Hp). by rewrite prepared_delegate_bytes.
Qed.

Lemma get_flag_text s self f (rcs : list string) args kw :
  is_proxy s self f rcs args kw →
  get_flag "_delegate_text" self s = (Ok (bool_decide (text_type ∈ rcs)), s).
Proof.
  intros Hp. unfold get_flag, mbind, M_bind.
  rewrite (class_of_obj_spec _ _ _ _ _ _ Hp). by rewrite prepared_delegate_text.
Qed.

Lemma cast_spec s self f (rcs : list string) args kw :
  is_proxy s self f rcs args kw →
  __cast self s = (cast_outcome rcs (fn_body f args kw (trace s)), record_call f args kw s).
Proof.
  intros Hp. unfold __cast, cast_outcome, mbind, M_bind.
  rewrite (get_flag_bytes _ _ _ _ _ _ Hp).
  destruct (bool_decide (bytes_cls ∈ rcs)).
  - unfold __bytes_cast, mbind, M_bind. rewrite (force_spec _ _ _ _ _ _ Hp).
    by destruct (fn_body f args kw (trace s)).
  - rewrite (get_flag_text _ _ _ _ _ _ Hp).
    destruct (bool_decide (text_type ∈ rcs)); unfold __text_cast;
      by rewrite (force_spec _ _ _ _ _ _ Hp).
Qed.

Lemma wrapper_spec s self f (rcs : list string) args kw name a k :
  is_proxy s self f rcs args kw →
  __wrapper__ name self a k s
  = (dispatch_outcome rcs name (fn_body f args kw (trace s)) a k, record_call f args kw s).
Proof.
  intros Hp. unfold __wrapper__, dispatch_outcome, mbind, M_bind.
  rewrite (force_spec _ _ _ _ _ _ Hp).
  destruct (fn_body f args kw (trace s)) as [res|e]; [|done].
  rewrite (class_of_obj_spec _ _ f rcs args kw) by (by apply is_proxy_record).
  rewrite prepared_dispatch.
  destruct (first_declared _ _) as [ops|]; [|done].
  by destruct (ops !! name).
Qed.

Lemma invoke_dispatched n s self f (rcs : list string) args kw name a k :
  is_proxy s self f rcs args kw → dispatched f rcs name →
  invoke (S n) self name a k s = __wrapper__ name self a k s.
Proof.
  intros Hp Hd. simpl. unfold invoke_body, mbind, M_bind.
  rewrite (class_of_obj_spec _ _ _ _ _ _ Hp). by rewrite Hd.
Qed.

Lemma invoke_own n s self f (rcs : list string) args kw name a k :
  is_proxy s self f rcs args kw → name ∈ body_attrs →
  invoke (S n) self name a k s = own_method (invoke n) name self a k s.
Proof.
  intros Hp Hd. simpl. unfold invoke_body, mbind, M_bind.
  rewrite (class_of_obj_spec _ _ _ _ _ _ Hp). by rewrite prepared_body_attr.
Qed.

Lemma compare_raw rec op a b s :
  is_promise a = false → is_promise b = false →
  compare rec op a b s = (py_cmp op a b, s).
Proof. by destruct a, b. Qed.

(** A comparison method of the proxy class, against an operand that is not a
    promise, when the cast does not yield a promise either. *)
Lemma proxy_cmp_raw rec op s self f (rcs : list string) args kw other :
  is_proxy s self f rcs args kw → is_promise other = false →
  (∀ l, cast_outcome rcs (fn_body f args kw (trace s)) ≠ Ok (VPromise l)) →
  proxy_cmp rec op self other s
  = (match cast_outcome rcs (fn_body f args kw (trace s)) with
     | Ok r => py_cmp op r other
     | Raise e => Raise e
     end, record_call f args kw s).
Proof.
  intros Hp Ho Hr. unfold proxy_cmp, mbind, M_bind.
  assert (match other with VPromise o => __cast o | _ => ret other end s = (Ok other, s)) as ->.
  { by destruct other. }
  rewrite (cast_spec _ _ _ _ _ _ Hp).
  destruct (cast_outcome _ _) as [r|e]; [|done].
  apply compare_raw; [|done]. destruct r; try done. by destruct (Hr l).
Qed.

Lemma proxy_hash_raw rec s self f (rcs : list string) args kw :
  is_proxy s self f rcs args kw →
  (∀ l, cast_outcome rcs (fn_body f args kw (trace s)) ≠ Ok (VPromise l)) →
  __hash__ rec self s
  = (match cast_outcome rcs (fn_body f args kw (trace s)) with
     | Ok r => py_hash r
     | Raise e => Raise e
     end, record_call f args kw s).
Proof.
  intros Hp Hr. unfold __hash__, mbind, M_bind.
  rewrite (cast_spec _ _ _ _ _ _ Hp).
  destruct (cast_outcome _ _) as [r|e]; [|done].
  destruct r; try done. by destruct (Hr l).
Qed.

(** ** Operations on a proxy never touch classes or instances *)

Lemma keeps_bind {A B} (m : M A) (k : A → M B) :
  keeps_store m → (∀ x, keeps_store (k x)) → keeps_store (m ≫= k).
Proof.
  intros Hm Hk s. unfold mbind, M_bind. specialize (Hm s).
  destruct (m s) as [[x|e] s1]; simpl in *; [|done].
  destruct (Hk x s1) as [-> ->]. done.
Qed.

Lemma keeps_ret {A} (x : A) : keeps_store (ret x).
Proof. done. Qed.

Lemma keeps_raise {A} e : keeps_store (raise e : M A).
Proof. done. Qed.

Lemma keeps_lift {A} (o : outcome A) : keeps_store (lift o).
Proof. done. Qed.

Lemma keeps_get_obj l : keeps_store (get_obj l).
Proof. intros s. unfold get_obj. by destruct (heap s !! l). Qed.

Lemma keeps_get_class cid : keeps_store (get_class cid).
Proof. intros s. unfold get_class. by destruct (classes s !! cid). Qed.

Lemma keeps_call_func f args kw : keeps_store (call_func f args kw).
Proof. done. Qed.

Lemma keeps_dict_set (memo k : nat) v : keeps_store (dict_set memo k v).
Proof. intros s. unfold dict_set. by destruct (dicts s !! memo). Qed.

Lemma keeps_class_of_obj self : keeps_store (class_of_obj self).
Proof.
  apply keeps_bind; [apply keeps_get_obj|]. intros o. apply keeps_get_class.
Qed.

Lemma keeps_force self : keeps_store (force self).
Proof.
  apply keeps_bind; [apply keeps_get_obj|]. intros o.
  apply keeps_bind; [apply keeps_get_class|]. intros pc. apply keeps_call_func.
Qed.

Lemma keeps_bytes_cast self : keeps_store (__bytes_cast self).
Proof. apply keeps_bind; [apply keeps_force|]. intros r. apply keeps_lift. Qed.

Lemma keeps_get_flag name self : keeps_store (get_flag name self).
Proof.
  apply keeps_bind; [apply keeps_class_of_obj|]. intros pc.
  destruct (pc_attrs pc !! name) as [[]|]; done.
Qed.

Lemma keeps_cast self : keeps_store (__cast self).
Proof.
  apply keeps_bind; [apply keeps_get_flag|]. intros [|]; [apply keeps_bytes_cast|].
  apply keeps_bind; [apply keeps_get_flag|]. intros [|]; apply keeps_force.
Qed.

Lemma keeps_wrapper name self args kw : keeps_store (__wrapper__ name self args kw).
Proof.
  apply keeps_bind; [apply keeps_force|]. intros res.
  apply keeps_bind; [apply keeps_class_of_obj|]. intros pc.
  destruct (pc_dispatch pc) as [d|]; [|done].
  destruct (first_declared _ _) as [ops|]; [|done].
  by destruct (ops !! name).
Qed.

Lemma keeps_proxy_deepcopy self memo : keeps_store (__deepcopy__ self memo).
Proof.
  destruct memo; try done. simpl.
  apply keeps_bind; [apply keeps_dict_set|]. intros _. apply keeps_ret.
Qed.

(** ** Creating factories and proxies *)

Lemma prepare_class_outcome f (rcs : list string) :
  (__prepare_class__ (fresh_class f rcs)).1
  = if conflicting rcs then Raise (AssertionError both_types_msg) else Ok ().
Proof. unfold __prepare_class__, conflicting. simpl. by destruct (_ && _). Qed.

Lemma factory_call_unfold s factory pc args kw :
  classes s !! factory = Some pc →
  factory_call factory args kw s
  = match pc_dispatch pc with
    | Some _ =>
      (Ok (VPromise (length (heap s))),
       State (classes s) (heap s ++ [ProxyObj factory args kw]) (dicts s) (trace s))
    | None =>
      (match (__prepare_class__ pc).1 with
       | Ok _ => Ok (VPromise (length (heap s)))
       | Raise e => Raise e
       end,
       State (<[factory := (__prepare_class__ pc).2]> (classes s))
             (heap s ++ [ProxyObj factory args kw]) (dicts s) (trace s))
    end.
Proof.
  intros Hc. unfold factory_call, __init__, prepare, mbind, M_bind, get_class.
  rewrite Hc. simpl. rewrite Hc. simpl.
  destruct (pc_dispatch pc); [done|]. simpl. rewrite Hc.
  by destruct (__prepare_class__ pc) as [[[]|e] pc'].
Qed.

Lemma factory_call_missing s factory args kw :
  classes s !! factory = None →
  factory_call factory args kw s = (Raise (SystemError "no such class"), s).
Proof. intros Hc. unfold factory_call, mbind, M_bind, get_class. by rewrite Hc. Qed.

Lemma factory_call_first s factory f (rcs : list string) args kw :
  classes s !! factory = Some (fresh_class f rcs) →
  factory_call factory args kw s
  = (if conflicting rcs then Raise (AssertionError both_types_msg)
     else Ok (VPromise (length (heap s))),
     State (<[factory := prepared_class f rcs]> (classes s))
           (heap s ++ [ProxyObj factory args kw]) (dicts s) (trace s)).
Proof.
  intros Hc. rewrite (factory_call_unfold _ _ _ _ _ Hc). simpl.
  rewrite prepare_class_outcome. by destruct (conflicting rcs).
Qed.

Lemma lazy_class s f (rcs : list string) :
  classes (lazy f rcs s).2 !! length (classes s) = Some (fresh_class f rcs).
Proof. simpl. by rewrite list_lookup_middle. Qed.

(** ** Prepared classes and instances stay as they are *)

Lemma extends_refl s : extends s s.
Proof. by split. Qed.

Lemma extends_keeps s s' :
  classes s' = classes s → heap s' = heap s → extends s s'.
Proof. intros Hc Hh. split; intros ??; rewrite ?Hc, ?Hh; auto. Qed.

Lemma extends_trans s1 s2 s3 : extends s1 s2 → extends s2 s3 → extends s1 s3.
Proof. intros [Hc1 Hh1] [Hc2 Hh2]. split; eauto. Qed.

Lemma lazy_extends s f (rcs : list string) : extends s (lazy f rcs s).2.
Proof.
  split; simpl; [intros cid pc Hc _|intros l o Hl]; [|done].
  by apply lookup_app_l_Some.
Qed.

Lemma factory_call_extends s factory args kw :
  extends s (factory_call factory args kw s).2.
Proof.
  destruct (classes s !! factory) as [pc|] eqn:Hc.
  - rewrite (factory_call_unfold _ _ _ _ _ Hc).
    destruct (pc_dispatch pc) as [d|] eqn:Hd; simpl.
    + split; simpl; [done|]. intros l o Hl. by apply lookup_app_l_Some.
    + split; simpl.
      * intros cid pc' Hc' [d' Hd']. rewrite list_lookup_insert_ne; [done|].
        intros <-. congruence.
      * intros l o Hl. by apply lookup_app_l_Some.
  - rewrite factory_call_missing by done. apply extends_refl.
Qed.

Lemma allow_lazy_extends s f (rcs : list string) args kw :
  extends s (allow_lazy f rcs args kw s).2.
Proof.
  unfold allow_lazy, wrapper. destruct (existsb _ _).
  - unfold mbind, M_bind.
    change (lazy f rcs s) with (Ok (length (classes s)), (lazy f rcs s).2).
    eapply extends_trans; [apply lazy_extends|apply factory_call_extends].
  - by apply extends_keeps.
Qed.

Lemma is_proxy_extends s s' self f (rcs : list string) args kw :
  extends s s' → is_proxy s self f rcs args kw → is_proxy s' self f rcs args kw.
Proof.
  intros [Hc Hh] (cid & Ho & Hcl). exists cid. split; [by apply Hh|].
  apply Hc; [done|]. rewrite prepared_dispatch. eauto.
Qed.

(** ** The invariant of the store *)

Lemma prepared_class_ok f (rcs : list string) : class_ok (prepared_class f rcs).
Proof. right. by rewrite prepared_func, prepared_resultclasses. Qed.

Lemma state_ok_init : state_ok init_state.
Proof. split; intros ?? Hl; simpl in Hl; by rewrite lookup_nil in Hl. Qed.

Lemma state_ok_keeps s s' :
  classes s' = classes s → heap s' = heap s → state_ok s → state_ok s'.
Proof. intros Hc Hh [H1 H2]. split; rewrite ?Hc, ?Hh; auto. Qed.

Lemma state_ok_lazy s f (rcs : list string) : state_ok s → state_ok (lazy f rcs s).2.
Proof.
  intros [H1 H2]. split; simpl.
  - intros cid pc [Hc|[_ Hc]]%lookup_app_Some; [by eapply H1|].
    destruct (cid - length (classes s)) as [|n]; simpl in Hc; [|done].
    injection Hc as <-. by left.
  - intros l o Hl. destruct (H2 l o Hl) as (pc & Hc & Hpc).
    exists pc. split; [|done]. by apply lookup_app_l_Some.
Qed.

Lemma state_ok_factory_call s factory args kw :
  state_ok s → state_ok (factory_call factory args kw s).2.
Proof.
  intros [H1 H2].
  destruct (classes s !! factory) as [pc|] eqn:Hc;
    [|by rewrite factory_call_missing].
  rewrite (factory_call_unfold _ _ _ _ _ Hc).
  assert (factory < length (classes s)) as Hlt by (by eapply lookup_lt_Some).
  destruct (pc_dispatch pc) as [d|] eqn:Hd; simpl.
  - split; simpl; [done|].
    intros l o [Hl|[_ Hl]]%lookup_app_Some; [by apply (H2 l)|].
    destruct (l - length (heap s)) as [|n]; simpl in Hl; [|done].
    injection Hl as <-. simpl. exists pc. split; [done|].
    destruct (H1 _ _ Hc) as [Hf|Hp]; [|done]. rewrite Hf in Hd. done.
  - assert (pc = fresh_class (pc_func pc) (pc_resultclasses pc)) as Hf.
    { destruct (H1 _ _ Hc) as [Hf|Hp]; [done|].
      rewrite Hp, prepared_dispatch in Hd. done. }
    assert ((__prepare_class__ pc).2 = prepared_class (pc_func pc) (pc_resultclasses pc)) as Hp.
    { by rewrite Hf at 1. }
    split; simpl.
    + intros cid pc' Hc'. destruct (decide (factory = cid)) as [<-|Hne].
      * rewrite list_lookup_insert_eq in Hc' by done. injection Hc' as <-.
        rewrite Hp. apply prepared_class_ok.
      * rewrite list_lookup_insert_ne in Hc' by done. by eapply H1.
    + intros l o [Hl|[_ Hl]]%lookup_app_Some.
      * destruct (H2 l o Hl) as (pc' & Hc' & Hpc'). exists pc'. split; [|done].
        rewrite list_lookup_insert_ne; [done|]. intros Heq.
        rewrite <-Heq, Hc in Hc'. injection Hc' as <-.
        rewrite Hpc', prepared_dispatch in Hd. done.
      * destruct (l - length (heap s)) as [|n]; simpl in Hl; [|done].
        injection Hl as <-. simpl. exists (__prepare_class__ pc).2.
        split; [by rewrite list_lookup_insert_eq|].
        rewrite Hp. by rewrite prepared_func, prepared_resultclasses.
Qed.

(** ** Operations on a proxy leave classes and instances as they are *)

Lemma keeps_ok_store {A} (m : M A) : keeps_store m → keeps_ok m.
Proof. intros Hm s _. apply Hm. Qed.

Lemma keeps_ok_bind {A B} (m : M A) (k : A → M B) :
  keeps_ok m → (∀ x, keeps_ok (k x)) → keeps_ok (m ≫= k).
Proof.
  intros Hm Hk s Hok. unfold mbind, M_bind. specialize (Hm s Hok).
  destruct (m s) as [[x|e] s1]; simpl in *; [|done].
  destruct Hm as [Hc Hh].
  assert (state_ok s1) as Hok1 by (by eapply state_ok_keeps).
  destruct (Hk x s1 Hok1) as [-> ->]. done.
Qed.

(** On a proxy of a store that satisfies the invariant the class is
    prepared, so that preparing it again changes nothing. *)
Lemma keeps_ok_prepare_again self : keeps_ok (prepare_again self).
Proof.
  intros s Hok. unfold prepare_again, prepare, mbind, M_bind, get_obj.
  destruct (heap s !! self) as [o|] eqn:Ho; [|done]. simpl.
  destruct (proj2 Hok _ _ Ho) as (pc & Hc & Hpc). rewrite Hc.
  pose proof (prepare_class_again (pc_func pc) (pc_resultclasses pc)) as Hagain.
  rewrite <-Hpc in Hagain.
  destruct (__prepare_class__ pc) as [[[]|e] pc']; simpl in *; subst pc';
    by rewrite list_insert_id.
Qed.

Section OutsideKeeps.
Hypothesis Hext : external_keeps_store.
Variable rec : nat → string → list value → kwargs → M value.
Hypothesis Hrec : ∀ l name args kw, keeps_ok (rec l name args kw).

Lemma keeps_ok_compare op a b : keeps_ok (compare rec op a b).
Proof.
  destruct a; simpl; try apply Hrec;
    (destruct b; simpl; try (by apply keeps_ok_store, keeps_lift);
     destruct (py_cmp_method _ _ _); [by apply keeps_ok_store, keeps_lift|apply Hrec]).
Qed.

Lemma keeps_ok_modulo a b : keeps_ok (modulo rec a b).
Proof.
  destruct a; simpl; try apply Hrec;
    (destruct b; simpl; try (by apply keeps_ok_store, keeps_lift);
     apply keeps_ok_store, Hext).
Qed.

Lemma keeps_ok_convert name self : keeps_ok (convert rec name self).
Proof.
  apply keeps_ok_bind; [apply Hrec|]. intros r. apply keeps_ok_store, keeps_lift.
Qed.

Lemma keeps_ok_hash_of a : keeps_ok (hash_of rec a).
Proof. destruct a; simpl; solve [apply keeps_ok_store, keeps_lift | apply Hrec]. Qed.

Lemma keeps_ok_proxy_cmp op self other : keeps_ok (proxy_cmp rec op self other).
Proof.
  apply keeps_ok_bind.
  { apply keeps_ok_store. destruct other; solve [apply keeps_ret | apply keeps_cast]. }
  intros other'. apply keeps_ok_bind; [apply keeps_ok_store, keeps_cast|]. intros r.
  apply keeps_ok_compare.
Qed.

Lemma keeps_ok_proxy_hash self : keeps_ok (__hash__ rec self).
Proof.
  apply keeps_ok_bind; [apply keeps_ok_store, keeps_cast|]. intros r.
  apply keeps_ok_hash_of.
Qed.

Lemma keeps_ok_mod self rhs : keeps_ok (__mod__ rec self rhs).
Proof.
  apply keeps_ok_bind; [apply keeps_ok_store, keeps_get_flag|]. intros db.
  destruct (db && negb PY3).
  - apply keeps_ok_bind; [apply keeps_ok_convert|]. intros b. apply keeps_ok_modulo.
  - apply keeps_ok_bind; [apply keeps_ok_store, keeps_get_flag|]. intros [|].
    + apply keeps_ok_bind; [apply keeps_ok_convert|]. intros t. apply keeps_ok_modulo.
    + apply keeps_ok_bind; [apply keeps_ok_store, keeps_cast|]. intros c.
      apply keeps_ok_modulo.
Qed.

Lemma keeps_ok_call_dispatch self : keeps_ok (call_dispatch self).
Proof.
  apply keeps_ok_store, keeps_bind; [apply keeps_class_of_obj|]. intros pc.
  by destruct (pc_dispatch pc).
Qed.

Lemma keeps_ok_own_method name self args kw : keeps_ok (own_method rec name self args kw).
Proof.
  unfold own_method, __eq__, __ne__, __lt__.
  repeat case_decide;
    try (destruct args as [|? [|? ?]]; destruct kw);
    solve [ apply keeps_ok_proxy_cmp | apply keeps_ok_proxy_hash | apply keeps_ok_mod
          | apply keeps_ok_prepare_again | apply keeps_ok_call_dispatch
          | apply keeps_ok_store;
            first [ apply keeps_proxy_deepcopy | apply keeps_cast | apply keeps_force
                  | apply keeps_bytes_cast | apply keeps_raise | apply Hext ] ].
Qed.

End OutsideKeeps.

Lemma keeps_ok_invoke depth self name args kw :
  external_keeps_store → keeps_ok (invoke depth self name args kw).
Proof.
  intros Hext. revert self name args kw.
  induction depth as [|n IH]; intros self name args kw;
    [by apply keeps_ok_store, keeps_raise|].
  simpl. unfold invoke_body.
  apply keeps_ok_bind; [apply keeps_ok_store, keeps_class_of_obj|]. intros pc.
  destruct (pc_attrs pc !! name) as [[own|funcname|b]|];
    try (by apply keeps_ok_store, keeps_raise).
  - by apply keeps_ok_own_method.
  - apply keeps_ok_store, keeps_wrapper.
Qed.

(** [__init__] called again on a proxy binds new arguments and touches no
    class. *)
Lemma reinit_spec s self o args kw :
  state_ok s → heap s !! self = Some o →
  reinit self args kw s
  = (Ok (), State (classes s) (<[self := ProxyObj (po_class o) args kw]> (heap s))
                  (dicts s) (trace s)).
Proof.
  intros Hok Ho. unfold reinit, set_obj, __init__, mbind, M_bind, get_obj, get_class.
  rewrite Ho. simpl.
  destruct (proj2 Hok _ _ Ho) as (pc & Hc & Hpc). rewrite Hc. simpl.
  rewrite Hpc, prepared_dispatch. done.
Qed.

Lemma reinit_missing s self args kw :
  heap s !! self = None → (reinit self args kw s).2 = s.
Proof. intros Ho. unfold reinit, mbind, M_bind, get_obj. by rewrite Ho. Qed.

Lemma state_ok_reinit s self args kw : state_ok s → state_ok (reinit self args kw s).2.
Proof.
  intros Hok. destruct (heap s !! self) as [o|] eqn:Ho;
    [|by rewrite reinit_missing].
  rewrite (reinit_spec _ _ _ _ _ Hok Ho). destruct Hok as [H1 H2]. split; simpl; [done|].
  intros l o' Hl. destruct (decide (self = l)) as [<-|Hne].
  - rewrite list_lookup_insert_eq in Hl by (by eapply lookup_lt_Some).
    injection Hl as <-. simpl. by apply (H2 self).
  - rewrite list_lookup_insert_ne in Hl by done. by apply (H2 l).
Qed.

(** Whatever a client does short of calling [__promise__] keeps the
    invariant. *)
Lemma state_ok_run depth act s :
  external_keeps_store → registers_nothing act →
  state_ok s → state_ok (run depth act s).
Proof.
  intros Hext Hact Hok. destruct act; simpl.
  - by apply state_ok_lazy.
  - by apply state_ok_factory_call.
  - eapply state_ok_keeps; [apply keeps_ok_invoke..|]; done.
  - eapply state_ok_keeps;
      [apply keeps_ok_compare; try done; intros; by apply keeps_ok_invoke..|]; done.
  - eapply state_ok_keeps;
      [apply keeps_ok_hash_of; try done; intros; by apply keeps_ok_invoke..|]; done.
  - unfold allow_lazy, wrapper. destruct (existsb _ _).
    + unfold mbind, M_bind.
      change (lazy func resultclasses s)
        with (Ok (length (classes s)), (lazy func resultclasses s).2).
      by apply state_ok_factory_call, state_ok_lazy.
    + by eapply state_ok_keeps.
  - by eapply state_ok_keeps.
  - by apply state_ok_reinit.
  - done.
Qed.

(** Such an action changes no class that has its table. *)
Lemma run_keeps_prepared depth act s factory pc :
  external_keeps_store → registers_nothing act → state_ok s →
  classes s !! factory = Some pc → is_Some (pc_dispatch pc) →
  classes (run depth act s) !! factory = Some pc.
Proof.
  intros Hext Hact Hok Hc Hd. destruct act; simpl.
  - by apply lazy_extends.
  - by apply factory_call_extends.
  - by rewrite (proj1 (keeps_ok_invoke _ _ _ _ _ Hext s Hok)).
  - assert (keeps_ok (compare (invoke depth) op a b)) as Hk
      by (apply keeps_ok_compare; intros; by apply keeps_ok_invoke).
    by rewrite (proj1 (Hk s Hok)).
  - assert (keeps_ok (hash_of (invoke depth) a)) as Hk
      by (apply keeps_ok_hash_of; intros; by apply keeps_ok_invoke).
    by rewrite (proj1 (Hk s Hok)).
  - by apply allow_lazy_extends.
  - done.
  - destruct (heap s !! self) as [o|] eqn:Ho;
      [by rewrite (reinit_spec _ _ _ _ _ Hok Ho)|by rewrite reinit_missing].
  - done.
Qed.

Lemma mro_lookup_dict (ts : list string) op m :
  mro_lookup ts op = Some m → ∃ t, t ∈ ts ∧ c_dict (class_of t) !! op = Some m.
Proof.
  induction ts as [|t ts IH]; simpl; [done|].
  destruct (c_dict (class_of t) !! op) as [m'|] eqn:Ht.
  - intros [= ->]. exists t. split; [left|done].
  - intros (t' & ? & ?)%IH. exists t'. split; [by right|done].
Qed.

Lemma mro_lookup_defined (ts : list string) op :
  is_Some (mro_lookup ts op) ↔ ∃ t, t ∈ ts ∧ is_Some (c_dict (class_of t) !! op).
Proof.
  induction ts as [|t ts IH]; simpl.
  - split; [by intros [? ?]|]. by intros (? & ?%elem_of_nil & _).
  - destruct (c_dict (class_of t) !! op) as [m'|] eqn:Ht.
    + split; [|by eauto]. intros _. exists t. rewrite Ht. split; [left|eauto].
    + rewrite IH. split.
      * intros (t' & ? & ?). exists t'. split; [by right|done].
      * intros (t' & [->|?]%elem_of_cons & Hs); [|by eauto].
        rewrite Ht in Hs. by destruct Hs.
Qed.

Lemma prepare_class_outcome_cases pc :
  (__prepare_class__ pc).1 = Ok () ∨ (__prepare_class__ pc).1 = Raise (AssertionError both_types_msg).
Proof. unfold __prepare_class__. destruct (_ && _); auto. Qed.

Lemma factory_call_trace s factory args kw :
  trace (factory_call factory args kw s).2 = trace s.
Proof.
  destruct (classes s !! factory) as [pc|] eqn:Hc;
    [|by rewrite factory_call_missing].
  rewrite (factory_call_unfold _ _ _ _ _ Hc). by destruct (pc_dispatch pc).
Qed.

Lemma factory_call_other s factory args kw cid :
  cid ≠ factory → classes (factory_call factory args kw s).2 !! cid = classes s !! cid.
Proof.
  intros Hne. destruct (classes s !! factory) as [pc|] eqn:Hc;
    [|by rewrite factory_call_missing].
  rewrite (factory_call_unfold _ _ _ _ _ Hc). destruct (pc_dispatch pc); simpl; [done|].
  by rewrite list_lookup_insert_ne.
Qed.

(** Only a construction by the factory itself prepares its class. *)
Lemma run_keeps_unprepared depth act s factory f (rcs : list string) :
  external_keeps_store → state_ok s →
  classes s !! factory = Some (fresh_class f rcs) →
  (∀ args kw, act ≠ ACall factory args kw) →
  classes (run depth act s) !! factory = Some (fresh_class f rcs).
Proof.
  intros Hext Hok Hc Hact.
  assert (factory < length (classes s)) as Hlt by (by eapply lookup_lt_Some).
  destruct act; simpl.
  - by apply lookup_app_l_Some.
  - rewrite factory_call_other; [done|]. intros ->. by eapply Hact.
  - by rewrite (proj1 (keeps_ok_invoke _ _ _ _ _ Hext s Hok)).
  - assert (keeps_ok (compare (invoke depth) op a b)) as Hk
      by (apply keeps_ok_compare; intros; by apply keeps_ok_invoke).
    by rewrite (proj1 (Hk s Hok)).
  - assert (keeps_ok (hash_of (invoke depth) a)) as Hk
      by (apply keeps_ok_hash_of; intros; by apply keeps_ok_invoke).
    by rewrite (proj1 (Hk s Hok)).
  - unfold allow_lazy, wrapper. destruct (existsb _ _); [|done].
    change (classes (factory_call (length (classes s)) args kw
                       (lazy func resultclasses s).2).2 !! factory
            = Some (fresh_class f rcs)).
    rewrite factory_call_other by lia. simpl. by apply lookup_app_l_Some.
  - done.
  - destruct (heap s !! self) as [o|] eqn:Ho;
      [by rewrite (reinit_spec _ _ _ _ _ Hok Ho)|by rewrite reinit_missing].
  - unfold promise_call, set_class, mbind, M_bind, get_obj, get_class.
    destruct (heap s !! self) as [o|] eqn:Ho; [|done]. simpl.
    destruct (proj2 Hok _ _ Ho) as (pc & Hpc & Hprep). rewrite Hpc. simpl.
    rewrite Hprep, prepared_dispatch. simpl.
    rewrite list_lookup_insert_ne; [done|]. intros <-.
    rewrite Hc in Hpc. injection Hpc as <-.
    apply (f_equal pc_dispatch) in Hprep. by rewrite prepared_dispatch in Hprep.
Qed.

(** ** The methods of the proxy class *)

Lemma own_method_cmp rec op self other :
  own_method rec (cmp_name op) self [other] [] = proxy_cmp rec op self other.
Proof. destruct op; unfold own_method; simpl; repeat case_decide; done. Qed.

Lemma own_method_hash rec self :
  own_method rec "__hash__" self [] [] = __hash__ rec self.
Proof. unfold own_method; repeat case_decide; done. Qed.

Lemma own_method_deepcopy rec self memo :
  own_method rec "__deepcopy__" self [memo] [] = __deepcopy__ self memo.
Proof. unfold own_method; repeat case_decide; done. Qed.

Lemma cmp_name_body op : cmp_name op ∈ body_attrs.
Proof. destruct op; simpl; unfold body_attrs; in_list. Qed.

Lemma hash_body : "__hash__" ∈ body_attrs.
Proof. unfold body_attrs; in_list. Qed.

Lemma deepcopy_body : "__deepcopy__" ∈ body_attrs.
Proof. unfold body_attrs; in_list. Qed.

Lemma invoke_cmp_raw n op s self f (rcs : list string) args kw other :
  is_proxy s self f rcs args kw → is_promise other = false →
  (∀ l, cast_outcome rcs (fn_body f args kw (trace s)) ≠ Ok (VPromise l)) →
  invoke (S n) self (cmp_name op) [other] [] s
  = (match cast_outcome rcs (fn_body f args kw (trace s)) with
     | Ok r => py_cmp op r other
     | Raise e => Raise e
     end, record_call f args kw s).
Proof.
  intros Hp Ho Hr.
  rewrite (invoke_own _ _ _ _ _ _ _ _ _ _ Hp (cmp_name_body op)), own_method_cmp.
  by apply proxy_cmp_raw.
Qed.

Lemma invoke_hash_raw n s self f (rcs : list string) args kw :
  is_proxy s self f rcs args kw →
  (∀ l, cast_outcome rcs (fn_body f args kw (trace s)) ≠ Ok (VPromise l)) →
  invoke (S n) self "__hash__" [] [] s
  = (match cast_outcome rcs (fn_body f args kw (trace s)) with
     | Ok r => py_hash r
     | Raise e => Raise e
     end, record_call f args kw s).
Proof.
  intros Hp Hr.
  rewrite (invoke_own _ _ _ _ _ _ _ _ _ _ Hp hash_body), own_method_hash.
  by apply proxy_hash_raw.
Qed.

Lemma invoke_deepcopy n s self f (rcs : list string) args kw (memo : nat) m :
  is_proxy s self f rcs args kw → dicts s !! memo = Some m →
  invoke (S n) self "__deepcopy__" [VDict memo] [] s
  = (Ok (VPromise self),
     State (classes s) (heap s) (<[memo := <[self := VPromise self]> m]> (dicts s)) (trace s)).
Proof.
  intros Hp Hm.
  rewrite (invoke_own _ _ _ _ _ _ _ _ _ _ Hp deepcopy_body), own_method_deepcopy.
  unfold __deepcopy__, dict_set, mbind, M_bind. by rewrite Hm.
Qed.

Lemma own_method_text_cast rec self :
  own_method rec "_proxy____text_cast" self [] [] = __text_cast self.
Proof. unfold own_method; repeat case_decide; done. Qed.

Lemma own_method_bytes_cast rec self :
  own_method rec "_proxy____bytes_cast" self [] [] = __bytes_cast self.
Proof. unfold own_method; repeat case_decide; done. Qed.

Lemma invoke_text_conversion n s self f (rcs : list string) args kw :
  is_proxy s self f rcs args kw → text_type ∈ rcs → bytes_cls ∉ rcs →
  invoke (S n) self (if PY3 then "__str__" else "__unicode__") [] [] s
  = (fn_body f args kw (trace s), record_call f args kw s).
Proof.
  intros Hp Ht Hb. simpl. unfold invoke_body, mbind, M_bind.
  rewrite (class_of_obj_spec _ _ _ _ _ _ Hp). rewrite (prepared_text_attr f rcs Ht Hb).
  rewrite own_method_text_cast. unfold __text_cast. by apply (force_spec _ _ _ rcs).
Qed.

Lemma invoke_bytes_conversion n s self f (rcs : list string) args kw :
  is_proxy s self f rcs args kw → bytes_cls ∈ rcs → text_type ∉ rcs →
  invoke (S n) self (if PY3 then "__bytes__" else "__str__") [] [] s
  = (match fn_body f args kw (trace s) with
     | Ok v => py_bytes v
     | Raise e => Raise e
     end, record_call f args kw s).
Proof.
  intros Hp Hb Ht. simpl. unfold invoke_body, mbind, M_bind.
  rewrite (class_of_obj_spec _ _ _ _ _ _ Hp). rewrite (prepared_bytes_attr f rcs Hb Ht).
  rewrite own_method_bytes_cast. unfold __bytes_cast, mbind, M_bind.
  rewrite (force_spec _ _ _ _ _ _ Hp). by destruct (fn_body f args kw (trace s)).
Qed.

(** ** Formatting *)

Lemma own_method_mod rec self rhs :
  own_method rec "__mod__" self [rhs] [] = __mod__ rec self rhs.
Proof. unfold own_method; repeat case_decide; done. Qed.

Lemma mod_body : "__mod__" ∈ body_attrs.
Proof. unfold body_attrs; in_list. Qed.

Lemma modulo_raw rec a b s :
  is_promise a = false → is_promise b = false →
  modulo rec a b s = (py_mod a b, s).
Proof. by destruct a, b. Qed.

(** [__mod__] with a right operand that is not a promise, on a proxy of a
    class whose preparation went through: the computation runs once, and
    [%] is applied to what the conversion or the cast makes of its result. *)
Lemma invoke_mod_raw n s self f (rcs : list string) args kw rhs :
  is_proxy s self f rcs args kw → conflicting rcs = false → is_promise rhs = false →
  (∀ l, mod_operand rcs (fn_body f args kw (trace s)) ≠ Ok (VPromise l)) →
  invoke (S (S n)) self "__mod__" [rhs] [] s
  = (match mod_operand rcs (fn_body f args kw (trace s)) with
     | Ok c => py_mod c rhs
     | Raise e => Raise e
     end, record_call f args kw s).
Proof.
  intros Hp Hconf Hrhs Hop.
  assert (∀ c s', mod_operand rcs (fn_body f args kw (trace s)) = Ok c →
            modulo (invoke (S n)) c rhs s' = (py_mod c rhs, s')) as Hmod.
  { intros c s' Hc. apply modulo_raw; [|done].
    destruct c; try done. by destruct (Hop l). }
  clear Hop.
  rewrite (invoke_own _ _ _ _ _ _ _ _ _ _ Hp mod_body), own_method_mod.
  unfold __mod__, mbind, M_bind. rewrite (get_flag_bytes _ _ _ _ _ _ Hp).
  unfold mod_operand in *. unfold conflicting in Hconf.
  destruct (decide (bytes_cls ∈ rcs)) as [Hb|Hb];
    rewrite ?(bool_decide_true _ Hb), ?(bool_decide_false _ Hb) in *.
  - assert (text_type ∉ rcs) as Ht.
    { intros Ht. by rewrite (bool_decide_true _ Ht) in Hconf. }
    rewrite (bool_decide_false _ Ht) in *.
    pose proof (invoke_bytes_conversion n s self f rcs args kw Hp Hb Ht) as Hconv.
    destruct PY3 eqn:Hpy; cbn [andb negb] in *.
    + rewrite (get_flag_text _ _ _ _ _ _ Hp), (bool_decide_false _ Ht).
      rewrite (cast_spec _ _ _ _ _ _ Hp).
      destruct (cast_outcome rcs (fn_body f args kw (trace s))) as [c|e]; [|done].
      by apply Hmod.
    + unfold convert, mbind, M_bind. rewrite Hconv.
      destruct (fn_body f args kw (trace s)) as [v|e]; [|done].
      destruct (py_bytes v) as [b|e]; [|done]. unfold lift.
      destruct (py_converted "__str__" b) as [c|e]; [|done].
      by apply Hmod.
  - cbn [andb negb] in *. rewrite (get_flag_text _ _ _ _ _ _ Hp).
    destruct (decide (text_type ∈ rcs)) as [Ht|Ht];
      rewrite ?(bool_decide_true _ Ht), ?(bool_decide_false _ Ht) in *.
    + pose proof (invoke_text_conversion n s self f rcs args kw Hp Ht Hb) as Hconv.
      unfold convert, mbind, M_bind. rewrite Hconv.
      destruct (fn_body f args kw (trace s)) as [v|e]; [|done]. unfold lift.
      destruct (py_converted _ v) as [c|e]; [|done].
      by apply Hmod.
    + rewrite (cast_spec _ _ _ _ _ _ Hp).
      destruct (cast_outcome rcs (fn_body f args kw (trace s))) as [c|e]; [|done].
      by apply Hmod.
Qed.

(** ** Comparisons and hashing stay clear of the dispatch table *)

Lemma quiet_keeps s s' : classes s' = classes s → quiet s → quiet s'.
Proof. intros Hc (H1 & H2). split; [|done]. by rewrite Hc. Qed.

Lemma force_quiet s self : quiet s → (force self s).1 ≠ Raise type_contract_violation.
Proof.
  intros (Hq & _). unfold force, mbind, M_bind, get_obj, get_class.
  destruct (heap s !! self) as [o|]; [|done]. simpl.
  destruct (classes s !! po_class o) as [pc|] eqn:Hc; [|done]. simpl.
  by eapply Hq.
Qed.

Lemma bytes_cast_quiet s self :
  quiet s → (__bytes_cast self s).1 ≠ Raise type_contract_violation.
Proof.
  intros Hq. pose proof (force_quiet s self Hq) as Hf.
  unfold __bytes_cast, mbind, M_bind.
  destruct (force self s) as [[r|e] s1]; [|done]. simpl.
  apply Hq.
Qed.

Lemma cast_quiet s self : quiet s → (__cast self s).1 ≠ Raise type_contract_violation.
Proof.
  intros Hq. unfold __cast, mbind, M_bind.
  assert (∀ name, ∃ r, get_flag name self s = (r, s)) as Hflag.
  { intros name. unfold get_flag, class_of_obj, mbind, M_bind, get_obj, get_class.
    destruct (heap s !! self) as [o|]; [|by eauto]. simpl.
    destruct (classes s !! po_class o) as [pc|]; [|by eauto]. simpl.
    destruct (pc_attrs pc !! name) as [[]|]; by eauto. }
  assert (∀ name, (get_flag name self s).1 ≠ Raise type_contract_violation) as Hne.
  { intros name. unfold get_flag, class_of_obj, mbind, M_bind, get_obj, get_class.
    destruct (heap s !! self) as [o|]; [|done]. simpl.
    destruct (classes s !! po_class o) as [pc|]; [|done]. simpl.
    destruct (pc_attrs pc !! name) as [[]|]; done. }
  destruct (Hflag "_delegate_bytes") as [r1 E1]. specialize (Hne "_delegate_bytes") as N1.
  rewrite E1 in N1 |- *. destruct r1 as [[|]|e]; [by apply bytes_cast_quiet| |].
  2: { simpl in *. intros [= ->]. by apply N1. }
  destruct (Hflag "_delegate_text") as [r2 E2]. specialize (Hne "_delegate_text") as N2.
  rewrite E2 in N2 |- *.
  destruct r2 as [[|]|e]; [unfold __text_cast; by apply force_quiet|by apply force_quiet|].
  simpl in *. intros [= ->]. by apply N2.
Qed.

Lemma compare_quiet rec op a b s :
  quiet s →
  (∀ l name args kw, name ∈ "__gt__" :: comparison_names →
     (rec l name args kw s).1 ≠ Raise type_contract_violation) →
  (compare rec op a b s).1 ≠ Raise type_contract_violation.
Proof.
  intros (_ & Hcmp & _ & _ & Hm & _) Hrec.
  assert (∀ op', cmp_name op' ∈ "__gt__" :: comparison_names) as Hn1.
  { intros []; simpl; unfold comparison_names; in_list. }
  assert (∀ op', reflected op' ∈ "__gt__" :: comparison_names) as Hn2.
  { intros []; simpl; unfold comparison_names; in_list. }
  destruct a; simpl; try (by apply Hrec);
    (destruct b; simpl; try apply Hcmp;
     destruct (py_cmp_method op _ _) as [o|] eqn:E; [|by apply Hrec];
     simpl; intros ->; by eapply Hm).
Qed.

Lemma proxy_cmp_quiet rec op self other s :
  state_ok s → quiet s →
  (∀ s' l name args kw, state_ok s' → quiet s' → name ∈ "__gt__" :: comparison_names →
     (rec l name args kw s').1 ≠ Raise type_contract_violation) →
  (proxy_cmp rec op self other s).1 ≠ Raise type_contract_violation.
Proof.
  intros Hok Hq Hrec. unfold proxy_cmp, mbind, M_bind.
  set (m1 := match other with VPromise o => __cast o | _ => ret other end).
  assert (keeps_store m1) as Hk1.
  { subst m1. destruct other; solve [apply keeps_ret | apply keeps_cast]. }
  assert ((m1 s).1 ≠ Raise type_contract_violation) as Hn1.
  { subst m1. destruct other; try done. by apply cast_quiet. }
  specialize (Hk1 s). destruct (m1 s) as [[other'|e] s1]; simpl in *; [|done].
  destruct Hk1 as [Hc1 Hh1].
  assert (state_ok s1) as Hok1 by (by eapply state_ok_keeps).
  assert (quiet s1) as Hq1 by (by eapply quiet_keeps).
  pose proof (keeps_cast self s1) as [Hc2 Hh2].
  pose proof (cast_quiet s1 self Hq1) as Hn2.
  destruct (__cast self s1) as [[r|e] s2]; simpl in *; [|done].
  assert (state_ok s2) as Hok2 by (by eapply state_ok_keeps).
  assert (quiet s2) as Hq2 by (by eapply quiet_keeps).
  apply compare_quiet; [done|]. intros. by apply Hrec.
Qed.

Lemma proxy_hash_quiet rec self s :
  state_ok s → quiet s →
  (∀ s' l name args kw, state_ok s' → quiet s' → name ∈ "__gt__" :: comparison_names →
     (rec l name args kw s').1 ≠ Raise type_contract_violation) →
  (__hash__ rec self s).1 ≠ Raise type_contract_violation.
Proof.
  intros Hok Hq Hrec. unfold __hash__, mbind, M_bind.
  pose proof (keeps_cast self s) as [Hc2 Hh2].
  pose proof (cast_quiet s self Hq) as Hn2.
  destruct (__cast self s) as [[r|e] s2]; simpl in *; [|done].
  assert (state_ok s2) as Hok2 by (by eapply state_ok_keeps).
  assert (quiet s2) as Hq2 by (by eapply quiet_keeps).
  destruct r; simpl; try apply Hq2.
  apply Hrec; [done..|]. unfold comparison_names; in_list.
Qed.

Lemma comparison_names_body name : name ∈ comparison_names → name ∈ body_attrs.
Proof.
  intros Hn. apply list_elem_of_In in Hn. simpl in Hn.
  destruct Hn as [<-|[<-|[<-|[<-|[]]]]]; unfold body_attrs; in_list.
Qed.

Lemma class_ok_attr pc k :
  class_ok pc → k ∈ own_attrs →
  k ∉ ["_delegate_bytes"; "_delegate_text"; "__str__"; "__unicode__"; "__bytes__"] →
  pc_attrs pc !! k = Some (AOwn k).
Proof.
  intros [Hpc|Hpc] Hk Hs; rewrite Hpc.
  - simpl. by apply initial_attrs_own.
  - by apply prepared_attrs_own.
Qed.

(** The comparisons, hashing, and the ordering that Python calls on a
    promise to the right of [<]. *)
Lemma invoke_ordering_quiet depth s self name args kw :
  state_ok s → quiet s → name ∈ "__gt__" :: comparison_names →
  (invoke depth self name args kw s).1 ≠ Raise type_contract_violation.
Proof.
  revert s self name args kw.
  induction depth as [|n IH]; intros s self name args kw Hok Hq Hname; [done|].
  simpl. unfold invoke_body, class_of_obj, mbind, M_bind, get_obj, get_class.
  destruct (heap s !! self) as [o|]; [|done]. simpl.
  destruct (classes s !! po_class o) as [pc|] eqn:Hc; [|done]. simpl.
  apply elem_of_cons in Hname as [->|Hname].
  - rewrite (class_ok_attr pc "__gt__"); [|by eapply (proj1 Hok)| |].
    + unfold own_method. repeat case_decide; try done;
        try (exfalso; intuition congruence). apply Hq.
    + unfold own_attrs, total_ordering_attrs. apply elem_of_app. right.
      apply elem_of_app. left. in_list.
    + intros Hin. apply list_elem_of_In in Hin. simpl in Hin. intuition congruence.
  - rewrite (class_ok_body_attr pc name);
      [|by eapply (proj1 Hok)|by apply comparison_names_body].
    unfold own_method.
    repeat case_decide; try (destruct args as [|? [|? ?]]; destruct kw); try done;
      solve [ apply proxy_cmp_quiet; auto | apply proxy_hash_quiet; auto
            | exfalso; apply list_elem_of_In in Hname; simpl in Hname;
              intuition congruence ].
Qed.

Lemma invoke_comparison_quiet depth s self name args kw :
  state_ok s → quiet s → name ∈ comparison_names →
  (invoke depth self name args kw s).1 ≠ Raise type_contract_violation.
Proof. intros Hok Hq Hname. apply invoke_ordering_quiet; [done..|by right]. Qed.

(** A comparison method of the proxy class against another promise: the
    other promise is forced first, then the receiver. *)
Lemma proxy_cmp_promises rec op s p1 p2 f1 f2 (rcs1 rcs2 : list string) a1 k1 a2 k2 v1 v2 :
  is_proxy s p1 f1 rcs1 a1 k1 → is_proxy s p2 f2 rcs2 a2 k2 →
  (∀ t, fn_body f1 a1 k1 t = Ok v1) → (∀ t, fn_body f2 a2 k2 t = Ok v2) →
  cast_outcome rcs1 (Ok v1) = Ok v1 → cast_outcome rcs2 (Ok v2) = Ok v2 →
  is_promise v1 = false → is_promise v2 = false →
  proxy_cmp rec op p1 (VPromise p2) s
  = (py_cmp op v1 v2, record_call f1 a1 k1 (record_call f2 a2 k2 s)).
Proof.
  intros Hp1 Hp2 Hf1 Hf2 Hc1 Hc2 Hv1 Hv2. unfold proxy_cmp, mbind, M_bind.
  rewrite (cast_spec _ _ _ _ _ _ Hp2), Hf2, Hc2.
  rewrite (cast_spec _ _ f1 rcs1 a1 k1) by (by apply is_proxy_record).
  rewrite Hf1, Hc1. by apply compare_raw.
Qed.

Lemma allow_lazy_eager s f (rcs : list string) args (kw : kwargs) :
  existsb is_promise (args ++ kw.*2) = false →
  allow_lazy f rcs args kw s = (fn_body f args kw (trace s), record_call f args kw s).
Proof. intros Hno. unfold allow_lazy, wrapper. by rewrite Hno. Qed.

Lemma allow_lazy_deferred s f (rcs : list string) args (kw : kwargs) :
  existsb is_promise (args ++ kw.*2) = true →
  allow_lazy f rcs args kw s
  = factory_call (length (classes s)) args kw (lazy f rcs s).2.
Proof. intros Hsome. unfold allow_lazy, wrapper. by rewrite Hsome. Qed.

Lemma factory_call_is_proxy s factory f (rcs : list string) args kw :
  classes s !! factory = Some (fresh_class f rcs) ∨
  classes s !! factory = Some (prepared_class f rcs) →
  conflicting rcs = false →
  (factory_call factory args kw s).1 = Ok (VPromise (length (heap s))) ∧
  is_proxy (factory_call factory args kw s).2 (length (heap s)) f rcs args kw.
Proof.
  intros [Hc|Hc] Hconf.
  - rewrite (factory_call_first _ _ _ _ _ _ Hc), Hconf. split; [done|].
    exists factory. simpl. split; [by rewrite list_lookup_middle|].
    apply list_lookup_insert_eq. by eapply lookup_lt_Some.
  - rewrite (factory_call_unfold _ _ _ _ _ Hc), prepared_dispatch. split; [done|].
    exists factory. simpl. split; [by rewrite list_lookup_middle|done].
Qed.

Lemma created_is_proxy s f (rcs : list string) args kw :
  is_proxy (factory_call (length (classes s)) args kw (lazy f rcs s).2).2
           (length (heap s)) f rcs args kw.
Proof.
  rewrite (factory_call_first _ _ f rcs) by apply lazy_class.
  exists (length (classes s)). simpl. split.
  - by rewrite list_lookup_middle.
  - apply list_lookup_insert_eq. rewrite length_app. simpl. lia.
Qed.

End Facts.

(** * The claims *)

Section Claims.
Context `{Python} `{External}.

(** C2.  Ancestor override law.  [sub] derives from [base] and both define
    [op]; the factory declared [sub].  Then the entry of the table for
    [(sub, op)] is the definition of [sub], and the dispatched operation
    [op] on a proxy whose computation yields an instance of [sub] returns
    what the definition of [sub] returns: the definition of [base] plays no
    part. *)
Theorem ancestor_override_law s self f (rcs : list string) args kw
    (sub base op : string) (m_sub m_base : method) res n a k :
  is_proxy s self f rcs args kw →
  sub ∈ rcs →
  base ∈ c_ancestors (class_of sub) →
  c_dict (class_of sub) !! op = Some m_sub →
  c_dict (class_of base) !! op = Some m_base →
  dispatched f rcs op →
  fn_body f args kw (trace s) = Ok res →
  type_of res = sub →
  (∃ ops, table rcs !! sub = Some ops ∧ ops !! op = Some m_sub) ∧
  (invoke (S n) self op a k s).1 = m_sub res a k.
Proof.
  intros Hp Hin Hbase Hsub _ Hd Hres Hty.
  assert (resolved sub !! op = Some m_sub) as Hop.
  { rewrite resolved_lookup. simpl. by rewrite Hsub. }
  split.
  - exists (resolved sub). by rewrite table_lookup, bool_decide_true.
  - rewrite (invoke_dispatched _ _ _ _ _ _ _ _ _ _ Hp Hd).
    rewrite (wrapper_spec _ _ _ _ _ _ _ _ _ Hp). simpl.
    rewrite Hres. unfold dispatch_outcome. rewrite Hty.
    unfold mro at 1. rewrite first_declared_head by done. by rewrite Hop.
Qed.

(** C4.  A dispatched operation on a proxy whose computation yields [res]
    raises the type-contract violation exactly when no class in the ancestor
    chain of the type of [res] is among the declared result classes (the
    methods of the result classes are taken not to raise that very error on
    their own).  Constructing a proxy never raises it and never runs the
    computation. *)
Theorem type_contract_violation_iff s self f (rcs : list string) args kw op res n a k :
  is_proxy s self f rcs args kw →
  dispatched f rcs op →
  fn_body f args kw (trace s) = Ok res →
  (∀ t (m : method), c_dict (class_of t) !! op = Some m →
     m res a k ≠ Raise type_contract_violation) →
  ((invoke (S n) self op a k s).1 = Raise type_contract_violation
   ↔ ∀ t, t ∈ mro (type_of res) → t ∉ rcs) ∧
  (∀ s0 factory args0 kw0,
     (factory_call factory args0 kw0 s0).1 ≠ Raise type_contract_violation ∧
     trace (factory_call factory args0 kw0 s0).2 = trace s0).
Proof.
  intros Hp Hd Hres Hm. split.
  - rewrite (invoke_dispatched _ _ _ _ _ _ _ _ _ _ Hp Hd).
    rewrite (wrapper_spec _ _ _ _ _ _ _ _ _ Hp). simpl.
    rewrite Hres. unfold dispatch_outcome.
    rewrite <-first_declared_none.
    destruct (first_declared (table rcs) (mro (type_of res))) as [ops|] eqn:Hfd; [|done].
    split; [|done]. intros Hraise. exfalso.
    destruct (ops !! op) as [m|] eqn:Hop; [|done].
    assert (∃ t, c_dict (class_of t) !! op = Some m) as [t Ht].
    { clear Hraise. revert Hfd. generalize (mro (type_of res)).
      intros ts. induction ts as [|t ts IH]; simpl; [done|].
      rewrite table_lookup. case_bool_decide; [|done].
      intros [= <-]. rewrite resolved_lookup in Hop.
      apply mro_lookup_dict in Hop as (t' & _ & ?). eauto. }
    by eapply Hm.
  - intros s0 factory args0 kw0. split; [|apply factory_call_trace].
    destruct (classes s0 !! factory) as [pc|] eqn:Hc;
      [|by rewrite factory_call_missing].
    rewrite (factory_call_unfold _ _ _ _ _ Hc).
    destruct (pc_dispatch pc); simpl; [done|].
    by destruct (prepare_class_outcome_cases pc) as [-> | ->].
Qed.


(** C7.  Deep-copying a proxy returns the very same object: the result is
    the reference that was copied, no object is created and none changes. *)
Theorem deepcopy_returns_the_proxy s self f (rcs : list string) args kw (memo : nat) m n :
  is_proxy s self f rcs args kw →
  dicts s !! memo = Some m →
  (invoke (S n) self "__deepcopy__" [VDict memo] [] s).1 = Ok (VPromise self) ∧
  heap (invoke (S n) self "__deepcopy__" [VDict memo] [] s).2 = heap s ∧
  classes (invoke (S n) self "__deepcopy__" [VDict memo] [] s).2 = classes s.
Proof.
  intros Hp Hm. by rewrite (invoke_deepcopy _ _ _ _ _ _ _ _ _ Hp Hm).
Qed.

(** C10.  Deep-copying a proxy does not run the wrapped computation, and
    it records the proxy in the memo under its own identity; copying it once
    more with that memo gives the same object again and changes nothing. *)
Theorem deepcopy_never_forces s self f (rcs : list string) args kw (memo : nat) m n :
  is_proxy s self f rcs args kw →
  dicts s !! memo = Some m →
  let r := invoke (S n) self "__deepcopy__" [VDict memo] [] s in
  trace r.2 = trace s ∧
  dicts r.2 !! memo = Some (<[self := VPromise self]> m) ∧
  (dicts r.2 !! memo) ≫= (λ recorded, recorded !! self) = Some (VPromise self) ∧
  invoke (S n) self "__deepcopy__" [VDict memo] [] r.2 = (Ok (VPromise self), r.2).
Proof.
  intros Hp Hm r. subst r. rewrite (invoke_deepcopy _ _ _ _ _ _ _ _ _ Hp Hm).
  cbn [fst snd].
  set (s' := State (classes s) (heap s)
                   (<[memo := <[self := VPromise self]> m]> (dicts s)) (trace s)).
  assert (memo < length (dicts s)) as Hlt by (by eapply lookup_lt_Some).
  assert (dicts s' !! memo = Some (<[self := VPromise self]> m)) as Hm'
    by (by apply list_lookup_insert_eq).
  assert (is_proxy s' self f rcs args kw) as Hp' by (by eapply is_proxy_frame).
  split; [done|]. split; [exact Hm'|]. split.
  - rewrite Hm'. simpl. by rewrite lookup_insert_eq.
  - rewrite (invoke_deepcopy _ _ _ _ _ _ _ _ _ Hp' Hm'). subst s'. simpl.
    by rewrite insert_insert_eq, list_insert_insert_eq.
Qed.

(** C9.  Equality, inequality, ordering and hashing are attributes of the
    proxy class itself whatever the result classes define; they never raise
    the type-contract violation (no computation and no built-in operation
    raising it on its own); and against an operand that is not a promise
    they force the computation through the cast and apply the built-in
    operation to what it yields, with no condition on the type of the
    result. *)
Theorem comparisons_bypass_dispatch s self f (rcs : list string) args kw :
  state_ok s → quiet s → is_proxy s self f rcs args kw →
  (∀ name, name ∈ comparison_names →
     pc_attrs (prepared_class f rcs) !! name = Some (AOwn name)) ∧
  (∀ depth name a k, name ∈ comparison_names →
     (invoke depth self name a k s).1 ≠ Raise type_contract_violation) ∧
  (∀ n op other,
     is_promise other = false →
     (∀ l, cast_outcome rcs (fn_body f args kw (trace s)) ≠ Ok (VPromise l)) →
     invoke (S n) self (cmp_name op) [other] [] s
     = (match cast_outcome rcs (fn_body f args kw (trace s)) with
        | Ok r => py_cmp op r other
        | Raise e => Raise e
        end, record_call f args kw s)) ∧
  (∀ n,
     (∀ l, cast_outcome rcs (fn_body f args kw (trace s)) ≠ Ok (VPromise l)) →
     invoke (S n) self "__hash__" [] [] s
     = (match cast_outcome rcs (fn_body f args kw (trace s)) with
        | Ok r => py_hash r
        | Raise e => Raise e
        end, record_call f args kw s)).
Proof.
  intros Hok Hq Hp. repeat split.
  - intros name Hn. by apply prepared_body_attr, comparison_names_body.
  - intros depth name a k Hn. by apply invoke_comparison_quiet.
  - intros n op other Ho Hr. by apply invoke_cmp_raw.
  - intros n Hr. by apply invoke_hash_raw.
Qed.

(** C3, as the code has it.  With both the byte-sequence and the text class
    among the result classes, [lazy] itself returns a factory; the first
    construction by that factory raises the configuration error, returns no
    proxy and does not run the computation. *)
Theorem conflicting_classes_fail_at_first_construction f (rcs : list string) args kw s :
  bytes_cls ∈ rcs → text_type ∈ rcs →
  (lazy f rcs s).1 = Ok (length (classes s)) ∧
  classes (lazy f rcs s).2 !! length (classes s) = Some (fresh_class f rcs) ∧
  (∀ s1 factory,
     classes s1 !! factory = Some (fresh_class f rcs) →
     (factory_call factory args kw s1).1 = Raise (AssertionError both_types_msg) ∧
     trace (factory_call factory args kw s1).2 = trace s1).
Proof.
  intros Hb Ht. split; [done|]. split; [apply lazy_class|].
  intros s1 factory Hc. split; [|apply factory_call_trace].
  rewrite (factory_call_first _ _ _ _ _ _ Hc). simpl.
  unfold conflicting. by rewrite !bool_decide_true.
Qed.

(** C8, as the code has it.  With no promise among the positional and
    keyword arguments the computation runs at once and its outcome is
    returned, no proxy being created.  With a promise among them the
    computation does not run, and unless the result classes hold both the
    byte-sequence and the text class a new proxy of a new factory for the same
    computation and arguments is returned. *)
Theorem allow_lazy_routes f (rcs : list string) args (kw : kwargs) s :
  (existsb is_promise (args ++ kw.*2) = false →
     allow_lazy f rcs args kw s = (fn_body f args kw (trace s), record_call f args kw s)) ∧
  (existsb is_promise (args ++ kw.*2) = true →
     trace (allow_lazy f rcs args kw s).2 = trace s ∧
     (conflicting rcs = false →
        (allow_lazy f rcs args kw s).1 = Ok (VPromise (length (heap s))) ∧
        heap s !! length (heap s) = None ∧
        is_proxy (allow_lazy f rcs args kw s).2 (length (heap s)) f rcs args kw)).
Proof.
  split; [apply allow_lazy_eager|].
  intros Hsome. rewrite allow_lazy_deferred by done.
  split; [by rewrite factory_call_trace|].
  intros Hconf. split; [|split].
  - rewrite (factory_call_first _ _ f rcs) by apply lazy_class. by rewrite Hconf.
  - by apply lookup_ge_None.
  - apply created_is_proxy.
Qed.

(** C6, as the code has it.  Two proxies whose computations always yield the
    same values [v1] and [v2], and whose casts return those values as they
    are (their factories do not declare the byte-sequence class, or the
    values are byte sequences already): comparing the proxies, in either
    order, and comparing one of them with a value that is not a promise,
    gives what comparing the yielded values gives.  So the proxies are equal
    when the values are, and their equality is symmetric when that of the
    values is. *)
Theorem proxy_equality_consistent s p1 p2 f1 f2 (rcs1 rcs2 : list string)
    a1 k1 a2 k2 v1 v2 x n :
  is_proxy s p1 f1 rcs1 a1 k1 → is_proxy s p2 f2 rcs2 a2 k2 →
  (∀ t, fn_body f1 a1 k1 t = Ok v1) → (∀ t, fn_body f2 a2 k2 t = Ok v2) →
  is_promise v1 = false → is_promise v2 = false → is_promise x = false →
  cast_outcome rcs1 (Ok v1) = Ok v1 → cast_outcome rcs2 (Ok v2) = Ok v2 →
  (compare (invoke (S n)) Eq_ (VPromise p1) (VPromise p2) s).1 = py_cmp Eq_ v1 v2 ∧
  (compare (invoke (S n)) Eq_ (VPromise p2) (VPromise p1) s).1 = py_cmp Eq_ v2 v1 ∧
  (compare (invoke (S n)) Eq_ (VPromise p1) x s).1 = py_cmp Eq_ v1 x ∧
  (py_cmp Eq_ v1 v2 = Ok (VBool true) →
   (compare (invoke (S n)) Eq_ (VPromise p1) (VPromise p2) s).1 = Ok (VBool true)) ∧
  (py_cmp Eq_ v1 v2 = py_cmp Eq_ v2 v1 →
   (compare (invoke (S n)) Eq_ (VPromise p1) (VPromise p2) s).1
   = (compare (invoke (S n)) Eq_ (VPromise p2) (VPromise p1) s).1).
Proof.
  intros Hp1 Hp2 Hf1 Hf2 Hv1 Hv2 Hx Hc1 Hc2. unfold compare.
  assert ((invoke (S n) p1 (cmp_name Eq_) [VPromise p2] [] s).1 = py_cmp Eq_ v1 v2) as H12.
  { rewrite (invoke_own _ _ _ _ _ _ _ _ _ _ Hp1 (cmp_name_body Eq_)), own_method_cmp.
    rewrite (proxy_cmp_promises _ _ _ _ _ f1 f2 rcs1 rcs2 a1 k1 a2 k2 v1 v2); done. }
  assert ((invoke (S n) p2 (cmp_name Eq_) [VPromise p1] [] s).1 = py_cmp Eq_ v2 v1) as H21.
  { rewrite (invoke_own _ _ _ _ _ _ _ _ _ _ Hp2 (cmp_name_body Eq_)), own_method_cmp.
    rewrite (proxy_cmp_promises _ _ _ _ _ f2 f1 rcs2 rcs1 a2 k2 a1 k1 v2 v1); done. }
  split; [exact H12|]. split; [exact H21|]. split; [|split].
  - assert (cast_outcome rcs1 (fn_body f1 a1 k1 (trace s)) = Ok v1) as Hc
      by (by rewrite Hf1).
    rewrite (invoke_cmp_raw _ _ _ _ _ _ _ _ _ Hp1 Hx); rewrite Hc; [done|].
    intros l [= ->]. done.
  - intros Heq. by rewrite H12.
  - intros Heq. by rewrite H12, H21.
Qed.


End Claims.

(** * The claims on concrete runs *)

Import Example.

Lemma s_int_proxy : is_proxy s_int 0 f_three ["int"] [] [].
Proof. exists 0. split; vm_compute; reflexivity. Qed.

Lemma s_int_memo_proxy : is_proxy s_int_memo 0 f_three ["int"] [] [].
Proof. exists 0. split; vm_compute; reflexivity. Qed.

Lemma s_text_proxy : is_proxy s_text 0 f_text ["int"] [] [].
Proof. exists 0. split; vm_compute; reflexivity. Qed.

Lemma s_derived_proxy : is_proxy s_derived 0 f_derived ["Derived"] [] [].
Proof. exists 0. split; vm_compute; reflexivity. Qed.

Lemma s_text_classes : classes s_text = [prepared_class f_text ["int"]].
Proof. vm_compute. reflexivity. Qed.

Lemma example_builtins_quiet :
  (∀ op a b, py_cmp op a b ≠ Raise type_contract_violation) ∧
  (∀ a, py_hash a ≠ Raise type_contract_violation) ∧
  (∀ a, py_bytes a ≠ Raise type_contract_violation) ∧
  (∀ op a r, py_cmp_method op a r ≠ Some (Raise type_contract_violation)) ∧
  (∀ name self a k s', (py_external name self a k s').1 ≠ Raise type_contract_violation).
Proof.
  split; [|split; [|split; [|split]]].
  - intros op a b. destruct op, a, b; done.
  - intros a. destruct a; done.
  - intros a. destruct a; simpl; try done. by destruct (z <? 0)%Z.
  - done.
  - intros name self a k s'. simpl. unfold example_external.
    destruct (c_dict (example_class "object") !! name) as [m|] eqn:Hm; [|done].
    simpl. vm_compute in Hm.
    destruct (decide (name = "__repr__")) as [->|Hne]; [by injection Hm as <-|].
    exfalso. revert Hm. change (c_dict (example_class "object") !! name ≠ Some m).
    unfold example_class. simpl. rewrite lookup_insert_ne by done. done.
Qed.

Lemma example_outside_keeps : external_keeps_store.
Proof.
  split; [|done]. intros name self a k s. simpl. unfold example_external.
  by destruct (c_dict (example_class "object") !! name).
Qed.



(** C2, as stated, fails.  The integers derive from [object] and both define
    [__repr__]; the factory declares integers and its computation yields
    one.  The proxy class has [__repr__] from [object] already, so that the
    class preparation installs no wrapper for it: the proxy answers with the
    definition of [object], applied to the proxy itself, and the computation
    does not even run. *)
Lemma inherited_name_answers_with_base :
  is_proxy s_int 0 f_three ["int"] [] [] ∧
  "int" ∈ ["int"] ∧
  "object" ∈ c_ancestors (class_of "int") ∧
  c_dict (class_of "int") !! "__repr__" = Some int_repr ∧
  c_dict (class_of "object") !! "__repr__" = Some obj_repr ∧
  fn_body f_three [] [] (trace s_int) = Ok (VInt 3) ∧
  type_of (VInt 3) = "int" ∧
  (∃ ops, table ["int"] !! "int" = Some ops ∧ ops !! "__repr__" = Some int_repr) ∧
  pc_attrs (prepared_class f_three ["int"]) !! "__repr__" = Some (AOwn "__repr__") ∧
  invoke 1 0 "__repr__" [] [] s_int = (obj_repr (VPromise 0) [] [], s_int) ∧
  int_repr (VInt 3) [] [] = Ok (VText "<int>") ∧
  obj_repr (VPromise 0) [] [] = Ok (VText "<object>").
Proof.
  split; [exact s_int_proxy|].
  split; [in_list|].
  split; [vm_compute; in_list|].
  split; [vm_compute; reflexivity|].
  split; [vm_compute; reflexivity|].
  split; [reflexivity|].
  split; [reflexivity|].
  split; [eexists; split; vm_compute; reflexivity|].
  repeat split; vm_compute; reflexivity.
Qed.

(** A proxy declared as [Derived] answers [describe] with the definition of
    [Derived], not with that of [Base]. *)
Lemma ancestor_override_law_witness :
  (∃ ops, table ["Derived"] !! "Derived" = Some ops ∧
          ops !! "describe" = Some derived_describe) ∧
  (invoke 1 0 "describe" [] [] s_derived).1 = Ok (VText "derived").
Proof.
  apply (ancestor_override_law s_derived 0 f_derived ["Derived"] [] []
           "Derived" "Base" "describe" derived_describe base_describe
           (VInst "Derived" 0) 0 [] []).
  - exact s_derived_proxy.
  - in_list.
  - vm_compute. in_list.
  - vm_compute. reflexivity.
  - vm_compute. reflexivity.
  - vm_compute. reflexivity.
  - reflexivity.
  - reflexivity.
Defined.

(** C3, as stated, fails.  [lazy] accepts both the byte-sequence and the text
    class and returns a factory; the error comes with the first construction;
    and the second construction by the same factory returns a proxy. *)
Lemma conflicting_classes_accepted_by_lazy :
  (lazy f_three ["bytes"; "str"] init_state).1 = Ok 0 ∧
  (factory_call 0 [] [] s_conflict).1 = Raise (AssertionError both_types_msg) ∧
  (factory_call 0 [] [] (factory_call 0 [] [] s_conflict).2).1 = Ok (VPromise 1).
Proof. repeat split; vm_compute; reflexivity. Qed.

Lemma conflicting_classes_fail_at_first_construction_witness :
  (lazy f_three ["bytes"; "str"] init_state).1 = Ok 0 ∧
  (factory_call 0 [VInt 1] [] s_conflict).1 = Raise (AssertionError both_types_msg) ∧
  trace (factory_call 0 [VInt 1] [] s_conflict).2 = [].
Proof.
  destruct (conflicting_classes_fail_at_first_construction
              f_three ["bytes"; "str"] [VInt 1] [] init_state) as (Hlazy & _ & Hfirst).
  - vm_compute. in_list.
  - vm_compute. in_list.
  - split; [exact Hlazy|]. apply (Hfirst s_conflict 0). reflexivity.
Defined.

(** A lazy integer whose computation yields a text: adding to it raises the
    type-contract violation. *)
Lemma type_contract_violation_iff_witness :
  (invoke 1 0 "__add__" [VInt 1] [] s_text).1 = Raise type_contract_violation.
Proof.
  destruct (type_contract_violation_iff s_text 0 f_text ["int"] [] []
              "__add__" (VText "x") 0 [VInt 1] []) as [[_ Hraise] _].
  - exact s_text_proxy.
  - vm_compute. reflexivity.
  - reflexivity.
  - intros t m. simpl. unfold example_class.
    repeat destruct (String.eqb t _); vm_compute; intros [= <-]; discriminate.
  - apply Hraise. intros t Ht Hin.
    apply list_elem_of_In in Ht, Hin. vm_compute in Ht, Hin. intuition congruence.
Defined.



(** C6, as stated, fails.  Both computations yield the integer 3, but the
    factory of the first proxy also declares byte sequences, so that its cast
    turns the 3 into three zero bytes: the proxies are not equal, and the
    first is not equal to the value 3 either. *)
Lemma equal_values_unequal_proxies :
  (∀ t, fn_body f_three [] [] t = Ok (VInt 3)) ∧
  (∀ t, fn_body f_three' [] [] t = Ok (VInt 3)) ∧
  py_cmp Eq_ (VInt 3) (VInt 3) = Ok (VBool true) ∧
  is_proxy s_bytes_and_int 0 f_three ["bytes"; "int"] [] [] ∧
  is_proxy s_bytes_and_int 1 f_three' ["int"] [] [] ∧
  (compare (invoke 3) Eq_ (VPromise 0) (VPromise 1) s_bytes_and_int).1 = Ok (VBool false) ∧
  (compare (invoke 3) Eq_ (VPromise 0) (VInt 3) s_bytes_and_int).1 = Ok (VBool false).
Proof.
  repeat split; try (vm_compute; reflexivity).
  - exists 0. split; vm_compute; reflexivity.
  - exists 1. split; vm_compute; reflexivity.
Qed.

(** Two lazy integers that are both 3 are equal, in either order, and
    neither equals 4. *)
Lemma proxy_equality_consistent_witness :
  (compare (invoke 1) Eq_ (VPromise 0) (VPromise 1) s_two_ints).1 = Ok (VBool true) ∧
  (compare (invoke 1) Eq_ (VPromise 1) (VPromise 0) s_two_ints).1 = Ok (VBool true) ∧
  (compare (invoke 1) Eq_ (VPromise 0) (VInt 4) s_two_ints).1 = Ok (VBool false).
Proof.
  assert (is_proxy s_two_ints 0 f_three ["int"] [] []) as Hp1
    by (exists 0; split; vm_compute; reflexivity).
  assert (is_proxy s_two_ints 1 f_three' ["int"] [] []) as Hp2
    by (exists 1; split; vm_compute; reflexivity).
  assert (cast_outcome ["int"] (Ok (VInt 3)) = Ok (VInt 3)) as Hc
    by (vm_compute; reflexivity).
  destruct (proxy_equality_consistent s_two_ints 0 1 f_three f_three' ["int"] ["int"]
              [] [] [] [] (VInt 3) (VInt 3) (VInt 4) 0 Hp1 Hp2
              (λ _, eq_refl) (λ _, eq_refl) eq_refl eq_refl eq_refl Hc Hc)
    as (H12 & H21 & Hx & _).
  split; [exact H12|]. split; [exact H21|exact Hx].
Defined.

Lemma deepcopy_returns_the_proxy_witness :
  (invoke 1 0 "__deepcopy__" [VDict 0] [] s_int_memo).1 = Ok (VPromise 0) ∧
  heap (invoke 1 0 "__deepcopy__" [VDict 0] [] s_int_memo).2 = heap s_int_memo ∧
  classes (invoke 1 0 "__deepcopy__" [VDict 0] [] s_int_memo).2 = classes s_int_memo.
Proof.
  apply (deepcopy_returns_the_proxy s_int_memo 0 f_three ["int"] [] [] 0 ∅ 0).
  - exact s_int_memo_proxy.
  - reflexivity.
Defined.

Lemma deepcopy_never_forces_witness :
  trace (invoke 1 0 "__deepcopy__" [VDict 0] [] s_int_memo).2 = [] ∧
  dicts (invoke 1 0 "__deepcopy__" [VDict 0] [] s_int_memo).2 !! 0
  = Some (<[0 := VPromise 0]> ∅).
Proof.
  destruct (deepcopy_never_forces s_int_memo 0 f_three ["int"] [] [] 0 ∅ 0)
    as (Htrace & Hmemo & _).
  - exact s_int_memo_proxy.
  - reflexivity.
  - split; [exact Htrace|exact Hmemo].
Defined.

(** C8, as stated, fails.  With a promise among the arguments and both the
    byte-sequence and the text class declared, the wrapper raises the
    configuration error instead of returning a proxy. *)
Lemma allow_lazy_returns_no_proxy :
  existsb is_promise ([VPromise 0] ++ []) = true ∧
  (allow_lazy f_mul ["bytes"; "str"] [VPromise 0; VInt 2] [] s_int).1
  = Raise (AssertionError both_types_msg).
Proof. split; vm_compute; reflexivity. Qed.

(** Without promises the product is computed at once; with one, a proxy
    comes back and nothing is computed. *)
Lemma allow_lazy_routes_witness :
  allow_lazy f_mul ["int"] [VInt 1; VInt 2] [] s_int
  = (Ok (VInt 2), record_call f_mul [VInt 1; VInt 2] [] s_int) ∧
  (allow_lazy f_mul ["int"] [VPromise 0; VInt 2] [] s_int).1 = Ok (VPromise 1) ∧
  trace (allow_lazy f_mul ["int"] [VPromise 0; VInt 2] [] s_int).2 = [].
Proof.
  split.
  - apply (proj1 (allow_lazy_routes f_mul ["int"] [VInt 1; VInt 2] [] s_int)).
    reflexivity.
  - destruct (proj2 (allow_lazy_routes f_mul ["int"] [VPromise 0; VInt 2] [] s_int))
      as (Htrace & Hproxy); [reflexivity|].
    destruct Hproxy as (Hres & _); [vm_compute; reflexivity|].
    split; [exact Hres|exact Htrace].
Defined.

(** A lazy integer whose computation yields a text still compares equal to
    that text, and hashes, instead of raising the type-contract violation. *)
Lemma comparisons_bypass_dispatch_witness :
  invoke 1 0 "__eq__" [VText "x"] [] s_text
  = (Ok (VBool true), record_call f_text [] [] s_text) ∧
  (invoke 1 0 "__hash__" [] [] s_text).1 ≠ Raise type_contract_violation.
Proof.
  destruct (comparisons_bypass_dispatch s_text 0 f_text ["int"] [] [])
    as (_ & Hquiet & Hcmp & _).
  - apply state_ok_factory_call, state_ok_lazy, state_ok_init.
  - split; [|exact example_builtins_quiet].
    intros cid pc Hc. rewrite s_text_classes in Hc.
    destruct cid as [|cid]; [|by destruct cid].
    injection Hc as <-. rewrite prepared_func. intros a k t. discriminate.
  - exact s_text_proxy.
  - split.
    + apply (Hcmp 0 Eq_ (VText "x")); [reflexivity|]. intros l. discriminate.
    + apply Hquiet. unfold comparison_names. in_list.
Defined.

(** * Further properties of the proxy machinery *)

Section MoreOnProxies.
Context `{Python} `{External}.

Lemma prepare_loops_origin (rcs : list string) k x :
  (prepare_loops rcs (∅, initial_attrs)).2 !! k = Some x →
  initial_attrs !! k = Some x ∨
  (x = AWrapper k ∧
   ∃ rc t, rc ∈ rcs ∧ t ∈ mro rc ∧ is_Some (c_dict (class_of t) !! k)).
Proof.
  set (found := ∃ rc t, rc ∈ rcs ∧ t ∈ mro rc ∧ is_Some (c_dict (class_of t) !! k)).
  set (P := λ st : gmap string (gmap string method) * gmap string attr,
              ∀ x, st.2 !! k = Some x →
                   initial_attrs !! k = Some x ∨ (x = AWrapper k ∧ found)).
  assert (P (prepare_loops rcs (∅, initial_attrs))) as HP; [|by apply HP].
  unfold prepare_loops. apply foldl_keeps_in; [|by left].
  intros st1 rc Hrc H1. unfold prepare_resultclass.
  apply foldl_keeps_in; [|done].
  intros st2 t Ht H2. unfold prepare_type.
  apply foldl_keeps_in; [|done].
  intros st3 [k' v] Hkv H3 y. unfold prepare_item, hasattr. simpl.
  case_bool_decide as Hhas; simpl; [by apply H3|].
  destruct (decide (k' = k)) as [->|Hne].
  - rewrite lookup_insert_eq. intros [= <-]. right. split; [done|].
    exists rc, t. split; [done|]. split; [by apply elem_of_reverse|].
    apply elem_of_map_to_list in Hkv. rewrite Hkv. eauto.
  - rewrite lookup_insert_ne by done. apply H3.
Qed.

(** X1.  Which operations of the result classes a proxy class forwards.  A
    name other than the five the class preparation assigns afterwards is
    dispatched through the table exactly when some class in the ancestor
    chain of some declared result class defines it and the proxy class did
    not have an attribute of that name already. *)
Theorem dispatched_exactly f (rcs : list string) op :
  op ∉ ["_delegate_bytes"; "_delegate_text"; "__str__"; "__unicode__"; "__bytes__"] →
  (dispatched f rcs op
   ↔ ((op ∉ own_attrs) ∧
      ∃ rc t, rc ∈ rcs ∧ t ∈ mro rc ∧ is_Some (c_dict (class_of t) !! op))).
Proof.
  intros Hk. split.
  - assert ("_delegate_bytes" ≠ op ∧ "_delegate_text" ≠ op ∧ "__str__" ≠ op
            ∧ "__unicode__" ≠ op ∧ "__bytes__" ≠ op) as (?&?&?&?&?).
    { repeat split; intros <-; apply Hk; in_list. }
    intros Hd.
    assert ((prepare_loops rcs (∅, initial_attrs)).2 !! op = Some (AWrapper op)) as Hl.
    { revert Hd. unfold dispatched, prepared_class, __prepare_class__. simpl.
      destruct (bool_decide (bytes_cls ∈ rcs)), (bool_decide (text_type ∈ rcs)), PY3;
        simpl; by rewrite !lookup_insert_ne. }
    split.
    + intros Hown.
      pose proof (prepare_loops_keeps rcs (∅, initial_attrs) op (AOwn op)
                    (initial_attrs_own op Hown)) as Hkeep.
      rewrite Hl in Hkeep. done.
    + apply prepare_loops_origin in Hl as [Hinit|[_ Hfound]]; [|done].
      exfalso. unfold initial_attrs in Hinit.
      apply elem_of_list_to_map_2, list_elem_of_fmap in Hinit as (k' & [= ] & _).
  - intros (Hown & rc & t & Hrc & Ht & Hop). by eapply dispatched_intro.
Qed.

Lemma first_declared_split (rcs pre post : list string) t :
  (∀ u, u ∈ pre → u ∉ rcs) → t ∈ rcs →
  first_declared (table rcs) (pre ++ t :: post) = Some (resolved t).
Proof.
  intros Hpre Ht. induction pre as [|u pre IH]; simpl.
  - by rewrite table_lookup, bool_decide_true.
  - rewrite table_lookup, bool_decide_false by (apply Hpre; left).
    apply IH. intros u' Hu'. apply Hpre. by right.
Qed.

(** X2.  Which definition serves a dispatched operation.  The classes in the
    ancestor chain of the result's type are tried from the most specific
    one; the first that is a declared result class decides.  The operation
    is resolved along the chain of that class: what classes before it in the
    chain define (the result's own class, when it is not declared) is not
    used, and when the chain of that class does not define the operation the
    call ends in [KeyError]. *)
Theorem dispatch_by_first_declared_class s self f (rcs : list string) args kw
    op res (pre post : list string) t n a k :
  is_proxy s self f rcs args kw →
  dispatched f rcs op →
  fn_body f args kw (trace s) = Ok res →
  mro (type_of res) = (pre ++ t :: post)%list →
  (∀ u, u ∈ pre → u ∉ rcs) →
  t ∈ rcs →
  (invoke (S n) self op a k s).1
  = match mro_lookup (mro t) op with
    | Some m => m res a k
    | None => Raise (KeyError op)
    end.
Proof.
  intros Hp Hd Hres Hmro Hpre Ht.
  rewrite (invoke_dispatched _ _ _ _ _ _ _ _ _ _ Hp Hd).
  rewrite (wrapper_spec _ _ _ _ _ _ _ _ _ Hp). simpl.
  rewrite Hres. unfold dispatch_outcome.
  rewrite Hmro, first_declared_split by done.
  by rewrite resolved_lookup.
Qed.

(** X3.  An exception raised by the wrapped computation comes out of every
    operation as it is: a dispatched operation, a comparison with a value
    that is not a promise, and hashing all raise that exception, after
    running the computation once, and nothing else changes. *)
Theorem computation_errors_propagate s self f (rcs : list string) args kw e n :
  is_proxy s self f rcs args kw →
  fn_body f args kw (trace s) = Raise e →
  (∀ op a k, dispatched f rcs op →
     invoke (S n) self op a k s = (Raise e, record_call f args kw s)) ∧
  (∀ op other, is_promise other = false →
     invoke (S n) self (cmp_name op) [other] [] s = (Raise e, record_call f args kw s)) ∧
  invoke (S n) self "__hash__" [] [] s = (Raise e, record_call f args kw s).
Proof.
  intros Hp Hres.
  assert (cast_outcome rcs (fn_body f args kw (trace s)) = Raise e) as Hc.
  { rewrite Hres. unfold cast_outcome. by destruct (bool_decide _). }
  repeat split.
  - intros op a k Hd. rewrite (invoke_dispatched _ _ _ _ _ _ _ _ _ _ Hp Hd).
    rewrite (wrapper_spec _ _ _ _ _ _ _ _ _ Hp). by rewrite Hres.
  - intros op other Ho. rewrite (invoke_cmp_raw _ _ _ _ _ _ _ _ _ Hp Ho); rewrite Hc; done.
  - rewrite (invoke_hash_raw _ _ _ _ _ _ _ Hp); rewrite Hc; done.
Qed.

(** X4.  Conversion to text and to bytes.  When the text class is declared
    (and the byte-sequence class is not), the text conversion of the proxy
    class ([__str__] in Python 3, [__unicode__] in Python 2) runs the
    computation once and returns what it yields, of whatever type.  When the
    byte-sequence class is declared (and the text class is not), the byte
    conversion ([__bytes__] in Python 3, [__str__] in Python 2) runs it once
    and returns [bytes] of what it yields.  When neither is declared,
    [__str__] stays the attribute the class had, even where a result class
    defines [__str__]. *)
Theorem conversions_follow_declared_class s self f (rcs : list string) args kw n :
  is_proxy s self f rcs args kw →
  (text_type ∈ rcs → bytes_cls ∉ rcs →
     invoke (S n) self (if PY3 then "__str__" else "__unicode__") [] [] s
     = (fn_body f args kw (trace s), record_call f args kw s)) ∧
  (bytes_cls ∈ rcs → text_type ∉ rcs →
     invoke (S n) self (if PY3 then "__bytes__" else "__str__") [] [] s
     = (match fn_body f args kw (trace s) with
        | Ok v => py_bytes v
        | Raise e => Raise e
        end, record_call f args kw s)) ∧
  (text_type ∉ rcs → bytes_cls ∉ rcs → "__str__" ∈ own_attrs →
     pc_attrs (prepared_class f rcs) !! "__str__" = Some (AOwn "__str__")).
Proof.
  intros Hp. split; [|split].
  - intros Ht Hb. by apply (invoke_text_conversion _ _ _ _ rcs).
  - intros Hb Ht. by apply (invoke_bytes_conversion _ _ _ _ rcs).
  - intros Ht Hb Hown.
    pose proof (prepare_loops_keeps rcs (∅, initial_attrs) "__str__" (AOwn "__str__")
                  (initial_attrs_own "__str__" Hown)) as Hloops.
    unfold prepared_class, __prepare_class__. simpl.
    rewrite (bool_decide_false _ Hb), (bool_decide_false _ Ht). simpl.
    by rewrite !lookup_insert_ne.
Qed.


(** X6.  Every deferred call through [allow_lazy] makes a class of its own:
    the call runs nothing, adds exactly one proxy class and returns one
    instance of that class, so that two deferred calls give proxies of two
    different classes, each with a dispatch table of its own. *)
Theorem allow_lazy_new_class_per_call f (rcs : list string) args (kw : kwargs) s :
  existsb is_promise (args ++ kw.*2) = true →
  conflicting rcs = false →
  let s' := (allow_lazy f rcs args kw s).2 in
  (allow_lazy f rcs args kw s).1 = Ok (VPromise (length (heap s))) ∧
  length (classes s') = S (length (classes s)) ∧
  heap s' !! length (heap s) = Some (ProxyObj (length (classes s)) args kw) ∧
  classes s' !! length (classes s) = Some (prepared_class f rcs) ∧
  trace s' = trace s ∧
  (∀ args2 (kw2 : kwargs),
     existsb is_promise (args2 ++ kw2.*2) = true →
     (allow_lazy f rcs args2 kw2 s').1 = Ok (VPromise (S (length (heap s)))) ∧
     heap (allow_lazy f rcs args2 kw2 s').2 !! S (length (heap s))
     = Some (ProxyObj (S (length (classes s))) args2 kw2)).
Proof.
  intros Hsome Hconf s'.
  assert (∀ s0 a0 (k0 : kwargs), existsb is_promise (a0 ++ k0.*2) = true →
            allow_lazy f rcs a0 k0 s0
            = (Ok (VPromise (length (heap s0))),
               State (<[length (classes s0) := prepared_class f rcs]>
                        (classes s0 ++ [fresh_class f rcs])%list)
                     (heap s0 ++ [ProxyObj (length (classes s0)) a0 k0])%list
                     (dicts s0) (trace s0))) as Hstate.
  { intros s0 a0 k0 Hsome0. rewrite allow_lazy_deferred by done.
    rewrite (factory_call_first _ _ f rcs) by apply lazy_class.
    by rewrite Hconf. }
  assert (length (classes s') = S (length (classes s))) as Hlc.
  { subst s'. rewrite Hstate by done. simpl.
    rewrite length_insert, length_app. simpl. lia. }
  assert (length (heap s') = S (length (heap s))) as Hlh.
  { subst s'. rewrite Hstate by done. simpl. rewrite length_app. simpl. lia. }
  split; [by rewrite Hstate|]. split; [done|]. split; [|split; [|split]].
  - subst s'. rewrite Hstate by done. simpl. by rewrite list_lookup_middle.
  - subst s'. rewrite Hstate by done. simpl.
    apply list_lookup_insert_eq. rewrite length_app. simpl. lia.
  - subst s'. by rewrite Hstate.
  - intros args2 kw2 H2. rewrite (Hstate s') by done. simpl.
    rewrite <-Hlh, <-Hlc. by rewrite list_lookup_middle.
Qed.

Lemma gt_is_own f (rcs : list string) :
  pc_attrs (prepared_class f rcs) !! "__gt__" = Some (AOwn "__gt__").
Proof.
  apply prepared_attrs_own.
  - unfold own_attrs, total_ordering_attrs. apply elem_of_app. right.
    apply elem_of_app. left. in_list.
  - intros Hin. apply list_elem_of_In in Hin. simpl in Hin. intuition congruence.
Qed.

(** X25.  A value that is not a promise on the left of a promise.  What
    the class of the value answers is the result, when it answers; when it
    declines, equality and inequality go to the method of the promise with
    the operands swapped, which runs the computation once and compares what
    the cast yields with the value; and [<] goes to [__gt__] of the
    promise, which [functools.total_ordering] supplies. *)
Theorem comparison_with_promise_on_the_right s p f (rcs : list string) args kw a n :
  is_proxy s p f rcs args kw →
  is_promise a = false →
  (∀ op o, py_cmp_method op a p = Some o →
     compare (invoke (S n)) op a (VPromise p) s = (o, s)) ∧
  (∀ op, py_cmp_method op a p = None → op ≠ Lt_ →
     (∀ l, cast_outcome rcs (fn_body f args kw (trace s)) ≠ Ok (VPromise l)) →
     compare (invoke (S n)) op a (VPromise p) s
     = (match cast_outcome rcs (fn_body f args kw (trace s)) with
        | Ok r => py_cmp op r a
        | Raise e => Raise e
        end, record_call f args kw s)) ∧
  (py_cmp_method Lt_ a p = None →
     compare (invoke (S n)) Lt_ a (VPromise p) s = py_external "__gt__" p [a] [] s).
Proof.
  intros Hp Ha. split; [|split].
  - intros op o Ho. destruct a; try done; simpl; by rewrite Ho.
  - intros op Hnone Hop Hr.
    assert (compare (invoke (S n)) op a (VPromise p) s
            = invoke (S n) p (cmp_name op) [a] [] s) as ->.
    { destruct a; try done; simpl compare; rewrite Hnone; by destruct op. }
    by apply invoke_cmp_raw.
  - intros Hnone.
    assert (compare (invoke (S n)) Lt_ a (VPromise p) s
            = invoke (S n) p "__gt__" [a] [] s) as ->.
    { destruct a; try done; simpl compare; by rewrite Hnone. }
    simpl. unfold invoke_body, mbind, M_bind.
    rewrite (class_of_obj_spec _ _ _ _ _ _ Hp), gt_is_own.
    unfold own_method. repeat case_decide; try done; exfalso; intuition congruence.
Qed.

(** X26.  [__mod__] against an operand that is not a promise, on a proxy
    of a class whose preparation went through: the computation runs once
    and [%] is applied to the text conversion of its result when the text
    class is declared, to the byte conversion in Python 2 when the
    byte-sequence class is, and to what [__cast] yields otherwise. *)
Theorem formatting_applies_to_the_conversion s self f (rcs : list string) args kw rhs n :
  is_proxy s self f rcs args kw →
  conflicting rcs = false →
  is_promise rhs = false →
  (∀ l, mod_operand rcs (fn_body f args kw (trace s)) ≠ Ok (VPromise l)) →
  invoke (S (S n)) self "__mod__" [rhs] [] s
  = (match mod_operand rcs (fn_body f args kw (trace s)) with
     | Ok c => py_mod c rhs
     | Raise e => Raise e
     end, record_call f args kw s) ∧
  (text_type ∉ rcs → (bytes_cls ∉ rcs ∨ PY3 = true) →
     mod_operand rcs (fn_body f args kw (trace s))
     = cast_outcome rcs (fn_body f args kw (trace s))).
Proof.
  intros Hp Hconf Hrhs Hr. split; [by apply invoke_mod_raw|].
  intros Ht Hb. unfold mod_operand. rewrite (bool_decide_false _ Ht).
  destruct Hb as [Hb| ->]; [by rewrite (bool_decide_false _ Hb)|].
  by rewrite andb_false_r.
Qed.

(** X27.  [__init__] called again on a proxy binds it to the new
    arguments: it stays a proxy of the same factory, classes, other proxies
    and the record of invocations are as they were, and from then on every
    dispatched operation runs the computation on the new arguments. *)
Theorem init_again_rebinds_the_arguments s self f (rcs : list string) args kw args' kw' :
  is_proxy s self f rcs args kw →
  let s' := (reinit self args' kw' s).2 in
  (reinit self args' kw' s).1 = Ok () ∧
  is_proxy s' self f rcs args' kw' ∧
  classes s' = classes s ∧
  trace s' = trace s ∧
  (∀ l o, l ≠ self → heap s !! l = Some o → heap s' !! l = Some o) ∧
  (∀ op a k n, dispatched f rcs op →
     trace (invoke (S n) self op a k s').2 = Invoke (fn_id f) args' kw' :: trace s).
Proof.
  intros Hp s'. destruct Hp as (cid & Ho & Hc).
  assert (reinit self args' kw' s
          = (Ok (), State (classes s) (<[self := ProxyObj cid args' kw']> (heap s))
                          (dicts s) (trace s))) as Hre.
  { unfold reinit, set_obj, __init__, mbind, M_bind, get_obj, get_class.
    rewrite Ho. simpl. rewrite Hc. simpl. by rewrite prepared_dispatch. }
  subst s'. rewrite Hre. cbn [fst snd].
  assert (is_proxy (State (classes s) (<[self := ProxyObj cid args' kw']> (heap s))
                          (dicts s) (trace s)) self f rcs args' kw') as Hp'.
  { exists cid. simpl. split; [|done].
    apply list_lookup_insert_eq. by eapply lookup_lt_Some. }
  split; [done|]. split; [done|]. split; [done|]. split; [done|]. split.
  - intros l o Hne Hl. simpl. by rewrite list_lookup_insert_ne.
  - intros op a k n Hd. rewrite (invoke_dispatched _ _ _ _ _ _ _ _ _ _ Hp' Hd).
    by rewrite (wrapper_spec _ _ _ _ _ _ _ _ _ Hp').
Qed.

Lemma promise_lookup klass funcname (m : method) (d : gmap string (gmap string method)) :
  ∃ ops, __promise__ klass funcname m d !! klass = Some ops ∧ ops !! funcname = Some m.
Proof.
  unfold __promise__. eexists. split; [apply lookup_insert_eq|apply lookup_insert_eq].
Qed.

(** X28.  [__promise__] called on a proxy registers the function in the
    table of the class: it runs nothing and changes no instance, and from
    then on the dispatched operation of that name, on a result whose type
    is the class it was registered for, answers with that function,
    whether or not the class is a declared result class. *)
Theorem promise_registers_for_dispatch s self f (rcs : list string) args kw
    klass funcname (m : method) res a k n :
  is_proxy s self f rcs args kw →
  dispatched f rcs funcname →
  fn_body f args kw (trace s) = Ok res →
  type_of res = klass →
  let s' := (promise_call self klass funcname m s).2 in
  (promise_call self klass funcname m s).1 = Ok () ∧
  heap s' = heap s ∧
  trace s' = trace s ∧
  invoke (S n) self funcname a k s' = (m res a k, record_call f args kw s').
Proof.
  intros (cid & Ho & Hc) Hd Hres Hty s'.
  set (pc' := ProxyClass f rcs (Some (__promise__ klass funcname m (table rcs)))
                         (pc_attrs (prepared_class f rcs))).
  assert (promise_call self klass funcname m s
          = (Ok (), State (<[cid := pc']> (classes s)) (heap s) (dicts s) (trace s))) as Hpc.
  { unfold promise_call, set_class, mbind, M_bind, get_obj, get_class.
    rewrite Ho. simpl. rewrite Hc. simpl. rewrite prepared_dispatch. simpl.
    by rewrite prepared_func, prepared_resultclasses. }
  subst s'. rewrite Hpc. simpl. split; [done|]. split; [done|]. split; [done|].
  assert (cid < length (classes s)) as Hlt by (by eapply lookup_lt_Some).
  unfold invoke_body, class_of_obj, mbind, M_bind, get_obj, get_class. simpl.
  rewrite Ho. simpl. rewrite list_lookup_insert_eq by done. simpl.
  rewrite Hd. unfold __wrapper__, force, class_of_obj, mbind, M_bind, get_obj, get_class.
  simpl. rewrite Ho. simpl. rewrite list_lookup_insert_eq by done. simpl.
  unfold call_func. simpl. rewrite Hres. simpl. rewrite Ho. simpl.
  rewrite list_lookup_insert_eq by done. simpl.
  rewrite Hty.
  destruct (promise_lookup klass funcname m (table rcs)) as (ops & Hk & Hf).
  rewrite Hk, Hf. done.
Qed.

End MoreOnProxies.

(** * [curry] and [partition] *)

Section CurryPartition.
Context {A : Type}.

(** X7.  Currying twice is currying once: the positional arguments pile up
    in the order they were given and, among the keyword arguments, the ones
    given later win over the ones given earlier. *)
Theorem curry_twice {V R : Type} (f : list A → gmap string V → R)
    (a1 a2 a3 : list A) (k1 k2 k3 : gmap string V) key :
  curry (curry f a1 k1) a2 k2 a3 k3 = curry f (a1 ++ a2)%list (k2 ∪ k1) a3 k3 ∧
  curry (curry f a1 k1) a2 k2 a3 k3 = f (a1 ++ a2 ++ a3)%list (k3 ∪ k2 ∪ k1) ∧
  (k3 ∪ k2 ∪ k1) !! key
  = match k3 !! key with
    | Some v => Some v
    | None => match k2 !! key with Some v => Some v | None => k1 !! key end
    end.
Proof.
  unfold curry. rewrite <-!(assoc_L (++)), !(assoc_L (∪)). repeat split.
  rewrite <-(assoc_L (∪)).
  destruct (k3 !! key) as [v|] eqn:H3; [by apply lookup_union_Some_l|].
  rewrite lookup_union_r by done.
  destruct (k2 !! key) as [v|] eqn:H2; [by apply lookup_union_Some_l|].
  by rewrite lookup_union_r.
Qed.

Context `{Indexing}.
Implicit Types (predicate : A → outcome value) (values : list A).

Lemma goes_to_ok predicate item b :
  side_of predicate item = Ok b →
  goes_to predicate b item = true ∧ goes_to predicate (negb b) item = false.
Proof. intros Hs. unfold goes_to. rewrite Hs. by destruct b. Qed.

Lemma partition_loop_ok predicate values (fs0 ts0 fs ts : list A) :
  partition_loop predicate (fs0, ts0) values = Ok (fs, ts) →
  fs = (fs0 ++ List.filter (goes_to predicate false) values)%list ∧
  ts = (ts0 ++ List.filter (goes_to predicate true) values)%list ∧
  ∀ item, item ∈ values → ∃ b, side_of predicate item = Ok b.
Proof.
  revert fs0 ts0. induction values as [|item rest IH]; intros fs0 ts0; simpl.
  - intros [= <- <-]. rewrite !(right_id_L [] (++)%list).
    repeat split. by intros item ?%elem_of_nil.
  - destruct (predicate item) as [i|e] eqn:Hp; [|done].
    destruct (tuple2_index i) as [b|e] eqn:Hi; [|done].
    assert (side_of predicate item = Ok b) as Hs by (unfold side_of; by rewrite Hp).
    destruct (goes_to_ok _ _ _ Hs) as [Hb Hnb].
    destruct b; simpl in Hb, Hnb; rewrite Hb, Hnb;
      intros (-> & -> & Hall)%IH; simpl; rewrite <-?(assoc_L (++)%list); simpl;
      (split; [done|]; split; [done|]);
      intros item' [->|?]%elem_of_cons; eauto.
Qed.

Lemma partition_loop_all_ok predicate values (fs0 ts0 : list A) :
  (∀ item, item ∈ values → ∃ b, side_of predicate item = Ok b) →
  partition_loop predicate (fs0, ts0) values
  = Ok ((fs0 ++ List.filter (goes_to predicate false) values)%list,
        (ts0 ++ List.filter (goes_to predicate true) values)%list).
Proof.
  revert fs0 ts0. induction values as [|item rest IH]; intros fs0 ts0 Hall; simpl.
  - by rewrite !(right_id_L [] (++)%list).
  - destruct (Hall item) as [b Hs]; [left|].
    destruct (goes_to_ok _ _ _ Hs) as [Hb Hnb].
    unfold side_of in Hs. destruct (predicate item) as [i|e]; [|done]. rewrite Hs.
    destruct b; simpl in Hb, Hnb; rewrite Hb, Hnb, IH
      by (intros ??; apply Hall; by right);
      simpl; by rewrite <-?(assoc_L (++)%list).
Qed.

Lemma partition_loop_raise predicate (before after : list A) item e (fs0 ts0 : list A) :
  (∀ y, y ∈ before → ∃ b, side_of predicate y = Ok b) →
  side_of predicate item = Raise e →
  partition_loop predicate (fs0, ts0) (before ++ item :: after) = Raise e.
Proof.
  revert fs0 ts0. induction before as [|y before IH]; intros fs0 ts0 Hall Hs; simpl.
  - unfold side_of in Hs.
    destruct (predicate item) as [i|e']; [by rewrite Hs|by injection Hs as ->].
  - destruct (Hall y) as [b Hy]; [left|].
    unfold side_of in Hy. destruct (predicate y) as [i|e']; [|done]. rewrite Hy.
    destruct b; apply IH; try done; intros ??; apply Hall; by right.
Qed.

Lemma filter_complement (f g : A → bool) (l : list A) :
  (∀ x, x ∈ l → g x = negb (f x)) →
  (List.filter g l ++ List.filter f l)%list ≡ₚ l.
Proof.
  induction l as [|x l IH]; intros Hfg; simpl; [done|].
  rewrite (Hfg x) by left.
  assert ((List.filter g l ++ List.filter f l)%list ≡ₚ l) as IH'
    by (apply IH; intros ??; apply Hfg; by right).
  destruct (f x); simpl.
  - by rewrite <-Permutation_middle, IH'.
  - by rewrite IH'.
Qed.

Lemma filter_is_sublist (f : A → bool) (l : list A) : sublist (List.filter f l) l.
Proof.
  induction l as [|x l IH]; simpl; [constructor|].
  destruct (f x); by constructor.
Qed.

(** X8.  With a predicate that answers [True] or [False] on every item,
    [partition] returns first the items it rejects and then the items it
    accepts, each list in the order of the input. *)
Theorem partition_of_boolean predicate (p : A → bool) values :
  (∀ item, item ∈ values → predicate item = Ok (VBool (p item))) →
  partition predicate values
  = Ok (List.filter (λ item, negb (p item)) values, List.filter p values).
Proof.
  intros Hp. unfold partition.
  assert (∀ item, item ∈ values → side_of predicate item = Ok (p item)) as Hs.
  { intros item Hin. unfold side_of. rewrite Hp by done. by destruct (p item). }
  rewrite partition_loop_all_ok by (intros item Hin; eauto). simpl.
  f_equal. f_equal; apply List.filter_ext_in; intros item Hin%list_elem_of_In;
    unfold goes_to; rewrite Hs by done; by destruct (p item).
Qed.

(** X9.  Whatever the predicate, a pair that [partition] returns splits the
    input: every item went to the list its index selects, no item is lost
    or repeated, and both lists keep the order of the input. *)
Theorem partition_splits_input predicate values (fs ts : list A) :
  partition predicate values = Ok (fs, ts) →
  (∀ item, item ∈ fs ↔ item ∈ values ∧ side_of predicate item = Ok false) ∧
  (∀ item, item ∈ ts ↔ item ∈ values ∧ side_of predicate item = Ok true) ∧
  (fs ++ ts)%list ≡ₚ values ∧
  length fs + length ts = length values ∧
  sublist fs values ∧ sublist ts values.
Proof.
  intros (-> & -> & Hall)%partition_loop_ok. simpl.
  assert (∀ b item, item ∈ List.filter (goes_to predicate b) values
                    ↔ item ∈ values ∧ side_of predicate item = Ok b) as Hmem.
  { intros b item. rewrite !list_elem_of_In, List.filter_In, <-list_elem_of_In.
    unfold goes_to. split.
    - intros [Hin Hg]. split; [done|].
      destruct (side_of predicate item) as [b'|e]; [|done].
      by apply Bool.eqb_prop in Hg as ->.
    - intros [Hin ->]. split; [done|]. by destruct b. }
  assert ((List.filter (goes_to predicate false) values
           ++ List.filter (goes_to predicate true) values)%list ≡ₚ values) as Hperm.
  { apply filter_complement. intros item [b Hs]%Hall.
    unfold goes_to. rewrite Hs. by destruct b. }
  split; [apply Hmem|]. split; [apply Hmem|]. split; [done|]. split.
  - rewrite <-length_app. by rewrite Hperm.
  - split; apply filter_is_sublist.
Qed.

(** X10.  [partition] stops at the first item on which the predicate raises
    or returns something that does not index a pair: that exception comes
    out, and no list is returned for the items seen before. *)
Theorem partition_stops_at_first_failure predicate (before after : list A) item e :
  (∀ y, y ∈ before → ∃ b, side_of predicate y = Ok b) →
  side_of predicate item = Raise e →
  partition predicate (before ++ item :: after) = Raise e.
Proof. intros Hall Hs. by apply partition_loop_raise. Qed.

(** X11.  [partition] of a concatenation: the results for the two parts
    concatenated list by list, or the first exception met. *)
Theorem partition_of_concatenation predicate (l1 l2 : list A) :
  partition predicate (l1 ++ l2)
  = match partition predicate l1 with
    | Raise e => Raise e
    | Ok (fs1, ts1) =>
      match partition predicate l2 with
      | Raise e => Raise e
      | Ok (fs2, ts2) => Ok ((fs1 ++ fs2)%list, (ts1 ++ ts2)%list)
      end
    end.
Proof.
  unfold partition.
  assert (∀ l (fs0 ts0 : list A),
            partition_loop predicate (fs0, ts0) l
            = match partition_loop predicate ([], []) l with
              | Raise e => Raise e
              | Ok (fs, ts) => Ok ((fs0 ++ fs)%list, (ts0 ++ ts)%list)
              end) as Hacc.
  { intros l. induction l as [|x l IH]; intros fs0 ts0; simpl.
    - by rewrite !(right_id_L [] (++)%list).
    - destruct (predicate x) as [i|e]; [|done].
      destruct (tuple2_index i) as [[|]|e]; [| |done].
      + rewrite (IH fs0 (ts0 ++ [x])%list), (IH [] [x]).
        destruct (partition_loop predicate ([], []) l) as [[fs ts]|e]; [|done].
        simpl. by rewrite <-(assoc_L (++)%list).
      + rewrite (IH (fs0 ++ [x])%list ts0), (IH [x] []).
        destruct (partition_loop predicate ([], []) l) as [[fs ts]|e]; [|done].
        simpl. by rewrite <-(assoc_L (++)%list). }
  induction l1 as [|x l1 IH]; simpl.
  - by destruct (partition_loop predicate ([], []) l2) as [[fs ts]|e].
  - destruct (predicate x) as [i|e]; [|done].
    destruct (tuple2_index i) as [[|]|e]; [| |done].
    + rewrite (Hacc (l1 ++ l2)%list [] [x]), (Hacc l1 [] [x]), IH.
      destruct (partition_loop predicate ([], []) l1) as [[fs1 ts1]|e]; [|done].
      by destruct (partition_loop predicate ([], []) l2) as [[fs2 ts2]|e].
    + rewrite (Hacc (l1 ++ l2)%list [x] []), (Hacc l1 [x] []), IH.
      destruct (partition_loop predicate ([], []) l1) as [[fs1 ts1]|e]; [|done].
      by destruct (partition_loop predicate ([], []) l2) as [[fs2 ts2]|e].
Qed.

End CurryPartition.

(** * [cached_property] *)

Section CachedPropertyFacts.
Implicit Types (cls : gmap string CachedProperty.cached_property)
  (descr : CachedProperty.cached_property) (s : CachedProperty.store).

Lemma cached_property_access cls name descr i d s :
  cls !! name = Some descr →
  CachedProperty.dict_of s !! i = Some d →
  d !! name = None →
  CachedProperty.getattr cls i name s
  = match CachedProperty.call (CachedProperty.func descr) i d (CachedProperty.calls s) with
    | (Ok res, d') =>
      (Ok (CachedProperty.Value res),
       CachedProperty.Store
         (<[i := <[CachedProperty.__name__ (CachedProperty.func descr) := res]> d']>
            (CachedProperty.dict_of s))
         ((CachedProperty.__name__ (CachedProperty.func descr), i) :: CachedProperty.calls s))
    | (Raise e, d') =>
      (Raise e,
       CachedProperty.Store (<[i := d']> (CachedProperty.dict_of s))
         ((CachedProperty.__name__ (CachedProperty.func descr), i) :: CachedProperty.calls s))
    end.
Proof.
  intros Hc Hd Hn. unfold CachedProperty.getattr, CachedProperty.__get__.
  by rewrite Hd, Hn, Hc.
Qed.

(** X12.  A cached property bound under the name of its function runs the
    function on the first access and stores the result in the [__dict__]
    of the instance; the next access returns the stored value and calls
    nothing.  Read on the class, the attribute is the descriptor itself. *)
Theorem cached_property_computed_once cls name descr i d res d' s :
  cls !! name = Some descr →
  CachedProperty.__name__ (CachedProperty.func descr) = name →
  CachedProperty.dict_of s !! i = Some d →
  d !! name = None →
  CachedProperty.call (CachedProperty.func descr) i d (CachedProperty.calls s) = (Ok res, d') →
  let s1 := CachedProperty.Store (<[i := <[name := res]> d']> (CachedProperty.dict_of s))
                                 ((name, i) :: CachedProperty.calls s) in
  CachedProperty.getattr cls i name s = (Ok (CachedProperty.Value res), s1) ∧
  CachedProperty.getattr cls i name s1 = (Ok (CachedProperty.Value res), s1) ∧
  CachedProperty.getattr_class cls name s1 = (Ok (CachedProperty.Descriptor descr), s1).
Proof.
  intros Hc Hname Hd Hn Hcall s1. split; [|split].
  - rewrite (cached_property_access _ _ _ _ _ _ Hc Hd Hn), Hcall. by rewrite Hname.
  - unfold CachedProperty.getattr, s1. simpl.
    rewrite list_lookup_insert_eq by (by eapply lookup_lt_Some).
    by rewrite lookup_insert_eq.
  - unfold CachedProperty.getattr_class. by rewrite Hc.
Qed.

(** X13.  A cached property bound under a name that is not the name of
    its function never caches: the result is stored under the name of the
    function, so each of [n] accesses through the other name calls the
    function again.  The function is taken not to set that name itself. *)
Theorem cached_property_under_other_name cls name descr i d n s :
  cls !! name = Some descr →
  CachedProperty.__name__ (CachedProperty.func descr) ≠ name →
  (∀ j dj made, dj !! name = None →
     (CachedProperty.call (CachedProperty.func descr) j dj made).2 !! name = None) →
  CachedProperty.dict_of s !! i = Some d →
  d !! name = None →
  CachedProperty.calls (Nat.iter n (λ s, (CachedProperty.getattr cls i name s).2) s)
  = (repeat (CachedProperty.__name__ (CachedProperty.func descr), i) n
     ++ CachedProperty.calls s)%list.
Proof.
  intros Hc Hname Hleaves Hd Hn.
  assert (∃ dn, CachedProperty.dict_of
                  (Nat.iter n (λ s, (CachedProperty.getattr cls i name s).2) s) !! i = Some dn
                ∧ dn !! name = None
                ∧ CachedProperty.calls
                    (Nat.iter n (λ s, (CachedProperty.getattr cls i name s).2) s)
                  = (repeat (CachedProperty.__name__ (CachedProperty.func descr), i) n
                     ++ CachedProperty.calls s)%list) as (dn & _ & _ & Hcalls);
    [|done].
  induction n as [|n (dn & Hdn & Hnn & Hcalls)]; simpl; [by exists d|].
  set (sn := Nat.iter n (λ s, (CachedProperty.getattr cls i name s).2) s) in *.
  rewrite (cached_property_access _ _ _ _ _ _ Hc Hdn Hnn).
  specialize (Hleaves i dn (CachedProperty.calls sn) Hnn).
  destruct (CachedProperty.call (CachedProperty.func descr) i dn (CachedProperty.calls sn))
    as [[res|e] d'] eqn:Hcall; simpl in *.
  - eexists. rewrite list_lookup_insert_eq by (by eapply lookup_lt_Some).
    split; [done|]. split; [by rewrite lookup_insert_ne|]. by rewrite Hcalls.
  - eexists. rewrite list_lookup_insert_eq by (by eapply lookup_lt_Some).
    split; [done|]. split; [done|]. by rewrite Hcalls.
Qed.

(** X14.  When the function of a cached property raises, the exception
    comes out of the access, nothing is stored for the attribute, and the
    next access calls the function again. *)
Theorem cached_property_failure_not_stored cls name descr i d e d' s :
  cls !! name = Some descr →
  CachedProperty.dict_of s !! i = Some d →
  d !! name = None →
  CachedProperty.call (CachedProperty.func descr) i d (CachedProperty.calls s) = (Raise e, d') →
  d' !! name = None →
  let s1 := CachedProperty.Store (<[i := d']> (CachedProperty.dict_of s))
              ((CachedProperty.__name__ (CachedProperty.func descr), i) :: CachedProperty.calls s) in
  CachedProperty.getattr cls i name s = (Raise e, s1) ∧
  CachedProperty.calls (CachedProperty.getattr cls i name s1).2
  = (CachedProperty.__name__ (CachedProperty.func descr), i)
    :: (CachedProperty.__name__ (CachedProperty.func descr), i) :: CachedProperty.calls s.
Proof.
  intros Hc Hd Hn Hcall Hn' s1.
  assert (CachedProperty.dict_of s1 !! i = Some d') as Hd1.
  { unfold s1. simpl. apply list_lookup_insert_eq. by eapply lookup_lt_Some. }
  split.
  - by rewrite (cached_property_access _ _ _ _ _ _ Hc Hd Hn), Hcall.
  - rewrite (cached_property_access _ _ _ _ _ _ Hc Hd1 Hn').
    by destruct (CachedProperty.call _ _ d' _) as [[res|e'] d''].
Qed.

End CachedPropertyFacts.

(** * [LazyObject] and [SimpleLazyObject] *)

Section LazyObjectFacts.
Context `{Wrapped}.
Implicit Types (s : lazy_state) (self memo : nat) (f : pyfunc) (w v : value)
  (func : value → list value → outcome value) (args : list value).

Ltac run_L :=
  unfold wrapped_after_setup, _setup, SimpleLazyObject_setup, LazyObject_setup,
    call_setupfunc, set_wrapped, get_lazy, l_raise, l_ret, l_lift,
    mbind, mret, L_bind, L_ret; simpl.

Lemma wrapped_after_setup_evaluated self w k s :
  objects s !! self = Some (LazyObj (Some w) k) →
  wrapped_after_setup self s = (Ok w, s).
Proof. intros Ho. run_L. by repeat (rewrite ?Ho; simpl). Qed.

Lemma wrapped_after_setup_plain self s :
  objects s !! self = Some (LazyObj None Plain) →
  wrapped_after_setup self s = (Raise not_implemented, s).
Proof. intros Ho. run_L. by repeat (rewrite ?Ho; simpl). Qed.

Lemma wrapped_after_setup_ok self f w s :
  objects s !! self = Some (LazyObj None (Simple f)) →
  fn_body f [] [] (setups s) = Ok w →
  wrapped_after_setup self s = (Ok w, set_up self f w s).
Proof.
  intros Ho Hf. run_L. repeat (rewrite ?Ho, ?Hf; simpl).
  by rewrite list_lookup_insert_eq by (by eapply lookup_lt_Some).
Qed.

Lemma wrapped_after_setup_fail self f e s :
  objects s !! self = Some (LazyObj None (Simple f)) →
  fn_body f [] [] (setups s) = Raise e →
  wrapped_after_setup self s = (Raise e, called f s).
Proof. intros Ho Hf. run_L. by repeat (rewrite ?Ho, ?Hf; simpl). Qed.

Lemma set_up_lookup self f w s :
  is_Some (objects s !! self) →
  objects (set_up self f w s) !! self = Some (LazyObj (Some w) (Simple f)).
Proof. intros [o Ho]. simpl. apply list_lookup_insert_eq. by eapply lookup_lt_Some. Qed.

Lemma new_method_proxy_evaluated func self args w k s :
  objects s !! self = Some (LazyObj (Some w) k) →
  new_method_proxy func self args s = (func w args, s).
Proof.
  intros Ho. unfold new_method_proxy, mbind, L_bind.
  by rewrite (wrapped_after_setup_evaluated _ _ _ _ Ho).
Qed.

(** X15.  The first proxied call on an unevaluated [SimpleLazyObject]
    runs the setup function once and applies the proxied function to what
    it returned; every later proxied call applies its function to that same
    value and leaves the state as it is, the setup function not running
    again. *)
Theorem lazy_object_set_up_once func self args f w s :
  objects s !! self = Some (LazyObj None (Simple f)) →
  fn_body f [] [] (setups s) = Ok w →
  new_method_proxy func self args s = (func w args, set_up self f w s) ∧
  (∀ func' args',
     new_method_proxy func' self args' (set_up self f w s)
     = (func' w args', set_up self f w s)) ∧
  ∀ calls, proxied_calls calls self (set_up self f w s) = set_up self f w s.
Proof.
  intros Ho Hf.
  assert (∀ func' args',
            new_method_proxy func' self args' (set_up self f w s)
            = (func' w args', set_up self f w s)) as Hlater.
  { intros. eapply new_method_proxy_evaluated, set_up_lookup. by rewrite Ho. }
  split; [|split; [done|]].
  - unfold new_method_proxy, mbind, L_bind.
    by rewrite (wrapped_after_setup_ok _ _ _ _ Ho Hf).
  - intros calls. unfold proxied_calls.
    induction calls as [|[func' args'] calls IH]; simpl; [done|].
    by rewrite Hlater.
Qed.

(** X16.  A plain [LazyObject] has no setup: a proxied call, setting an
    attribute and deleting an attribute all raise [NotImplementedError] and
    change nothing. *)
Theorem lazy_object_without_setup func self args name val s :
  objects s !! self = Some (LazyObj None Plain) →
  name ≠ "_wrapped" →
  new_method_proxy func self args s = (Raise not_implemented, s) ∧
  LazyObject__setattr__ self name val s = (Raise not_implemented, s) ∧
  LazyObject__delattr__ self name s = (Raise not_implemented, s).
Proof.
  intros Ho Hname.
  unfold new_method_proxy, LazyObject__setattr__, LazyObject__delattr__, mbind, L_bind.
  rewrite !decide_False by done.
  by rewrite (wrapped_after_setup_plain _ _ Ho).
Qed.

(** X17.  When the setup function raises, the exception comes out of the
    proxied call and the object stays unevaluated: the next proxied call
    runs the setup function again. *)
Theorem failed_setup_is_run_again func self args f e s :
  objects s !! self = Some (LazyObj None (Simple f)) →
  fn_body f [] [] (setups s) = Raise e →
  new_method_proxy func self args s = (Raise e, called f s) ∧
  ∀ func' args',
    setups (new_method_proxy func' self args' (called f s)).2
    = Invoke (fn_id f) [] [] :: Invoke (fn_id f) [] [] :: setups s.
Proof.
  intros Ho Hf. split.
  - unfold new_method_proxy, mbind, L_bind.
    by rewrite (wrapped_after_setup_fail _ _ _ _ Ho Hf).
  - intros func' args'. unfold new_method_proxy, mbind, L_bind.
    assert (objects (called f s) !! self = Some (LazyObj None (Simple f))) as Ho' by done.
    destruct (fn_body f [] [] (setups (called f s))) as [w|e'] eqn:Hf'.
    + by rewrite (wrapped_after_setup_ok _ _ _ _ Ho' Hf').
    + by rewrite (wrapped_after_setup_fail _ _ _ _ Ho' Hf').
Qed.

(** X18.  Assigning [_wrapped] stores the value in the lazy object itself
    and runs no setup: proxied calls then use the assigned value.
    Assigning the marker [empty] makes a [SimpleLazyObject] unevaluated
    again, and the next proxied call runs its setup function. *)
Theorem assigning_wrapped_replaces_setup self o s :
  objects s !! self = Some o →
  (∀ v func args,
     let s1 := LazyState (<[self := LazyObj (Some v) (kind o)]> (objects s))
                         (memos s) (setups s) in
     LazyObject__setattr__ self "_wrapped" (Some v) s = (Ok (), s1) ∧
     new_method_proxy func self args s1 = (func v args, s1)) ∧
  (∀ f func args,
     kind o = Simple f →
     let s0 := LazyState (<[self := LazyObj None (Simple f)]> (objects s))
                         (memos s) (setups s) in
     LazyObject__setattr__ self "_wrapped" None s = (Ok (), s0) ∧
     setups (new_method_proxy func self args s0).2 = Invoke (fn_id f) [] [] :: setups s).
Proof.
  intros Ho. split.
  - intros v func args s1. split.
    + unfold LazyObject__setattr__, set_wrapped. simpl. by rewrite Ho.
    + eapply new_method_proxy_evaluated. simpl.
      apply list_lookup_insert_eq. by eapply lookup_lt_Some.
  - intros f func args Hk s0. split.
    + unfold LazyObject__setattr__, set_wrapped. simpl. by rewrite Ho, Hk.
    + assert (objects s0 !! self = Some (LazyObj None (Simple f))) as Ho0.
      { simpl. apply list_lookup_insert_eq. by eapply lookup_lt_Some. }
      unfold new_method_proxy, mbind, L_bind.
      destruct (fn_body f [] [] (setups s0)) as [w|e'] eqn:Hf'.
      * by rewrite (wrapped_after_setup_ok _ _ _ _ Ho0 Hf').
      * by rewrite (wrapped_after_setup_fail _ _ _ _ Ho0 Hf').
Qed.

(** X19.  Setting or deleting an attribute other than [_wrapped] is handed
    to the wrapped object, after the setup where the object is unevaluated;
    deleting [_wrapped] raises [TypeError] and runs no setup. *)
Theorem attributes_go_to_wrapped_object self name val f w s :
  objects s !! self = Some (LazyObj None (Simple f)) →
  fn_body f [] [] (setups s) = Ok w →
  name ≠ "_wrapped" →
  LazyObject__setattr__ self name val s = (py_setattr w name val, set_up self f w s) ∧
  LazyObject__delattr__ self name s = (py_delattr w name, set_up self f w s) ∧
  LazyObject__setattr__ self name val (set_up self f w s)
  = (py_setattr w name val, set_up self f w s) ∧
  LazyObject__delattr__ self name (set_up self f w s)
  = (py_delattr w name, set_up self f w s) ∧
  LazyObject__delattr__ self "_wrapped" s = (Raise (TypeError "can't delete _wrapped."), s).
Proof.
  intros Ho Hf Hname.
  assert (objects (set_up self f w s) !! self = Some (LazyObj (Some w) (Simple f))) as Ho'.
  { apply set_up_lookup. by rewrite Ho. }
  unfold LazyObject__setattr__, LazyObject__delattr__, mbind, L_bind.
  rewrite !decide_False by done.
  rewrite (wrapped_after_setup_ok _ _ _ _ Ho Hf).
  by rewrite (wrapped_after_setup_evaluated _ _ _ _ Ho').
Qed.

(** X20.  The deep copy of an unevaluated [SimpleLazyObject] is a new
    unevaluated [SimpleLazyObject] with the same setup function, recorded
    in the memo under the original; the setup function is not run, the
    original stays unevaluated, and the first proxied call on the copy
    runs the setup function. *)
Theorem deepcopy_of_unevaluated self memo f m s :
  objects s !! self = Some (LazyObj None (Simple f)) →
  memos s !! memo = Some m →
  let result := length (objects s) in
  let s' := LazyState (objects s ++ [LazyObj None (Simple f)])%list
                      (<[memo := <[self := CopiedLazy result]> m]> (memos s))
                      (setups s) in
  SimpleLazyObject__deepcopy__ self memo s = (Ok (CopiedLazy result), s') ∧
  result ≠ self ∧
  objects s' !! self = Some (LazyObj None (Simple f)) ∧
  ∀ func args,
    setups (new_method_proxy func result args s').2 = Invoke (fn_id f) [] [] :: setups s.
Proof.
  intros Ho Hm result s'.
  assert (self < length (objects s)) as Hlt by (by eapply lookup_lt_Some).
  assert (objects s' !! result = Some (LazyObj None (Simple f))) as Hres.
  { simpl. rewrite lookup_app_r by done. unfold result. by rewrite Nat.sub_diag. }
  split; [|split; [unfold result; lia|split]].
  - unfold SimpleLazyObject__deepcopy__, SimpleLazyObject__init__, alloc_lazy, memo_set,
      get_lazy, l_ret, mbind, mret, L_bind, L_ret. simpl. rewrite Ho. simpl. by rewrite Hm.
  - simpl. by rewrite lookup_app_l.
  - intros func args. unfold new_method_proxy, mbind, L_bind.
    destruct (fn_body f [] [] (setups s')) as [w|e'] eqn:Hf'.
    + by rewrite (wrapped_after_setup_ok _ _ _ _ Hres Hf').
    + by rewrite (wrapped_after_setup_fail _ _ _ _ Hres Hf').
Qed.

(** X21.  [__deepcopy__] never runs a setup function and changes no
    existing lazy object; for an evaluated object it returns what
    [copy.deepcopy] gives for the wrapped value, with the memo as that call
    leaves it. *)
Theorem deepcopy_never_sets_up self memo s :
  let s' := (SimpleLazyObject__deepcopy__ self memo s).2 in
  setups s' = setups s ∧
  (∀ j o, objects s !! j = Some o → objects s' !! j = Some o) ∧
  ∀ w k m,
    objects s !! self = Some (LazyObj (Some w) k) →
    memos s !! memo = Some m →
    SimpleLazyObject__deepcopy__ self memo s
    = (match (copy_deepcopy w m).1 with
       | Ok c => Ok (CopiedValue c)
       | Raise e => Raise e
       end,
       LazyState (objects s) (<[memo := (copy_deepcopy w m).2]> (memos s)) (setups s)).
Proof.
  unfold SimpleLazyObject__deepcopy__, SimpleLazyObject__init__, alloc_lazy, memo_set,
    deepcopy_wrapped, LazyObject_setup, get_lazy, l_ret, l_raise, mbind, mret, L_bind, L_ret.
  simpl. split; [|split].
  - destruct (objects s !! self) as [[[w|] [|f]]|]; simpl; try done.
    + by destruct (memos s !! memo) as [m|]; [destruct (copy_deepcopy w m)|].
    + by destruct (memos s !! memo) as [m|]; [destruct (copy_deepcopy w m)|].
    + by destruct (memos s !! memo).
  - intros j o Hj.
    destruct (objects s !! self) as [[[w|] [|f]]|]; simpl; try done.
    + by destruct (memos s !! memo) as [m|]; [destruct (copy_deepcopy w m)|].
    + by destruct (memos s !! memo) as [m|]; [destruct (copy_deepcopy w m)|].
    + destruct (memos s !! memo); simpl; apply lookup_app_l_Some; done.
  - intros w k m Ho Hm. rewrite Ho. simpl. rewrite Hm.
    by destruct (copy_deepcopy w m).
Qed.

End LazyObjectFacts.

(** * [lazy_property] *)

Section LazyPropertyFacts.
Context `{Python}.
Implicit Types (g st dl : option named_function) (instance v : value).

(** X22.  A [lazy_property] calls what the name of the given function
    resolves to on the class of the instance, where the built-in [property]
    calls the given function itself; the same for the setter and the
    deleter. *)
Theorem lazy_property_resolves_by_name (f : named_function) g st dl doc instance v m :
  mro_lookup (mro (type_of instance)) (nf_name f) = Some m →
  property_get (lazy_property (Some f) st dl doc) instance = m instance [] [] ∧
  property_set (lazy_property g (Some f) dl doc) instance v = m instance [v] [] ∧
  property_delete (lazy_property g st (Some f) doc) instance = m instance [] [] ∧
  property_get (builtin_property (Some f) st dl doc) instance = nf_call f instance [] [] ∧
  property_set (builtin_property g (Some f) dl doc) instance v = nf_call f instance [v] [] ∧
  property_delete (builtin_property g st (Some f) doc) instance = nf_call f instance [] [].
Proof.
  intros Hm. unfold property_get, property_set, property_delete. simpl.
  unfold call_by_name. by rewrite Hm.
Qed.

(** X23.  What reading, writing and deleting a [lazy_property] do depends
    on the names of the functions given and on nothing else of them:
    properties made of functions with the same names, whatever their bodies
    and docstrings, behave alike on every instance.  What the property
    shows of the functions is kept: its docstring is the one given or else
    that of the getter, and each wrapper carries the name, the module and
    the docstring of the function it replaces. *)
Theorem lazy_property_keeps_names_only g st dl doc g' st' dl' doc' :
  nf_name <$> g = nf_name <$> g' →
  nf_name <$> st = nf_name <$> st' →
  nf_name <$> dl = nf_name <$> dl' →
  (∀ instance v,
     property_get (lazy_property g st dl doc) instance
     = property_get (lazy_property g' st' dl' doc') instance ∧
     property_set (lazy_property g st dl doc) instance v
     = property_set (lazy_property g' st' dl' doc') instance v ∧
     property_delete (lazy_property g st dl doc) instance
     = property_delete (lazy_property g' st' dl' doc') instance) ∧
  p_doc (lazy_property g st dl doc)
  = match doc with Some text => Some text | None => g ≫= nf_doc end ∧
  (ac_name <$> fget (lazy_property g st dl doc) = nf_name <$> g ∧
   ac_module <$> fget (lazy_property g st dl doc) = nf_module <$> g ∧
   (fget (lazy_property g st dl doc) ≫= ac_doc) = g ≫= nf_doc).
Proof.
  intros Hg Hs Hd. split; [|split].
  - intros instance v. unfold property_get, property_set, property_delete. simpl.
    destruct g as [g|], g' as [g'|]; try done;
    destruct st as [st|], st' as [st'|]; try done;
    destruct dl as [dl|], dl' as [dl'|]; try done; simpl in *;
    repeat match goal with
           | H : Some _ = Some _ |- _ => injection H as H; rewrite H
           end; done.
  - simpl. by destruct doc, g.
  - by destruct g.
Qed.

(** X24.  A getter whose name the class of the instance does not define:
    reading the [lazy_property] ends in [AttributeError] for that name,
    where the built-in [property] returns what the function returns.  Where
    no getter is given, [lazy_property] has none either. *)
Theorem lazy_property_of_undefined_name (f : named_function) st dl doc instance :
  mro_lookup (mro (type_of instance)) (nf_name f) = None →
  property_get (lazy_property (Some f) st dl doc) instance
  = Raise (AttributeError (nf_name f)) ∧
  property_get (builtin_property (Some f) st dl doc) instance = nf_call f instance [] [] ∧
  property_get (lazy_property None st dl doc) instance
  = property_get (builtin_property None st dl doc) instance.
Proof.
  intros Hm. unfold property_get. simpl. unfold call_by_name. by rewrite Hm.
Qed.

End LazyPropertyFacts.

(** * The properties above on the examples *)

Import MoreExamples HelperExamples.

Lemma s_base_only_proxy : is_proxy s_base_only 0 f_derived ["Base"] [] [].
Proof. exists 0. split; vm_compute; reflexivity. Qed.

Lemma s_fails_proxy : is_proxy s_fails 0 f_fails ["int"] [] [].
Proof. exists 0. split; vm_compute; reflexivity. Qed.

Lemma s_str_proxy : is_proxy s_str 0 f_text ["str"] [] [].
Proof. exists 0. split; vm_compute; reflexivity. Qed.

(** Integers declared: [__add__] is forwarded. *)
Lemma dispatched_exactly_witness :
  dispatched f_three ["int"] "__add__"
  ↔ (("__add__" ∉ own_attrs) ∧
     ∃ rc t, rc ∈ ["int"] ∧ t ∈ mro rc ∧ is_Some (c_dict (class_of t) !! "__add__")).
Proof.
  apply (dispatched_exactly f_three ["int"] "__add__").
  intros Hin. vm_compute in Hin. repeat (apply elem_of_cons in Hin as [[=]|Hin]).
  by apply elem_of_nil in Hin.
Defined.

(** A factory declaring [Base] whose computation yields a [Derived]: the
    definition of [Base] answers. *)
Lemma dispatch_by_first_declared_class_witness :
  (invoke 1 0 "describe" [] [] s_base_only).1
  = match mro_lookup (mro "Base") "describe" with
    | Some m => m (VInst "Derived" 0) [] []
    | None => Raise (KeyError "describe")
    end.
Proof.
  assert (dispatched f_derived ["Base"] "describe") as Hd by (vm_compute; reflexivity).
  assert (fn_body f_derived [] [] (trace s_base_only) = Ok (VInst "Derived" 0)) as Hres
    by reflexivity.
  assert (mro (type_of (VInst "Derived" 0)) = (["Derived"] ++ "Base" :: ["object"])%list)
    as Hmro by reflexivity.
  assert (∀ u, u ∈ ["Derived"] → u ∉ ["Base"]) as Hpre.
  { intros u ->%list_elem_of_singleton [=]%list_elem_of_singleton. }
  assert ("Base" ∈ ["Base"]) as Ht by in_list.
  exact (dispatch_by_first_declared_class s_base_only 0 f_derived ["Base"] [] []
           "describe" (VInst "Derived" 0) ["Derived"] ["object"] "Base" 0 [] []
           s_base_only_proxy Hd Hres Hmro Hpre Ht).
Defined.

(** A computation that raises [ValueError]: every operation raises it. *)
Lemma computation_errors_propagate_witness :
  (∀ op a k, dispatched f_fails ["int"] op →
     invoke 1 0 op a k s_fails
     = (Raise (OtherError "ValueError" "no value"), record_call f_fails [] [] s_fails)) ∧
  (∀ op other, is_promise other = false →
     invoke 1 0 (cmp_name op) [other] [] s_fails
     = (Raise (OtherError "ValueError" "no value"), record_call f_fails [] [] s_fails)) ∧
  invoke 1 0 "__hash__" [] [] s_fails
  = (Raise (OtherError "ValueError" "no value"), record_call f_fails [] [] s_fails).
Proof.
  assert (fn_body f_fails [] [] (trace s_fails)
          = Raise (OtherError "ValueError" "no value")) as Hres by reflexivity.
  exact (computation_errors_propagate s_fails 0 f_fails ["int"] [] []
           (OtherError "ValueError" "no value") 0 s_fails_proxy Hres).
Defined.

(** Texts declared: [__str__] of the proxy yields the text. *)
Lemma conversions_follow_declared_class_witness :
  (text_type ∈ ["str"] → bytes_cls ∉ ["str"] →
     invoke 1 0 (if PY3 then "__str__" else "__unicode__") [] [] s_str
     = (fn_body f_text [] [] (trace s_str), record_call f_text [] [] s_str)) ∧
  (bytes_cls ∈ ["str"] → text_type ∉ ["str"] →
     invoke 1 0 (if PY3 then "__bytes__" else "__str__") [] [] s_str
     = (match fn_body f_text [] [] (trace s_str) with
        | Ok v => py_bytes v
        | Raise e => Raise e
        end, record_call f_text [] [] s_str)) ∧
  (text_type ∉ ["str"] → bytes_cls ∉ ["str"] → "__str__" ∈ own_attrs →
     pc_attrs (prepared_class f_text ["str"]) !! "__str__" = Some (AOwn "__str__")).
Proof.
  exact (conversions_follow_declared_class s_str 0 f_text ["str"] [] [] 0 s_str_proxy).
Defined.

(** Two deferred products of the integer proxy of [s_int]. *)
Lemma allow_lazy_new_class_per_call_witness :
  let s' := (allow_lazy f_mul ["int"] [VPromise 0; VInt 2] [] s_int).2 in
  (allow_lazy f_mul ["int"] [VPromise 0; VInt 2] [] s_int).1
  = Ok (VPromise (length (heap s_int))) ∧
  length (classes s') = S (length (classes s_int)) ∧
  heap s' !! length (heap s_int)
  = Some (ProxyObj (length (classes s_int)) [VPromise 0; VInt 2] []) ∧
  classes s' !! length (classes s_int) = Some (prepared_class f_mul ["int"]) ∧
  trace s' = trace s_int ∧
  (∀ args2 (kw2 : kwargs),
     existsb is_promise (args2 ++ kw2.*2) = true →
     (allow_lazy f_mul ["int"] args2 kw2 s').1 = Ok (VPromise (S (length (heap s_int)))) ∧
     heap (allow_lazy f_mul ["int"] args2 kw2 s').2 !! S (length (heap s_int))
     = Some (ProxyObj (S (length (classes s_int))) args2 kw2)).
Proof.
  assert (existsb is_promise ([VPromise 0; VInt 2] ++ ([] : kwargs).*2) = true) as Hsome
    by reflexivity.
  assert (conflicting ["int"] = false) as Hconf by (vm_compute; reflexivity).
  exact (allow_lazy_new_class_per_call f_mul ["int"] [VPromise 0; VInt 2] [] s_int
           Hsome Hconf).
Defined.

(** The example of the docstring: the integers up to 4, split at 3. *)
Lemma partition_of_boolean_witness :
  partition greater_than_3 [0; 1; 2; 3; 4]%Z = Ok ([0; 1; 2; 3]%Z, [4]%Z).
Proof.
  apply (partition_of_boolean greater_than_3 (λ x, (3 <? x)%Z) [0; 1; 2; 3; 4]%Z).
  intros item _. reflexivity.
Defined.

(** Indices given as integers, the negative ones counting from the end. *)
Lemma partition_splits_input_witness :
  (∀ item, item ∈ [0; -2]%Z ↔ item ∈ [0; 1; -1; -2]%Z ∧ side_of identity item = Ok false) ∧
  (∀ item, item ∈ [1; -1]%Z ↔ item ∈ [0; 1; -1; -2]%Z ∧ side_of identity item = Ok true) ∧
  ([0; -2] ++ [1; -1])%list%Z ≡ₚ [0; 1; -1; -2]%Z ∧
  length [0; -2]%Z + length [1; -1]%Z = length [0; 1; -1; -2]%Z ∧
  sublist [0; -2]%Z [0; 1; -1; -2]%Z ∧ sublist [1; -1]%Z [0; 1; -1; -2]%Z.
Proof.
  apply (partition_splits_input identity [0; 1; -1; -2]%Z [0; -2]%Z [1; -1]%Z).
  reflexivity.
Defined.

(** The index 2 after two good items: [IndexError], and no lists. *)
Lemma partition_stops_at_first_failure_witness :
  partition identity ([0; 1] ++ 2 :: [0])%list%Z
  = Raise (OtherError "IndexError" "tuple index out of range").
Proof.
  apply (partition_stops_at_first_failure identity [0; 1]%Z [0]%Z 2%Z).
  - intros y Hy. apply elem_of_cons in Hy as [->|Hy]; [by exists false|].
    apply list_elem_of_singleton in Hy as ->. by exists true.
  - reflexivity.
Defined.

(** The demonstration class: the first access computes 0, the second
    returns the stored 0. *)
Lemma cached_property_computed_once_witness :
  let s1 := CachedProperty.Store
              (<[0 := <["cached_property" := VInt 0]> ∅]>
                 (CachedProperty.dict_of CachedProperty.one_instance))
              (("cached_property", 0) :: CachedProperty.calls CachedProperty.one_instance) in
  CachedProperty.getattr CachedProperty.demo_class 0 "cached_property"
    CachedProperty.one_instance
  = (Ok (CachedProperty.Value (VInt 0)), s1) ∧
  CachedProperty.getattr CachedProperty.demo_class 0 "cached_property" s1
  = (Ok (CachedProperty.Value (VInt 0)), s1) ∧
  CachedProperty.getattr_class CachedProperty.demo_class "cached_property" s1
  = (Ok (CachedProperty.Descriptor (CachedProperty.__init__ CachedProperty.counting)), s1).
Proof.
  apply (cached_property_computed_once CachedProperty.demo_class "cached_property"
           (CachedProperty.__init__ CachedProperty.counting) 0 ∅ (VInt 0) ∅
           CachedProperty.one_instance); reflexivity.
Defined.

(** The same function read three times through the name [alias]: three
    calls. *)
Lemma cached_property_under_other_name_witness :
  CachedProperty.calls
    (Nat.iter 3 (λ s, (CachedProperty.getattr CachedProperty.demo_class 0 "alias" s).2)
       CachedProperty.one_instance)
  = (repeat ("cached_property", 0) 3 ++ [])%list.
Proof.
  apply (cached_property_under_other_name CachedProperty.demo_class "alias"
           (CachedProperty.__init__ CachedProperty.counting) 0 ∅ 3
           CachedProperty.one_instance); try reflexivity.
  - intros [=].
  - intros j dj made Hdj. exact Hdj.
Defined.

(** A function that raises [ValueError]: two accesses, two calls. *)
Lemma cached_property_failure_not_stored_witness :
  let s1 := CachedProperty.Store
              (<[0 := ∅]> (CachedProperty.dict_of CachedProperty.one_instance))
              (("broken", 0) :: CachedProperty.calls CachedProperty.one_instance) in
  CachedProperty.getattr CachedProperty.broken_class 0 "broken" CachedProperty.one_instance
  = (Raise (OtherError "ValueError" "no value"), s1) ∧
  CachedProperty.calls (CachedProperty.getattr CachedProperty.broken_class 0 "broken" s1).2
  = [("broken", 0); ("broken", 0)].
Proof.
  apply (cached_property_failure_not_stored CachedProperty.broken_class "broken"
           (CachedProperty.__init__ CachedProperty.broken) 0 ∅
           (OtherError "ValueError" "no value") ∅ CachedProperty.one_instance);
    reflexivity.
Defined.

(** A lazy 3: the first [hash] sets up, the second does not. *)
Lemma lazy_object_set_up_once_witness :
  new_method_proxy hash_func 0 [] unevaluated
  = (hash_func (VInt 3) [], set_up 0 f_three (VInt 3) unevaluated) ∧
  (∀ func' args',
     new_method_proxy func' 0 args' (set_up 0 f_three (VInt 3) unevaluated)
     = (func' (VInt 3) args', set_up 0 f_three (VInt 3) unevaluated)) ∧
  ∀ calls, proxied_calls calls 0 (set_up 0 f_three (VInt 3) unevaluated)
           = set_up 0 f_three (VInt 3) unevaluated.
Proof.
  apply (lazy_object_set_up_once hash_func 0 [] f_three (VInt 3) unevaluated);
    reflexivity.
Defined.

(** A plain [LazyObject] cannot be used. *)
Lemma lazy_object_without_setup_witness :
  new_method_proxy hash_func 0 [] unevaluated_plain
  = (Raise not_implemented, unevaluated_plain) ∧
  LazyObject__setattr__ 0 "x" (Some (VInt 1)) unevaluated_plain
  = (Raise not_implemented, unevaluated_plain) ∧
  LazyObject__delattr__ 0 "x" unevaluated_plain
  = (Raise not_implemented, unevaluated_plain).
Proof.
  apply (lazy_object_without_setup hash_func 0 [] "x" (Some (VInt 1)) unevaluated_plain).
  - reflexivity.
  - intros [=].
Defined.

(** A setup function that raises [ValueError] is run by each call. *)
Lemma failed_setup_is_run_again_witness :
  new_method_proxy hash_func 0 [] unevaluated_failing
  = (Raise (OtherError "ValueError" "no value"), called f_fails unevaluated_failing) ∧
  ∀ func' args',
    setups (new_method_proxy func' 0 args' (called f_fails unevaluated_failing)).2
    = Invoke (fn_id f_fails) [] [] :: Invoke (fn_id f_fails) [] []
      :: setups unevaluated_failing.
Proof.
  apply (failed_setup_is_run_again hash_func 0 [] f_fails
           (OtherError "ValueError" "no value") unevaluated_failing); reflexivity.
Defined.

(** Assigning [_wrapped] of the lazy 3 before any use. *)
Lemma assigning_wrapped_replaces_setup_witness :
  (∀ v func args,
     let s1 := LazyState (<[0 := LazyObj (Some v) (Simple f_three)]> (objects unevaluated))
                         (memos unevaluated) (setups unevaluated) in
     LazyObject__setattr__ 0 "_wrapped" (Some v) unevaluated = (Ok (), s1) ∧
     new_method_proxy func 0 args s1 = (func v args, s1)) ∧
  (∀ f func args,
     Simple f_three = Simple f →
     let s0 := LazyState (<[0 := LazyObj None (Simple f)]> (objects unevaluated))
                         (memos unevaluated) (setups unevaluated) in
     LazyObject__setattr__ 0 "_wrapped" None unevaluated = (Ok (), s0) ∧
     setups (new_method_proxy func 0 args s0).2
     = Invoke (fn_id f) [] [] :: setups unevaluated).
Proof.
  apply (assigning_wrapped_replaces_setup 0 (LazyObj None (Simple f_three)) unevaluated).
  reflexivity.
Defined.

(** Setting and deleting the attribute [x] of the lazy 3. *)
Lemma attributes_go_to_wrapped_object_witness :
  LazyObject__setattr__ 0 "x" (Some (VInt 1)) unevaluated
  = (py_setattr (VInt 3) "x" (Some (VInt 1)), set_up 0 f_three (VInt 3) unevaluated) ∧
  LazyObject__delattr__ 0 "x" unevaluated
  = (py_delattr (VInt 3) "x", set_up 0 f_three (VInt 3) unevaluated) ∧
  LazyObject__setattr__ 0 "x" (Some (VInt 1)) (set_up 0 f_three (VInt 3) unevaluated)
  = (py_setattr (VInt 3) "x" (Some (VInt 1)), set_up 0 f_three (VInt 3) unevaluated) ∧
  LazyObject__delattr__ 0 "x" (set_up 0 f_three (VInt 3) unevaluated)
  = (py_delattr (VInt 3) "x", set_up 0 f_three (VInt 3) unevaluated) ∧
  LazyObject__delattr__ 0 "_wrapped" unevaluated
  = (Raise (TypeError "can't delete _wrapped."), unevaluated).
Proof.
  apply (attributes_go_to_wrapped_object 0 "x" (Some (VInt 1)) f_three (VInt 3)
           unevaluated).
  - reflexivity.
  - reflexivity.
  - intros [=].
Defined.

(** The deep copy of the lazy 3 before any use is a second lazy 3. *)
Lemma deepcopy_of_unevaluated_witness :
  let result := length (objects unevaluated) in
  let s' := LazyState (objects unevaluated ++ [LazyObj None (Simple f_three)])%list
                      (<[0 := <[0 := CopiedLazy result]> ∅]> (memos unevaluated))
                      (setups unevaluated) in
  SimpleLazyObject__deepcopy__ 0 0 unevaluated = (Ok (CopiedLazy result), s') ∧
  result ≠ 0 ∧
  objects s' !! 0 = Some (LazyObj None (Simple f_three)) ∧
  ∀ func args,
    setups (new_method_proxy func result args s').2
    = Invoke (fn_id f_three) [] [] :: setups unevaluated.
Proof.
  apply (deepcopy_of_unevaluated 0 0 f_three ∅ unevaluated); reflexivity.
Defined.

(** A [Derived] instance and the getter [describe] of [Base]. *)
Lemma lazy_property_resolves_by_name_witness :
  property_get (lazy_property (Some describe) None None None) (VInst "Derived" 0)
  = derived_describe (VInst "Derived" 0) [] [] ∧
  property_set (lazy_property None (Some describe) None None) (VInst "Derived" 0) VNone
  = derived_describe (VInst "Derived" 0) [VNone] [] ∧
  property_delete (lazy_property None None (Some describe) None) (VInst "Derived" 0)
  = derived_describe (VInst "Derived" 0) [] [] ∧
  property_get (builtin_property (Some describe) None None None) (VInst "Derived" 0)
  = nf_call describe (VInst "Derived" 0) [] [] ∧
  property_set (builtin_property None (Some describe) None None) (VInst "Derived" 0) VNone
  = nf_call describe (VInst "Derived" 0) [VNone] [] ∧
  property_delete (builtin_property None None (Some describe) None) (VInst "Derived" 0)
  = nf_call describe (VInst "Derived" 0) [] [].
Proof.
  apply (lazy_property_resolves_by_name describe None None None None (VInst "Derived" 0)
           VNone derived_describe).
  vm_compute. reflexivity.
Defined.

(** Two getters named [describe] with different bodies and docstrings: the
    properties read alike, and each keeps its own docstring. *)
Lemma lazy_property_keeps_names_only_witness :
  (∀ instance v,
     property_get (lazy_property (Some describe) None None None) instance
     = property_get (lazy_property (Some describe') None None (Some "Other.")) instance ∧
     property_set (lazy_property (Some describe) None None None) instance v
     = property_set (lazy_property (Some describe') None None (Some "Other.")) instance v ∧
     property_delete (lazy_property (Some describe) None None None) instance
     = property_delete (lazy_property (Some describe') None None (Some "Other.")) instance) ∧
  p_doc (lazy_property (Some describe) None None None) = Some "What it is." ∧
  p_doc (lazy_property (Some describe') None None (Some "Other.")) = Some "Other.".
Proof.
  destruct (lazy_property_keeps_names_only (Some describe) None None None
              (Some describe') None None (Some "Other.")) as (Hsame & Hdoc & _);
    [reflexivity..|].
  split; [exact Hsame|]. split; [exact Hdoc|reflexivity].
Defined.

(** A function named [compute], which [Derived] does not define. *)
Lemma lazy_property_of_undefined_name_witness :
  property_get (lazy_property (Some unbound) None None None) (VInst "Derived" 0)
  = Raise (AttributeError (nf_name unbound)) ∧
  property_get (builtin_property (Some unbound) None None None) (VInst "Derived" 0)
  = nf_call unbound (VInst "Derived" 0) [] [] ∧
  property_get (lazy_property None None None None) (VInst "Derived" 0)
  = property_get (builtin_property None None None None) (VInst "Derived" 0).
Proof.
  apply (lazy_property_of_undefined_name unbound None None None (VInst "Derived" 0)).
  vm_compute. reflexivity.
Defined.


(** The value 3 on the left of a lazy 3. *)
Lemma comparison_with_promise_on_the_right_witness :
  compare (invoke 1) Eq_ (VInt 3) (VPromise 0) s_int
  = (Ok (VBool true), record_call f_three [] [] s_int) ∧
  compare (invoke 1) Lt_ (VInt 3) (VPromise 0) s_int
  = py_external "__gt__" 0 [VInt 3] [] s_int.
Proof.
  destruct (comparison_with_promise_on_the_right s_int 0 f_three ["int"] [] [] (VInt 3) 0
              s_int_proxy eq_refl) as (_ & Hrefl & Hlt).
  split.
  - apply (Hrefl Eq_); [reflexivity|discriminate|]. intros l. vm_compute. discriminate.
  - apply Hlt. reflexivity.
Defined.

(** A lazy 3 modulo 2. *)
Lemma formatting_applies_to_the_conversion_witness :
  invoke 2 0 "__mod__" [VInt 2] [] s_int
  = (Ok (VInt 1), record_call f_three [] [] s_int).
Proof.
  destruct (formatting_applies_to_the_conversion s_int 0 f_three ["int"] [] [] (VInt 2) 0
              s_int_proxy) as (Hmod & _).
  - vm_compute. reflexivity.
  - reflexivity.
  - intros l. vm_compute. discriminate.
  - exact Hmod.
Defined.

(** The lazy 3 bound to the argument 9. *)
Lemma init_again_rebinds_the_arguments_witness :
  (reinit 0 [VInt 9] [] s_int).1 = Ok () ∧
  is_proxy (reinit 0 [VInt 9] [] s_int).2 0 f_three ["int"] [VInt 9] [] ∧
  trace (invoke 1 0 "__add__" [VInt 1] [] (reinit 0 [VInt 9] [] s_int).2).2
  = [Invoke 7 [VInt 9] []].
Proof.
  destruct (init_again_rebinds_the_arguments s_int 0 f_three ["int"] [] [] [VInt 9] []
              s_int_proxy) as (Hok & Hp & _ & _ & _ & Hops).
  split; [exact Hok|]. split; [exact Hp|].
  apply (Hops "__add__" [VInt 1] [] 0). vm_compute. reflexivity.
Defined.

(** Another function registered for the addition of integers. *)
Lemma promise_registers_for_dispatch_witness :
  (promise_call 0 "int" "__add__" int_repr s_int).1 = Ok () ∧
  (invoke 1 0 "__add__" [VInt 1] [] (promise_call 0 "int" "__add__" int_repr s_int).2).1
  = Ok (VText "<int>").
Proof.
  assert (dispatched f_three ["int"] "__add__") as Hd by (vm_compute; reflexivity).
  destruct (promise_registers_for_dispatch s_int 0 f_three ["int"] [] []
              "int" "__add__" int_repr (VInt 3) [VInt 1] [] 0
              s_int_proxy Hd eq_refl eq_refl) as (Hok & _ & _ & Hinv).
  split; [exact Hok|]. by rewrite Hinv.
Defined.
